(** * Takeout MS: credential store, reset tokens and order import

    A shallow embedding of [modules/auth.py] and of the import pipeline of
    [modules/ui_settings_import.py], followed by the properties proved
    about them.

    Conventions.
    - A Python [str] is a [string] whose characters are read as the code
      points U+0000..U+00FF; [len] is [String.length] and
      [encode("utf-8")] is [utf8].
    - A SQL table is the list of its rows in rowid order; [fetchone] on a
      query that scans the table answers the first matching row, and on
      a query SQLite answers through its indexes the first row those
      yield (see [select_user]).
    - A statement that names a column the table does not have, or that a
      constraint of the table refuses, raises; failures of the
      environment (locked file, full disk) are outside the model.
    - Values drawn from the environment (random bytes, the clock, the mail
      relay's answer) are arguments of the function that draws them. *)

From Stdlib Require Import ZArith List String Ascii Bool Lia DecimalString.
From Stdlib Require Import Strings.Byte.
From Stdlib Require DecimalPos DecimalZ Floats.SpecFloat.
From stdpp Require Import gmap strings list.
Import ListNotations.

#[local] Open Scope Z_scope.

(** ** Python text *)

Module pytext.

Definition bytes := list byte.

#[global] Instance byte_eq_decision : EqDecision byte := Byte.byte_eq_dec.

Definition ord (c : ascii) : Z := Z.of_N (N_of_ascii c).

Definition chr (n : Z) : ascii := ascii_of_N (Z.to_N n).

Definition between (lo hi n : Z) : bool := (lo <=? n) && (n <=? hi).

(** [str.isspace] on one character: TAB..CR, FS..US, space, NEL, NBSP. *)
Definition isspace (c : ascii) : bool :=
  let n := ord c in
  between 9 13 n || between 28 32 n || (n =? 133) || (n =? 160).

Definition is_upper (c : ascii) : bool :=
  let n := ord c in
  between 65 90 n || (between 192 222 n && negb (n =? 215)).

Definition is_lower (c : ascii) : bool :=
  let n := ord c in
  between 97 122 n || (between 223 255 n && negb (n =? 247))
  || (n =? 170) || (n =? 181) || (n =? 186).

Definition is_cased (c : ascii) : bool := is_upper c || is_lower c.

Definition lower_char (c : ascii) : ascii :=
  if is_upper c then chr (ord c + 32) else c.

(** The capital of a character. Three lower-case letters of this range
    have their capital outside it (U+00B5, U+00DF, U+00FF); they are left
    as they are, so [title] is exact on every text without them. *)
Definition upper_char (c : ascii) : ascii :=
  let n := ord c in
  if between 97 122 n || (between 224 254 n && negb (n =? 247))
  then chr (n - 32) else c.

Fixpoint lower (s : string) : string :=
  match s with
  | EmptyString => EmptyString
  | String c r => String (lower_char c) (lower r)
  end.

Fixpoint title_from (previous_is_cased : bool) (s : string) : string :=
  match s with
  | EmptyString => EmptyString
  | String c r =>
      String (if previous_is_cased then lower_char c else upper_char c)
             (title_from (is_cased c) r)
  end.

Definition title (s : string) : string := title_from false s.

Fixpoint lstrip (s : string) : string :=
  match s with
  | EmptyString => EmptyString
  | String c r => if isspace c then lstrip r else s
  end.

Fixpoint rstrip (s : string) : string :=
  match s with
  | EmptyString => EmptyString
  | String c r =>
      match rstrip r with
      | EmptyString => if isspace c then EmptyString else String c EmptyString
      | r' => String c r'
      end
  end.

Definition strip (s : string) : string := rstrip (lstrip s).

(** [s.rstrip(chars)] for a single character. *)
Fixpoint rstrip_char (x : ascii) (s : string) : string :=
  match s with
  | EmptyString => EmptyString
  | String c r =>
      match rstrip_char x r with
      | EmptyString => if Ascii.eqb c x then EmptyString else String c EmptyString
      | r' => String c r'
      end
  end.

(** [re.sub(r"\s+", "", s)] and [s.replace(",", "")]: every character of
    the class is removed. *)
Fixpoint remove_chars (p : ascii -> bool) (s : string) : string :=
  match s with
  | EmptyString => EmptyString
  | String c r => if p c then remove_chars p r else String c (remove_chars p r)
  end.

Fixpoint forall_chars (p : ascii -> bool) (s : string) : bool :=
  match s with
  | EmptyString => true
  | String c r => p c && forall_chars p r
  end.

Definition startswith (p s : string) : bool := String.prefix p s.

Fixpoint contains (p s : string) : bool :=
  String.prefix p s ||
  match s with
  | EmptyString => false
  | String _ r => contains p r
  end.

Definition endswith (p s : string) : bool :=
  let n := String.length s in
  let k := String.length p in
  (k <=? n)%nat && String.eqb (String.substring (n - k) k s) p.

(** [s[:-k]] for [k] not larger than [len(s)]. *)
Definition drop_last (k : nat) (s : string) : string :=
  String.substring 0 (String.length s - k) s.

(** [s.split(" ")[0]]. *)
Fixpoint before_space (s : string) : string :=
  match s with
  | EmptyString => EmptyString
  | String c r => if Ascii.eqb c " " then EmptyString else String c (before_space r)
  end.

Definition byte_of_Z (n : Z) : byte :=
  match Byte.of_N (Z.to_N n) with
  | Some b => b
  | None => x00
  end.

(** [s.encode("utf-8")]: one byte below U+0080, two bytes from there to
    U+00FF. *)
Fixpoint utf8 (s : string) : bytes :=
  match s with
  | EmptyString => []
  | String c r =>
      let n := ord c in
      if n <? 128 then byte_of_Z n :: utf8 r
      else byte_of_Z (192 + n / 64) :: byte_of_Z (128 + n mod 64) :: utf8 r
  end.

Definition hex_value (c : ascii) : option Z :=
  let n := ord c in
  if between 48 57 n then Some (n - 48)
  else if between 97 102 n then Some (n - 87)
  else if between 65 70 n then Some (n - 55)
  else None.

Definition is_hex (c : ascii) : bool :=
  match hex_value c with Some _ => true | None => false end.

(** [bytes.fromhex] on a text made of hexadecimal digits only. *)
Fixpoint fromhex (s : string) : bytes :=
  match s with
  | String a (String b r) =>
      match hex_value a, hex_value b with
      | Some x, Some y => byte_of_Z (16 * x + y) :: fromhex r
      | _, _ => []
      end
  | _ => []
  end.

(** [str(n)] for an integer. *)
Definition str_of_Z (n : Z) : string := NilZero.string_of_int (Z.to_int n).

Fixpoint zeros (n : nat) : string :=
  match n with
  | O => EmptyString
  | S k => String "0" (zeros k)
  end.

(** [s.zfill(width)]: the padding goes after a leading sign. *)
Definition zfill (width : Z) (s : string) : string :=
  let n := Z.of_nat (String.length s) in
  if width <=? n then s
  else
    let pad := zeros (Z.to_nat (width - n)) in
    match s with
    | String c r =>
        if Ascii.eqb c "+" || Ascii.eqb c "-" then String c (pad +:+ r)
        else pad +:+ s
    | EmptyString => pad
    end.

Definition digit (n : Z) : ascii := chr (48 + n mod 10).

Definition digit_value (c : ascii) : option Z :=
  let n := ord c in
  if between 48 57 n then Some (n - 48) else None.

(** [not l] and [not s]. *)
Definition is_empty {A} (l : list A) : bool :=
  match l with [] => true | _ => false end.

Definition str_empty (s : string) : bool :=
  match s with EmptyString => true | _ => false end.

End pytext.

(** ** Python's [datetime]

    A naive datetime is the record of its fields. Addition of minutes goes
    through the proleptic Gregorian ordinal, as the library does;
    comparison is the comparison of the field tuples. *)

Module pydatetime.
Import pytext.

Record datetime := mk_datetime {
  year : Z; month : Z; day : Z;
  hour : Z; minute : Z; second : Z; microsecond : Z
}.

Definition is_leap (y : Z) : bool :=
  (y mod 4 =? 0) && (negb (y mod 100 =? 0) || (y mod 400 =? 0)).

Definition days_before_year (y : Z) : Z :=
  let p := y - 1 in p * 365 + p / 4 - p / 100 + p / 400.

Definition month_lengths : list Z := [31; 28; 31; 30; 31; 30; 31; 31; 30; 31; 30; 31].

Definition days_in_month (y m : Z) : Z :=
  if (m =? 2) && is_leap y then 29
  else nth (Z.to_nat (m - 1)) month_lengths 0.

Definition days_before_month (y m : Z) : Z :=
  fold_right Z.add 0 (firstn (Z.to_nat (m - 1)) month_lengths)
  + (if (2 <? m) && is_leap y then 1 else 0).

Definition ymd2ord (y m d : Z) : Z :=
  days_before_year y + days_before_month y m + d.

Definition toordinal (t : datetime) : Z := ymd2ord (year t) (month t) (day t).

(** The library's [_ord2ymd]: 400-, 100-, 4- and 1-year cycles. *)
Definition ord2ymd (n0 : Z) : Z * Z * Z :=
  let n := n0 - 1 in
  let n400 := n / 146097 in
  let n := n mod 146097 in
  let n100 := n / 36524 in
  let n := n mod 36524 in
  let n4 := n / 1461 in
  let n := n mod 1461 in
  let n1 := n / 365 in
  let n := n mod 365 in
  let y := n400 * 400 + 1 + n100 * 100 + n4 * 4 + n1 in
  if (n1 =? 4) || (n100 =? 4) then (y - 1, 12, 31)
  else
    let leapyear := (n1 =? 3) && (negb (n4 =? 24) || (n100 =? 3)) in
    let before (m : Z) :=
      fold_right Z.add 0 (firstn (Z.to_nat (m - 1)) month_lengths)
      + (if (2 <? m) && leapyear then 1 else 0) in
    let m := Z.shiftr (n + 50) 5 in
    if n <? before m then (y, m - 1, n - before (m - 1) + 1)
    else (y, m, n - before m + 1).

Definition MAXORDINAL : Z := 3652059.

Definition us_per_day : Z := 86400 * 1000000.

(** [t + timedelta(minutes=k)]; [None] is the library's [OverflowError]. *)
Definition add_minutes (t : datetime) (k : Z) : option datetime :=
  let us := microsecond t
            + 1000000 * (second t + 60 * (minute t + k) + 3600 * hour t) in
  let days := toordinal t + us / us_per_day in
  let rest := us mod us_per_day in
  let secs := rest / 1000000 in
  if (0 <? days) && (days <=? MAXORDINAL) then
    let '(y, m, d) := ord2ymd days in
    Some (mk_datetime y m d (secs / 3600) ((secs mod 3600) / 60) (secs mod 60)
                      (rest mod 1000000))
  else None.

Definition fields (t : datetime) : list Z :=
  [year t; month t; day t; hour t; minute t; second t; microsecond t].

Fixpoint lex_ltb (a b : list Z) : bool :=
  match a, b with
  | x :: a', y :: b' => (x <? y) || ((x =? y) && lex_ltb a' b')
  | [], _ :: _ => true
  | _, [] => false
  end.

(** [a < b] and [a > b] on datetimes. *)
Definition ltb (a b : datetime) : bool := lex_ltb (fields a) (fields b).
Definition gtb (a b : datetime) : bool := ltb b a.

Definition pad2 (n : Z) : string :=
  String (digit (n / 10)) (String (digit n) EmptyString).

Definition pad4 (n : Z) : string :=
  String (digit (n / 1000)) (String (digit (n / 100))
    (String (digit (n / 10)) (String (digit n) EmptyString))).

(** [t.strftime("%Y-%m-%d %H:%M:%S")]: the microseconds are not written.
    ([%Y] is taken zero-padded to four digits; the clock only yields
    years that have four.) *)
Definition strftime_seconds (t : datetime) : string :=
  pad4 (year t) +:+ "-" +:+ pad2 (month t) +:+ "-" +:+ pad2 (day t) +:+ " "
  +:+ pad2 (hour t) +:+ ":" +:+ pad2 (minute t) +:+ ":" +:+ pad2 (second t).

(** [t.strftime("%Y%m")]. *)
Definition strftime_month (t : datetime) : string :=
  pad4 (year t) +:+ pad2 (month t).

(** The datetime a text written by [strftime_seconds] denotes. *)
Definition whole_second (t : datetime) : datetime :=
  mk_datetime (year t) (month t) (day t) (hour t) (minute t) (second t) 0.

(** What the clock can return: a date of the calendar and a time of day. *)
Definition valid (t : datetime) : Prop :=
  1 <= year t <= 9999 /\ 1 <= month t <= 12 /\
  1 <= day t <= days_in_month (year t) (month t) /\
  0 <= hour t < 24 /\ 0 <= minute t < 60 /\ 0 <= second t < 60 /\
  0 <= microsecond t < 1000000.

Definition validb (t : datetime) : bool :=
  between 1 9999 (year t) && between 1 12 (month t)
  && between 1 (days_in_month (year t) (month t)) (day t)
  && between 0 23 (hour t) && between 0 59 (minute t)
  && between 0 59 (second t) && between 0 999999 (microsecond t).

(** [datetime.strptime(s, "%Y-%m-%d %H:%M:%S")] is library code that the
    module only ever applies to the column [strftime_seconds] filled.
    It is an interface here: any reader that gives back the fields of a
    text [strftime_seconds] wrote. [None] is [ValueError]. *)
Class Strptime := {
  strptime : string -> option datetime;
  strptime_strftime :
    forall t, valid t -> strptime (strftime_seconds t) = Some (whole_second t)
}.

Definition two_digits (a b : ascii) : option Z :=
  match digit_value a, digit_value b with
  | Some x, Some y => Some (10 * x + y)
  | _, _ => None
  end.

Definition four_digits (a b c d : ascii) : option Z :=
  match two_digits a b, two_digits c d with
  | Some x, Some y => Some (100 * x + y)
  | _, _ => None
  end.

(** A reader of the nineteen-character layout, field by field, that
    refuses what is not a date of the calendar or a time of day. *)
Definition strptime_layout (s : string) : option datetime :=
  match s with
  | String y1 (String y2 (String y3 (String y4 (String "-"
    (String m1 (String m2 (String "-" (String d1 (String d2 (String " "
    (String h1 (String h2 (String ":" (String n1 (String n2 (String ":"
    (String s1 (String s2 EmptyString)))))))))))))))))) =>
      match four_digits y1 y2 y3 y4, two_digits m1 m2, two_digits d1 d2,
            two_digits h1 h2, two_digits n1 n2, two_digits s1 s2 with
      | Some y, Some m, Some d, Some hh, Some mi, Some ss =>
          let t := mk_datetime y m d hh mi ss 0 in
          if validb t then Some t else None
      | _, _, _, _, _, _ => None
      end
  | _ => None
  end.

End pydatetime.

(** ** SQLite *)

Module sqlite.

(** The id an AUTOINCREMENT key gives a new row: one above the largest
    the table has ever held, which SQLite keeps in [sqlite_sequence], and
    above every id present. *)
Definition next_rowid (largest_ever : Z) (ids : list Z) : Z :=
  1 + Z.max largest_ever (fold_right Z.max 0 ids).

(** What the declaration of a table says, for the statements that read
    and write it: the names [PRAGMA table_info] lists after the key
    [id], the columns declared NOT NULL without a default, and the
    constraints [CHECK (column IN (...))] with the values each allows. *)
Record table_schema := mk_schema {
  sc_columns : list string;
  sc_required : list string;
  sc_checks : list (string * list string)
}.

(** [PRAGMA table_info]: [id INTEGER PRIMARY KEY AUTOINCREMENT] heads
    every declaration the repository has of the tables modelled here. *)
Definition table_info (schema : table_schema) : list string :=
  "id" :: sc_columns schema.

(** The exceptions a statement on such a table raises:
    [OperationalError] for a column the table does not have and for the
    empty column list of [INSERT INTO t () VALUES ()], [IntegrityError]
    for a NOT NULL or a CHECK constraint. *)
Inductive db_error :=
| NoSuchColumn (column : string)
| NoColumnsGiven
| NotNullFailed (column : string)
| CheckFailed (column : string).

(** [str(e)] for such an exception: the text is the library's. *)
Class SqliteText := {
  str_of_error : db_error -> string
}.

End sqlite.

(** ** [modules/auth.py] *)

Module auth.
Import pytext pydatetime sqlite.

(** What a column of the user database holds in a row: the module writes
    BLOBs, legacy rows hold TEXT, and a missing value is NULL. (Numbers,
    which none of the writers of the table stores in these columns, are
    left out.) *)
Inductive sqlval :=
| SqlNull
| SqlText (s : string)
| SqlBlob (b : bytes).

(** Table [users]. *)
Record users_row := mk_user {
  u_id : Z;
  u_email : string;
  u_username : option string;
  u_password_hash : sqlval;
  u_salt : sqlval;
  u_role : option string;
  u_is_active : option Z
}.

(** Table [password_tokens]. *)
Record token_row := mk_token {
  t_id : Z;
  t_user_id : Z;
  t_token : string;
  t_purpose : string;
  t_expires_at : string;
  t_used_at : option string
}.

(** The user database: the two tables and the [sqlite_sequence] entry of
    [password_tokens]. *)
Record user_db := mk_db {
  users : list users_row;
  password_tokens : list token_row;
  password_tokens_seq : Z
}.

(** [hashlib.pbkdf2_hmac("sha256", password, salt, iterations)]: library
    code, known here by the length of its digest. *)
Class Pbkdf2 := {
  pbkdf2_hmac_sha256 : bytes -> bytes -> Z -> bytes;
  pbkdf2_digest_size :
    forall password salt n, length (pbkdf2_hmac_sha256 password salt n) = 32%nat
}.

(** Truth value of an INTEGER column read into Python. *)
Definition truthy (v : option Z) : bool :=
  match v with
  | None => false
  | Some n => negb (n =? 0)
  end.

Definition _to_bytes (v : sqlval) : bytes :=
  match v with
  | SqlNull => []
  | SqlBlob b => b
  | SqlText t =>
      let s := strip t in
      if Nat.even (String.length s) && forall_chars is_hex s then fromhex s
      else utf8 s
  end.

(** The mail the relay is asked to carry, and its answer: [None] when the
    message went out, the text of the exception otherwise. *)
Record email_message := mk_email {
  to_email : string;
  subject : string;
  body : string
}.

Definition mail_relay := email_message -> option string.

Definition nl : string := String (chr 10) EmptyString.

Definition GENERIC_SENT : string :=
  "If the account is registered and active, a confirmation token has been sent.".

(** Which way [check_password] left: the rows of its body in order. *)
Inductive check_path :=
| NoRow
| NotActive
| LegacyPlaintext
| NoCredential
| Compared (same : bool).

Definition path_result (p : check_path) : bool :=
  match p with
  | LegacyPlaintext => true
  | Compared same => same
  | _ => false
  end.

(** [email=?]. *)
Definition email_is (login : string) (u : users_row) : bool :=
  String.eqb (u_email u) login.

(** [username=?]: a NULL username matches nothing. *)
Definition username_is (login : string) (u : users_row) : bool :=
  match u_username u with
  | Some n => String.eqb n login
  | None => false
  end.

(** [WHERE (email=? OR username=?)]. *)
Definition login_matches (login : string) (u : users_row) : bool :=
  email_is login u || username_is login u.

(** [fetchone] on [SELECT ... FROM users WHERE (email=? OR username=?)].
    Every declaration of the table (here, in [db.py], in
    [ui_admin_users.py]) puts UNIQUE on [email] and on [username], and
    SQLite answers the OR of two indexed columns term by term: the rows
    the index on [email] gives, then those the index on [username]
    gives. The first row is the one whose email is the login when there
    is one, and the one whose username is the login otherwise, whatever
    their rowids. *)
Definition select_user (login : string) (us : list users_row) : option users_row :=
  match List.find (email_is login) us with
  | Some u => Some u
  | None => List.find (username_is login) us
  end.

(** [UPDATE users SET password_hash=?, salt=? WHERE id=?]. *)
Definition update_credential (uid : Z) (pwh new_salt : bytes)
    (us : list users_row) : list users_row :=
  List.map (fun u =>
    if u_id u =? uid
    then mk_user (u_id u) (u_email u) (u_username u) (SqlBlob pwh)
                 (SqlBlob new_salt) (u_role u) (u_is_active u)
    else u) us.

(** [salt_b in (b"", b"\x00"*16)]. *)
Definition legacy_salt (salt_b : bytes) : bool :=
  bool_decide (salt_b = []) || bool_decide (salt_b = repeat x00 16).

Section Operations.
Context `{Pbkdf2} `{Strptime}.

Definition _hash_password (password : string) (salt : sqlval) : bytes :=
  let salt_b := _to_bytes salt in
  pbkdf2_hmac_sha256 (utf8 password) salt_b 200000.

(** [set_password]; [None] is the [ValueError]. [salt] is the value of
    [secrets.token_bytes(16)]. *)
Definition set_password (salt : bytes) (db : user_db) (user_id : Z)
    (new_password : string) : option user_db :=
  if str_empty new_password || (String.length new_password <? 8)%nat then None
  else
    let pwh := _hash_password new_password (SqlBlob salt) in
    Some (mk_db (update_credential user_id pwh salt (users db))
                (password_tokens db) (password_tokens_seq db)).

(** [check_password], with the row of its body it returned from.
    [new_salt] is the value [secrets.token_bytes(16)] has when drawn. *)
Definition check_password_path (new_salt : bytes) (db : user_db)
    (login password : string) : check_path * user_db :=
  match select_user login (users db) with
  | None => (NoRow, db)
  | Some row =>
      if negb (truthy (u_is_active row)) then (NotActive, db)
      else
        let stored := _to_bytes (u_password_hash row) in
        let salt_b := _to_bytes (u_salt row) in
        if legacy_salt salt_b && negb (is_empty stored)
           && bool_decide (stored = utf8 password)
        then
          let new_hash := _hash_password password (SqlBlob new_salt) in
          (LegacyPlaintext,
           mk_db (update_credential (u_id row) new_hash new_salt (users db))
                 (password_tokens db) (password_tokens_seq db))
        else if is_empty salt_b || is_empty stored then (NoCredential, db)
        else
          let computed := _hash_password password (SqlBlob salt_b) in
          (Compared (bool_decide (stored = computed)), db)
  end.

Definition check_password (new_salt : bytes) (db : user_db)
    (login password : string) : bool * user_db :=
  let '(p, db') := check_password_path new_salt db login password in
  (path_result p, db').

(** The dictionary [_get_user_by_login] returns. *)
Record user_info := mk_info {
  info_id : Z;
  info_email : string;
  info_username : option string;
  info_is_active : bool
}.

Definition _get_user_by_login (db : user_db) (login : string) : option user_info :=
  match select_user login (users db) with
  | None => None
  | Some row =>
      Some (mk_info (u_id row) (u_email row) (u_username row)
                    (truthy (u_is_active row)))
  end.

(** [_create_token]: [token] is the value of [secrets.token_urlsafe(24)],
    [now] of [datetime.utcnow()]. [None] is the [OverflowError] of the
    date addition. *)
Definition _create_token (token : string) (now : datetime) (db : user_db)
    (user_id : Z) (purpose : string) (minutes_valid : Z)
    : option (string * user_db) :=
  match add_minutes now minutes_valid with
  | None => None
  | Some expiry =>
      let expires_at := strftime_seconds expiry in
      let token_id := next_rowid (password_tokens_seq db)
                                 (List.map t_id (password_tokens db)) in
      let row := mk_token token_id user_id token purpose expires_at None in
      Some (token, mk_db (users db) (password_tokens db ++ [row]) token_id)
  end.

Definition _send_email (relay : mail_relay) (to subj text : string) : option string :=
  relay (mk_email to subj text).

(** [request_password_change]; [None] is an exception that leaves the
    function (the date addition's). *)
Definition request_password_change (token : string) (now : datetime)
    (relay : mail_relay) (db : user_db) (login : string)
    (app_name : string) (link_base_url : option string)
    : option ((bool * string) * user_db) :=
  match _get_user_by_login db login with
  | None => Some ((true, GENERIC_SENT), db)
  | Some user =>
      if negb (info_is_active user) then Some ((true, GENERIC_SENT), db)
      else
        match _create_token token now db (info_id user) "password_change" 15 with
        | None => None
        | Some (tok, db') =>
            let subj := "[" +:+ app_name +:+ "] Confirm password change" in
            let link :=
              match link_base_url with
              | Some base =>
                  if str_empty base then None
                  else Some (rstrip_char "/" base +:+ "/change-password?token=" +:+ tok)
              | None => None
              end in
            let body_lines :=
              [ "Hello,"; "";
                "We received a request to change the password for your "
                  +:+ app_name +:+ " account (" +:+ info_email user +:+ ").";
                ""; "Your confirmation token is:"; "";
                "    " +:+ tok; "";
                "This token will expire in 15 minutes." ]
              ++ match link with
                 | Some l => [""; "Alternatively, click the link below to proceed:"; l]
                 | None => []
                 end
              ++ [""; "If you did not request this change, you can safely ignore this email."] in
            match _send_email relay (info_email user) subj (String.concat nl body_lines) with
            | Some e => Some ((false, "Failed to send token email: " +:+ e), db')
            | None => Some ((true, GENERIC_SENT), db')
            end
        end
  end.

(** [UPDATE password_tokens SET used_at=strftime(...,'now') WHERE id=?]. *)
Definition mark_used (token_id : Z) (stamp : string) (ts : list token_row)
    : list token_row :=
  List.map (fun t =>
    if t_id t =? token_id
    then mk_token (t_id t) (t_user_id t) (t_token t) (t_purpose t)
                  (t_expires_at t) (Some stamp)
    else t) ts.

Definition select_token (token : string) (ts : list token_row) : option token_row :=
  List.find (fun t => String.eqb (t_token t) token) ts.

Definition MSG_REQUIRED : string := "Token and new password are required.".
Definition MSG_NOT_FOUND : string := "Invalid or expired token.".
Definition MSG_WRONG_PURPOSE : string := "Invalid token purpose.".
Definition MSG_ALREADY_USED : string := "This token has already been used.".
Definition MSG_MALFORMED : string := "Token expiry is malformed.".
Definition MSG_EXPIRED : string := "This token has expired.".
Definition MSG_TOO_SHORT : string := "Password must be at least 8 characters.".
Definition MSG_CHANGED : string := "Password changed successfully.".

(** [verify_token_and_change_password]: [salt] is the value of
    [secrets.token_bytes(16)], [now] of [datetime.utcnow()] and of
    SQLite's clock. *)
Definition verify_token_and_change_password (salt : bytes) (now : datetime)
    (db : user_db) (token new_password : string) : (bool * string) * user_db :=
  if str_empty token || str_empty new_password then ((false, MSG_REQUIRED), db)
  else
    match select_token token (password_tokens db) with
    | None => ((false, MSG_NOT_FOUND), db)
    | Some row =>
        if negb (String.eqb (t_purpose row) "password_change")
        then ((false, MSG_WRONG_PURPOSE), db)
        else
          match t_used_at row with
          | Some _ => ((false, MSG_ALREADY_USED), db)
          | None =>
              match strptime (t_expires_at row) with
              | None => ((false, MSG_MALFORMED), db)
              | Some exp_dt =>
                  if gtb now exp_dt then ((false, MSG_EXPIRED), db)
                  else if (String.length new_password <? 8)%nat
                  then ((false, MSG_TOO_SHORT), db)
                  else
                    let pwh := pbkdf2_hmac_sha256 (utf8 new_password) salt 200000 in
                    ((true, MSG_CHANGED),
                     mk_db (update_credential (t_user_id row) pwh salt (users db))
                           (mark_used (t_id row) (strftime_seconds now)
                                      (password_tokens db))
                           (password_tokens_seq db))
              end
          end
    end.

(** UNIQUE on [email] and on [username], for a row about to be inserted:
    a NULL username clashes with nothing. *)
Definition unique_clash (email : string) (username : option string)
    (us : list users_row) : bool :=
  existsb (fun u =>
    String.eqb (u_email u) email
    || match username, u_username u with
       | Some n, Some m => String.eqb m n
       | _, _ => false
       end) us.

(** The WHERE clause of [ensure_user]: [email=? OR username=?] when a
    username is given, [email=?] when it is [None] or empty. *)
Definition ensure_matches (email : string) (username : option string)
    (u : users_row) : bool :=
  match username with
  | Some n =>
      if str_empty n then email_is email u
      else email_is email u || username_is n u
  | None => email_is email u
  end.

(** [fetchone] on the query of [ensure_user]: as for [select_user], the
    row of the email comes before the row of the username. *)
Definition select_ensured (email : string) (username : option string)
    (us : list users_row) : option users_row :=
  match username with
  | Some n =>
      if str_empty n then List.find (email_is email) us
      else
        match List.find (email_is email) us with
        | Some u => Some u
        | None => List.find (username_is n) us
        end
  | None => List.find (email_is email) us
  end.

(** [ensure_user]: [generated] is the value of [secrets.token_urlsafe(10)],
    [salt] of [secrets.token_bytes(16)], [users_seq] the [sqlite_sequence]
    entry of [users]. [None] is [sqlite3.IntegrityError]. *)
Definition ensure_user (generated : string) (salt : bytes) (users_seq : Z)
    (db : user_db) (email : string) (password : option string)
    (username : option string) (role : string) (is_active : bool)
    : option (Z * user_db) :=
  match select_ensured email username (users db) with
  | Some r => Some (u_id r, db)
  | None =>
      let password := match password with Some p => p | None => generated end in
      let pwh := _hash_password password (SqlBlob salt) in
      if unique_clash email username (users db) then None
      else
        let uid := next_rowid users_seq (List.map u_id (users db)) in
        Some (uid,
              mk_db (users db
                     ++ [mk_user uid email username (SqlBlob pwh) (SqlBlob salt)
                                 (Some role) (Some (if is_active then 1 else 0))])
                    (password_tokens db) (password_tokens_seq db))
  end.

End Operations.

End auth.

(** ** [modules/db.py]: the reader of the user table the login uses *)

Module db.
Import pytext auth.

(** The dictionary [get_user_min_by_login] returns. *)
Record user_min := mk_user_min {
  min_id : Z;
  min_email : string;
  min_username : option string;
  min_role : option string;
  min_is_active : bool
}.

Definition get_user_min_by_login (store : user_db) (login : string)
    : option user_min :=
  match select_user login (users store) with
  | None => None
  | Some row =>
      Some (mk_user_min (u_id row) (u_email row) (u_username row) (u_role row)
                        (truthy (u_is_active row)))
  end.

End db.

(** ** [app.py]: sign-in, registration and the forgotten-password form *)

Module app.
Import pytext pydatetime auth db.

(** [st.session_state.user]. *)
Record session_user := mk_session_user {
  s_id : Z;
  s_email : string;
  s_username : option string;
  s_role : option string
}.

Definition LOGIN_EMPTY : string := "Enter your email/username and password.".
Definition LOGIN_REFUSED : string := "Invalid credentials or inactive account.".
Definition LOGIN_PENDING : string :=
  "Account pending approval. Please wait for an admin to activate your access.".

Definition REGISTER_REQUIRED : string := "Username, email, and password are required.".
Definition PASSWORDS_DIFFER : string := "Passwords do not match.".
Definition REGISTER_RECEIVED : string :=
  "Registration received. Awaiting admin approval before you can sign in.".
Definition REGISTER_TAKEN : string :=
  "Email or username already registered. If you forgot your password, use 'Forgot password?'".

(** What a button of the panel shows. *)
Inductive notice :=
| Success (msg : string)
| Warning (msg : string)
| Error (msg : string).

Section Panels.
Context `{Pbkdf2} `{Strptime}.

(** [_do_login]: the session's user and [login_error] after the call,
    and the store. [new_salt] is the salt [check_password] draws.
    [auth.py] opens the user database at its [USER_DB_PATH] and [db.py]
    at its [USER_DB]: [other] is the database [db.py] reads when the two
    paths name different files, [None] when they name one file. *)
Definition _do_login (new_salt : bytes) (store : user_db) (other : option user_db)
    (user : option session_user) (login_error : string)
    (login_id password : string)
    : (option session_user * string) * user_db :=
  if str_empty login_id || str_empty password then ((user, LOGIN_EMPTY), store)
  else
    let '(ok, store) := check_password new_salt store login_id password in
    if negb ok then ((user, LOGIN_REFUSED), store)
    else
      match get_user_min_by_login (default store other) login_id with
      | None => ((user, LOGIN_PENDING), store)
      | Some row =>
          if negb (min_is_active row) then ((user, LOGIN_PENDING), store)
          else
            ((Some (mk_session_user (min_id row) (min_email row) (min_username row)
                                    (min_role row)), ""), store)
      end.

(** The Register button of [_login_register_panel]. *)
Definition register (generated : string) (salt : bytes) (users_seq : Z)
    (store : user_db) (r_username r_email r_pwd1 r_pwd2 : string)
    : notice * user_db :=
  if str_empty r_email || str_empty r_pwd1 || str_empty r_username
  then (Error REGISTER_REQUIRED, store)
  else if negb (String.eqb r_pwd1 r_pwd2) then (Error PASSWORDS_DIFFER, store)
  else if (String.length r_pwd1 <? 8)%nat then (Error MSG_TOO_SHORT, store)
  else
    match ensure_user generated salt users_seq store r_email (Some r_pwd1)
                      (Some r_username) "User" false with
    | Some (_, store') => (Success REGISTER_RECEIVED, store')
    | None => (Warning REGISTER_TAKEN, store)
    end.

(** The Change Password button of the forgotten-password form, which
    [ui_change_password.render] repeats. *)
Definition change_password (salt : bytes) (now : datetime) (store : user_db)
    (fp_token fp_new fp_new2 : string) : notice * user_db :=
  if negb (String.eqb fp_new fp_new2) then (Error PASSWORDS_DIFFER, store)
  else if (String.length fp_new <? 8)%nat then (Error MSG_TOO_SHORT, store)
  else
    let '((ok, msg), store') :=
      verify_token_and_change_password salt now store fp_token fp_new in
    if ok then (Success msg, store') else (Error msg, store').

End Panels.

End app.

(** ** [modules/ui_sales_invoicing.py]: its declaration of table [sales] *)

Module ui_sales_invoicing.
Import sqlite.

(** Table [sales] as [_init_db] creates it, in the application database
    the import writes to ([TAKEOUT_DB_PATH], else [app.db], in both
    modules): no [receipt_number], an invoice number that is NOT NULL,
    and a CHECK on the status and on the vendor. *)
Definition sales_declared : table_schema :=
  mk_schema
    ["created_at"; "invoice_date"; "invoice_no"; "customer"; "email";
     "shipping_method"; "branch_location"; "financial_status"; "discount_code";
     "discount_amount"; "billing_name"; "billing_street"; "billing_address1";
     "billing_address2"; "billing_city"; "billing_zip"; "billing_phone";
     "payment_method"; "vendor"; "payment_id"; "payment_reference"; "subtotal";
     "total"; "notes"]
    ["invoice_no"]
    [("financial_status", ["Pending"; "Paid"; "Voided"]);
     ("vendor", ["Takeout Store"; "Lola Tindeng"; "Swiss Proli"])].

End ui_sales_invoicing.

(** ** [modules/ui_settings_import.py] *)

Module ui_settings_import.
Import pytext pydatetime sqlite.

(** Python's [float] and the conversions the module asks of it: platform
    code, taken as an interface. [float_of_str] is [float(s)] on a text,
    [None] its [ValueError]; [feqb] and [fgtb] are [==] and [>];
    equality of the carrier is sameness of value, as pandas' duplicate
    test sees it. *)
Class PyFloat := {
  pyfloat : Type;
  pyfloat_eq_dec :: EqDecision pyfloat;
  fzero : pyfloat;
  fadd : pyfloat -> pyfloat -> pyfloat;
  fsub : pyfloat -> pyfloat -> pyfloat;
  fmul : pyfloat -> pyfloat -> pyfloat;
  feqb : pyfloat -> pyfloat -> bool;
  fgtb : pyfloat -> pyfloat -> bool;
  fisnan : pyfloat -> bool;
  float_of_str : string -> option pyfloat;
  float_of_Z : Z -> pyfloat;
  str_of_float : pyfloat -> string
}.

(** Settings read from the environment when the module is loaded. *)
Record settings := mk_settings {
  DOC_PREFIX : string;
  DOC_PAD : Z
}.

Definition default_settings : settings := mk_settings "INV" 4.

Definition ALLOWED_STATUS : list string := ["Pending"; "Paid"; "Voided"].

Definition STATUS_MAP : list (string * string) :=
  [ ("unpaid", "Pending"); ("new", "Pending"); ("open", "Pending");
    ("partially paid", "Pending"); ("partial", "Pending");
    ("awaiting payment", "Pending"); ("due", "Pending");
    ("cancelled", "Voided"); ("canceled", "Voided"); ("void", "Voided");
    ("voided", "Voided"); ("closed - void", "Voided");
    ("complete", "Paid"); ("completed", "Paid"); ("done", "Paid");
    ("paid/closed", "Paid"); ("settled", "Paid") ].

Definition ALLOWED_VENDORS : list string :=
  ["Takeout Store"; "Lola Tindeng"; "Swiss Proli"].

Definition VENDOR_MAP : list (string * string) :=
  [ ("takeout store", "Takeout Store"); ("lola tindeng", "Lola Tindeng");
    ("swiss proli", "Swiss Proli"); ("swiss proli.", "Swiss Proli");
    ("swiss-proli", "Swiss Proli"); ("swissproli", "Swiss Proli");
    ("swiss prolife", "Swiss Proli");
    ("takeoutstore", "Takeout Store"); ("takeoutstoreph", "Takeout Store");
    ("takeout-store", "Takeout Store"); ("takeout store ph", "Takeout Store");
    ("takeoutstore-ph", "Takeout Store") ].

(** [k in d] and [d[k]] on a dictionary literal. *)
Fixpoint dict_get (k : string) (d : list (string * string)) : option string :=
  match d with
  | [] => None
  | (k', v) :: rest => if String.eqb k' k then Some v else dict_get k rest
  end.

(** [x in s] on a set literal of texts. *)
Definition elem (x : string) (s : list string) : bool :=
  existsb (String.eqb x) s.

(** [s == "" or s.lower() in {"nan","none","null"}]. *)
Definition is_missing_word (s : string) : bool :=
  String.eqb s "" || elem (lower s) ["nan"; "none"; "null"].

Definition _clean_status (x : option string) : string :=
  match x with
  | None => "Pending"
  | Some v =>
      let s := strip v in
      if is_missing_word s then "Pending"
      else
        let low := lower s in
        match dict_get low STATUS_MAP with
        | Some mapped => mapped
        | None => strip (title s)
        end
  end.

Definition _clean_invoice_no (x : string) : string :=
  let s := strip x in
  let s := if endswith ".0" s then drop_last 2 s else s in
  remove_chars isspace s.

Definition is_lower_alnum (c : ascii) : bool :=
  between 97 122 (ord c) || between 48 57 (ord c).

Definition _clean_vendor (x : string) : string :=
  let s := strip x in
  if is_missing_word s then ""
  else
    let low := strip (lower s) in
    match dict_get low VENDOR_MAP with
    | Some mapped => mapped
    | None =>
        let alnum := remove_chars (fun c => negb (is_lower_alnum c)) low in
        if startswith "takeout" alnum then "Takeout Store"
        else if contains "lola" alnum && contains "tindeng" alnum then "Lola Tindeng"
        else if contains "swiss" alnum && contains "proli" alnum then "Swiss Proli"
        else strip (title s)
    end.

Definition COLMAP : list (string * string) :=
  [ ("Name", "invoice_no"); ("Email", "email");
    ("Financial Status", "financial_status"); ("Paid at", "paid_at");
    ("Fulfillment Status", "fulfillment_status"); ("Fulfilled at", "fulfilled_at");
    ("Accepts Marketing", "accepts_marketing"); ("Currency", "currency");
    ("Subtotal", "subtotal"); ("Shipping", "shipping_cost"); ("Taxes", "taxes");
    ("Total", "total"); ("Discount Code", "discount_code");
    ("Discount Amount", "discount_amount"); ("Shipping Method", "shipping_method");
    ("Created at", "invoice_date"); ("Billing Name", "billing_name");
    ("Billing Street", "billing_street"); ("Billing Address1", "billing_address1");
    ("Billing Address2", "billing_address2"); ("Billing Company", "billing_company");
    ("Billing City", "billing_city"); ("Billing Zip", "billing_zip");
    ("Billing Province", "billing_province"); ("Billing Country", "billing_country");
    ("Billing Phone", "billing_phone"); ("Shipping Name", "shipping_name");
    ("Shipping Street", "shipping_street"); ("Shipping Address1", "shipping_address1");
    ("Shipping Address2", "shipping_address2"); ("Shipping Company", "shipping_company");
    ("Shipping City", "shipping_city"); ("Shipping Zip", "shipping_zip");
    ("Shipping Province", "shipping_province"); ("Shipping Country", "shipping_country");
    ("Shipping Phone", "shipping_phone"); ("Notes", "notes");
    ("Cancelled at", "cancelled_at"); ("Payment Method", "payment_method");
    ("Payment Reference", "payment_reference"); ("Refunded Amount", "refunded_amount");
    ("Vendor", "vendor"); ("Outstanding Balance", "outstanding_balance");
    ("Employee", "employee"); ("Location", "location"); ("Device ID", "device_id");
    ("Id", "external_id"); ("Tags", "tags"); ("Risk Level", "risk_level");
    ("Source", "source"); ("Phone", "billing_phone");
    ("Receipt Number", "receipt_number"); ("Duties", "duties");
    ("Billing Province Name", "billing_province_name");
    ("Shipping Province Name", "shipping_province_name");
    ("Payment ID", "payment_id"); ("Payment Terms Name", "payment_terms_name");
    ("Next Payment Due At", "next_payment_due_at");
    ("Payment References", "payment_reference") ].

(** The destination fields read as money. *)
Definition MONEY_FIELDS : list string :=
  ["discount_amount"; "subtotal"; "shipping_cost"; "taxes"; "total";
   "refunded_amount"; "outstanding_balance"; "duties"].

(** Table [sales] as [_ensure_schema] creates it: the only declaration
    of the table with a [receipt_number], and one without NOT NULL
    columns to fill and without CHECK. *)
Definition sales_declared : table_schema :=
  mk_schema
    ["created_at"; "invoice_date"; "invoice_no"; "customer"; "email";
     "shipping_method"; "branch_location"; "financial_status"; "discount_code";
     "discount_amount"; "billing_name"; "billing_street"; "billing_address1";
     "billing_address2"; "billing_city"; "billing_zip"; "billing_phone";
     "payment_method"; "vendor"; "payment_id"; "payment_reference"; "subtotal";
     "total"; "notes"; "currency"; "shipping_cost"; "taxes"; "paid_at";
     "fulfilled_at"; "fulfillment_status"; "accepts_marketing"; "shipping_name";
     "shipping_street"; "shipping_address1"; "shipping_address2"; "shipping_city";
     "shipping_zip"; "shipping_phone"; "billing_company"; "billing_province";
     "billing_country"; "shipping_company"; "shipping_province"; "shipping_country";
     "cancelled_at"; "refunded_amount"; "outstanding_balance"; "employee";
     "location"; "device_id"; "tags"; "risk_level"; "source"; "receipt_number";
     "duties"; "billing_province_name"; "shipping_province_name";
     "payment_terms_name"; "next_payment_due_at"; "extra_json"]
    [] [].

(** The first of the columns a statement names that the table does not
    have. *)
Definition missing_column (named : list string) (schema : table_schema)
    : option string :=
  List.find (fun c => negb (elem c (table_info schema))) named.

Section WithFloat.
Context `{PyFloat} `{SqliteText}.

(** A cell of the sheet as pandas hands it over: Python's [None], the
    missing value of an empty cell, a text, a truth value, an integer, a
    float, or another object that [float] refuses (a timestamp), known by
    its [str]. *)
Inductive cell :=
| CNone
| CNaN
| CStr (s : string)
| CBool (b : bool)
| CInt (n : Z)
| CFloat (x : pyfloat)
| CObj (repr : string).

#[export] Instance cell_eq_dec : EqDecision cell.
Proof. solve_decision. Defined.

(** A row of the sheet, by column name. *)
Definition row := gmap string cell.

(** [row.get(column)]. *)
Definition row_get (r : gmap string cell) (column : string) : cell :=
  match r !! column with
  | Some c => c
  | None => CNone
  end.

(** [pd.isna(x)]. *)
Definition isna (x : cell) : bool :=
  match x with
  | CNone | CNaN => true
  | CFloat v => fisnan v
  | _ => false
  end.

(** [str(x)]. *)
Definition cell_str (x : cell) : string :=
  match x with
  | CNone => "None"
  | CNaN => "nan"
  | CStr s => s
  | CBool b => if b then "True" else "False"
  | CInt n => str_of_Z n
  | CFloat v => str_of_float v
  | CObj repr => repr
  end.

(** Truth value of a cell, for [a or b]. *)
Definition cell_truthy (x : cell) : bool :=
  match x with
  | CNone => false
  | CNaN => true
  | CStr s => negb (String.eqb s "")
  | CBool b => b
  | CInt n => negb (n =? 0)
  | CFloat v => negb (feqb v fzero)
  | CObj _ => true
  end.

(** [a or b]. *)
Definition cell_or (a b : cell) : cell := if cell_truthy a then a else b.

Definition is_comma (c : ascii) : bool := Ascii.eqb c ",".

(** [_f]: every failure of [float] ends in [0.0]. *)
Definition _f (x : cell) : pyfloat :=
  match x with
  | CNone | CNaN => fzero
  | CStr s =>
      match float_of_str (strip (remove_chars is_comma s)) with
      | Some v => v
      | None => fzero
      end
  | CBool b => float_of_Z (if b then 1 else 0)
  | CInt n => float_of_Z n
  | CFloat v => if fisnan v then fzero else v
  | CObj _ => fzero
  end.

Definition _s (x : cell) : string :=
  if isna x then "" else strip (cell_str x).

(** A value of the header dictionary. *)
Inductive hval :=
| HStr (s : string)
| HNum (x : pyfloat).

#[export] Instance hval_eq_dec : EqDecision hval.
Proof. solve_decision. Defined.

Definition hval_str (v : hval) : string :=
  match v with
  | HStr s => s
  | HNum x => str_of_float x
  end.

(** [not v] for a value looked up with [header.get]. *)
Definition hval_falsy (v : option hval) : bool :=
  match v with
  | None => true
  | Some (HStr s) => String.eqb s ""
  | Some (HNum x) => feqb x fzero
  end.

Definition hval_num (v : option hval) (default : pyfloat) : pyfloat :=
  match v with
  | Some (HNum x) => x
  | _ => default
  end.

Definition hval_text (v : option hval) (default : string) : string :=
  match v with
  | Some w => hval_str w
  | None => default
  end.

Record item := mk_item {
  product_code : string;
  product_name : string;
  unit : string;
  quantity : pyfloat;
  price : pyfloat;
  total_amount : pyfloat
}.

(** The key [_aggregate_items] buckets by, compared as dictionary keys
    are: texts by equality, the price by [==]. *)
Definition same_key (a b : item) : bool :=
  String.eqb (product_code a) (product_code b)
  && String.eqb (product_name a) (product_name b)
  && feqb (price a) (price b)
  && String.eqb (unit a) (unit b).

(** One step of the bucket loop. A bucket is kept with the item that
    opened it, whose key later items are compared with; its line takes
    the quantity and the total of each item of the key, and the key
    fields of the latest one. *)
Fixpoint bucket_add (it : item) (buckets : list (item * item))
    : list (item * item) :=
  match buckets with
  | [] =>
      [(it, mk_item (product_code it) (product_name it) (unit it)
                    (fadd fzero (quantity it)) (price it)
                    (fadd fzero (total_amount it)))]
  | (opener, line) :: rest =>
      if same_key opener it
      then (opener,
            mk_item (product_code it) (product_name it) (unit it)
                    (fadd (quantity line) (quantity it)) (price it)
                    (fadd (total_amount line) (total_amount it))) :: rest
      else (opener, line) :: bucket_add it rest
  end.

Definition _aggregate_items (items : list item) : list item :=
  List.map snd (fold_left (fun buckets it => bucket_add it buckets) items []).

(** The body of the loop over the rows of a group. *)
Definition add_line_item (items : list item) (r : gmap string cell) : list item :=
  let qty := _f (row_get r "Lineitem quantity") in
  if feqb qty fzero && isna (row_get r "Lineitem name") then items
  else
    let p := _f (row_get r "Lineitem price") in
    items ++ [mk_item (_s (row_get r "Lineitem sku"))
                      (_s (row_get r "Lineitem name")) ""
                      qty p (fmul qty p)].

(** The loop over [COLMAP]. *)
Definition map_columns (first : gmap string cell) : gmap string hval :=
  fold_left (fun (header : gmap string hval) '(src, dst) =>
    match first !! src with
    | Some c =>
        if elem dst MONEY_FIELDS then <[dst := HNum (_f c)]> header
        else <[dst := HStr (_s c)]> header
    | None => header
    end) COLMAP ∅.

(** [header.setdefault(k, v)]. *)
Definition setdefault (k : string) (v : hval) (header : gmap string hval)
    : gmap string hval :=
  match header !! k with
  | Some _ => header
  | None => <[k := v]> header
  end.

(** [max(a, 0.0)]. *)
Definition fmax0 (a : pyfloat) : pyfloat := if fgtb fzero a then fzero else a.

(** [_header_from_group]; [None] is the [IndexError] of [g.iloc[0]] on a
    group without rows. *)
Definition _header_from_group (g : list (gmap string cell)) (combine_items : bool)
    : option (gmap string hval * list item) :=
  match g with
  | [] => None
  | first :: _ =>
      let header := map_columns first in
      let raw_name := cell_or (row_get first "Name")
                        (cell_or (row_get first "Id") (CStr "")) in
      let header := setdefault "invoice_no" (HStr (_s raw_name)) header in
      let header :=
        <["invoice_no" := HStr (_clean_invoice_no
                                  (hval_text (header !! "invoice_no") ""))]> header in
      let header :=
        setdefault "customer"
          (HStr (_s (cell_or (row_get first "Shipping Name")
                       (cell_or (row_get first "Billing Name")
                          (cell_or (row_get first "Name") (CStr ""))))))
          header in
      let header :=
        match header !! "invoice_date" with
        | Some v => <["invoice_date" := HStr (before_space (strip (hval_str v)))]> header
        | None => header
        end in
      let header :=
        <["financial_status" :=
            HStr (_clean_status (Some (hval_text (header !! "financial_status")
                                                 "Pending")))]> header in
      let header :=
        <["vendor" :=
            HStr (_clean_vendor
                    (hval_text (header !! "vendor")
                       (match first !! "Vendor" with
                        | Some c => cell_str c
                        | None => ""
                        end)))]> header in
      let items := fold_left add_line_item g [] in
      let items :=
        if combine_items && negb (is_empty items) then _aggregate_items items
        else items in
      let header :=
        if hval_falsy (header !! "subtotal")
        then <["subtotal" := HNum (fold_left fadd (List.map total_amount items) fzero)]>
               header
        else header in
      let header :=
        if hval_falsy (header !! "discount_amount")
        then <["discount_amount" := HNum (_f (row_get first "Lineitem discount"))]>
               header
        else header in
      let header :=
        if hval_falsy (header !! "total")
        then <["total" := HNum (fmax0 (fsub (hval_num (header !! "subtotal") fzero)
                                            (hval_num (header !! "discount_amount")
                                                      fzero)))]> header
        else header in
      Some (header, items)
  end.

(** Table [sales]: the key and the columns a row has a value in (a
    column without one is NULL; [created_at], which SQLite fills from its
    own clock and nothing here reads, is left out). *)
Record sales_row := mk_sale {
  sale_id : Z;
  sale_fields : gmap string hval
}.

(** Table [sales_items]. *)
Record sales_item_row := mk_sale_item {
  si_id : Z;
  si_sale_id : Z;
  si_line_no : Z;
  si_product_code : string;
  si_product_name : string;
  si_unit : string;
  si_quantity : pyfloat;
  si_price : pyfloat;
  si_total_amount : pyfloat
}.

(** The application database once [_ensure_schema] has run on it, as it
    has when the loop of [render] starts: table [sales] as whoever
    created it declared it, the two tables each with its
    [sqlite_sequence] entry, and table [sequences], a value by name. *)
Record app_db := mk_app_db {
  sales_schema : table_schema;
  sales : list sales_row;
  sales_seq : Z;
  sales_items : list sales_item_row;
  sales_items_seq : Z;
  sequences : gmap string Z
}.

(** [_next_doc_no(conn, when)]: [utcnow] is the value of
    [datetime.utcnow()], read when [when] is not given. *)
Definition _next_doc_no (cfg : settings) (utcnow : datetime) (db : app_db)
    (when : option datetime) : string * app_db :=
  let when := match when with Some t => t | None => utcnow end in
  let yyyymm := strftime_month when in
  let seq_name := DOC_PREFIX cfg +:+ "-" +:+ yyyymm in
  let seq :=
    match sequences db !! seq_name with
    | None => 1
    | Some v => v + 1
    end in
  (DOC_PREFIX cfg +:+ "-" +:+ yyyymm +:+ "-" +:+ zfill (DOC_PAD cfg) (str_of_Z seq),
   mk_app_db (sales_schema db) (sales db) (sales_seq db) (sales_items db)
             (sales_items_seq db) (<[seq_name := seq]> (sequences db))).

(** The [details] of an audit entry, before [json.dumps]. *)
Inductive audit_details :=
| ReasonDetail (reason : string)
| SaleIdDetail (sale : Z)
| ErrorDetail (error : string).

(** Table [audit_log] of the audit database, the file of this module's
    own [AUDIT_DB_PATH], as [_ensure_audit_schema] creates it. *)
Record audit_row := mk_audit {
  a_module : string;
  a_action : string;
  a_invoice_no : string;
  a_document_no : option hval;
  a_user : option string;
  a_public_ip : string;
  a_details : audit_details
}.

Definition _audit_log (log : list audit_row) (action invoice_no : string)
    (document_no : option hval) (user : option string) (public_ip : string)
    (details : audit_details) : list audit_row :=
  let who :=
    match user with
    | Some u => if str_empty u then None else Some u
    | None => None
    end in
  log ++ [mk_audit "settings_import" action invoice_no document_no who public_ip
                   details].

(** [_ensure_schema]: [CREATE TABLE IF NOT EXISTS] leaves a table that
    exists as it is, whoever declared it, and on a file without tables
    ([None]) creates them, [sales] as declared above. *)
Definition _ensure_schema (file : option app_db) : app_db :=
  match file with
  | Some db => db
  | None => mk_app_db sales_declared [] 0 [] 0 ∅
  end.

(** The rows [WHERE invoice_no = ?] selects, first one first. *)
Definition select_sale (inv : hval) (rows : list sales_row) : option sales_row :=
  List.find (fun r => bool_decide (sale_fields r !! "invoice_no" = Some inv)) rows.

(** [{k: v for k, v in header.items() if k in cols}], [cols] the names
    [PRAGMA table_info(sales)] lists. *)
Definition clean_header (cols : list string) (header : gmap string hval)
    : gmap string hval :=
  filter (fun kv => elem kv.1 cols = true) header.

(** The rows of [sales_items] for the items of a sale, numbered from one. *)
Fixpoint item_rows (first_id sid line : Z) (items : list item)
    : list sales_item_row :=
  match items with
  | [] => []
  | it :: rest =>
      mk_sale_item first_id sid line (product_code it) (product_name it) (unit it)
                   (quantity it) (price it) (total_amount it)
      :: item_rows (first_id + 1) sid (line + 1) rest
  end.

(** A value written to a column under [CHECK (column IN (...))]: a text
    passes when it is one of the values; a number, which the column
    keeps as its text, is none of the names the declarations list. *)
Definition check_refuses (fields : gmap string hval) (ck : string * list string)
    : bool :=
  match fields !! ck.1 with
  | Some (HStr s) => negb (elem s ck.2)
  | Some (HNum _) => true
  | None => false
  end.

(** The exception the UPDATE (a row was found) or the INSERT (none was)
    of [_save_order] raises, if any. The values written are never NULL,
    and the upsert by invoice number cannot break UNIQUE: an INSERT
    fails on an empty column list or on a NOT NULL column it leaves
    out, and both statements on a CHECK. *)
Definition refused (schema : table_schema) (fields : gmap string hval)
    (found : option sales_row) : option db_error :=
  let by_check :=
    match List.find (check_refuses fields) (sc_checks schema) with
    | Some ck => Some (CheckFailed ck.1)
    | None => None
    end in
  match found with
  | Some _ => by_check
  | None =>
      if bool_decide (fields = ∅) then Some NoColumnsGiven
      else
        match List.find (fun c => bool_decide (fields !! c = None))
                        (sc_required schema) with
        | Some c => Some (NotNullFailed c)
        | None => by_check
        end
  end.

(** [_save_order]: the id of the sale, or the exception that leaves the
    function, and the database after the call. The call of
    [_ensure_schema] changes nothing here; what the [with conn:] block
    did before an exception is rolled back. *)
Definition _save_order (db : app_db) (header : gmap string hval)
    (items : list item) : (db_error + Z) * app_db :=
  let schema := sales_schema db in
  let fields := clean_header (table_info schema) header in
  match missing_column ["invoice_no"] schema with
  | Some c => (inl (NoSuchColumn c), db)
  | None =>
      let found :=
        match fields !! "invoice_no" with
        | Some inv => select_sale inv (sales db)
        | None => None
        end in
      match refused schema fields found with
      | Some e => (inl e, db)
      | None =>
          let '(sid, sales', sales_seq', kept_items) :=
            match found with
            | Some r =>
                let sid := sale_id r in
                (sid,
                 List.map (fun s => if sale_id s =? sid
                                    then mk_sale (sale_id s) (fields ∪ sale_fields s)
                                    else s) (sales db),
                 sales_seq db,
                 List.filter (fun i => negb (si_sale_id i =? sid)) (sales_items db))
            | None =>
                let sid := next_rowid (sales_seq db) (List.map sale_id (sales db)) in
                (sid, sales db ++ [mk_sale sid fields], sid, sales_items db)
            end in
          let first_id :=
            next_rowid (sales_items_seq db) (List.map si_id kept_items) in
          pair (inr sid)
            (mk_app_db schema sales' sales_seq'
               (kept_items ++ item_rows first_id sid 1 items)
               (if is_empty items then sales_items_seq db
                else first_id + Z.of_nat (length items) - 1)
               (sequences db))
      end
  end.

(** The connections and the counters of one run. *)
Record world := mk_world {
  conn : app_db;
  audit_log : list audit_row
}.

Record summary := mk_summary {
  imported : Z;
  updated : Z;
  skipped : Z;
  issues : list (string * string)
}.

Definition skip (w : world) (n : summary) (gkey action invoice_no msg : string)
    (details : audit_details) (user : option string) (public_ip : string)
    : world * summary :=
  (mk_world (conn w)
            (_audit_log (audit_log w) action invoice_no None user public_ip details),
   mk_summary (imported n) (updated n) (skipped n + 1) (issues n ++ [(gkey, msg)])).

(** The handler of the [try], for an exception of the database: the
    group counts as skipped, the text of the exception goes to the
    issues and to the audit log. [db] is the database as the statements
    before the failing one left it. *)
Definition failed (w : world) (db : app_db) (n : summary) (gkey : cell)
    (e : db_error) (user : option string) (public_ip : string)
    : world * summary :=
  let msg := str_of_error e in
  skip (mk_world db (audit_log w)) n (cell_str gkey) "error" (cell_str gkey) msg
       (ErrorDetail msg) user public_ip.

(** [SELECT id, receipt_number FROM sales WHERE invoice_no=?] and its
    [fetchone]: the columns of the result are resolved before the one of
    the WHERE clause. *)
Definition select_receipt (db : app_db) (inv : hval) : db_error + option sales_row :=
  match missing_column ["id"; "receipt_number"; "invoice_no"] (sales_schema db) with
  | Some c => inl (NoSuchColumn c)
  | None => inr (select_sale inv (sales db))
  end.

(** The body of the loop over the groups. [utcnow] is the clock's value
    during this turn. The handler of the [try] is met by the
    [IndexError] of a group without rows and by the exceptions of the
    database; a document number drawn before such an exception stays
    drawn, [_next_doc_no] having committed it. *)
Definition import_group (cfg : settings) (public_ip : string)
    (user : option string) (combine_items : bool) (utcnow : datetime)
    (w : world) (n : summary) (gkey : cell) (sub : list (gmap string cell))
    : world * summary :=
  match _header_from_group sub combine_items with
  | None =>
      let msg := "single positional indexer is out-of-bounds" in
      skip w n (cell_str gkey) "error" (cell_str gkey) msg (ErrorDetail msg)
           user public_ip
  | Some (header, items) =>
      let status := hval_text (header !! "financial_status") "" in
      if negb (elem status ALLOWED_STATUS) then
        let msg := "Invalid financial_status '" +:+ status +:+ "' after normalization" in
        skip w n (cell_str gkey) "skip_invalid_status"
             (hval_text (header !! "invoice_no") "") msg (ReasonDetail msg)
             user public_ip
      else
        let vendor := hval_text (header !! "vendor") "" in
        if negb (elem vendor ALLOWED_VENDORS) then
          let msg := "Invalid vendor '" +:+ vendor +:+ "' after normalization" in
          skip w n (cell_str gkey) "skip_invalid_vendor"
               (hval_text (header !! "invoice_no") "") msg (ReasonDetail msg)
               user public_ip
        else
          let missing :=
            let msg := "Missing invoice_no after normalization" in
            skip w n (cell_str gkey) "skip_missing_invoice_no" "" msg
                 (ReasonDetail msg) user public_ip in
          match header !! "invoice_no" with
          | None => missing
          | Some inv =>
              if hval_falsy (Some inv) then missing
              else
                let '(header, db) :=
                  if hval_falsy (header !! "receipt_number") then
                    let '(doc_no, db) := _next_doc_no cfg utcnow (conn w) None in
                    (<["receipt_number" := HStr doc_no]> header, db)
                  else (header, conn w) in
                match select_receipt db inv with
                | inl e => failed w db n gkey e user public_ip
                | inr found =>
                    let header :=
                      match found with
                      | Some r =>
                          match sale_fields r !! "receipt_number" with
                          | Some v =>
                              if hval_falsy (Some v) then header
                              else <["receipt_number" := v]> header
                          | None => header
                          end
                      | None => header
                      end in
                    match _save_order db header items with
                    | (inl e, db) => failed w db n gkey e user public_ip
                    | (inr sale, db) =>
                        let log action :=
                          _audit_log (audit_log w) action (hval_str inv)
                                     (header !! "receipt_number") user public_ip
                                     (SaleIdDetail sale) in
                        match found with
                        | Some _ =>
                            (mk_world db (log "update"),
                             mk_summary (imported n) (updated n + 1) (skipped n)
                                        (issues n))
                        | None =>
                            (mk_world db (log "insert"),
                             mk_summary (imported n + 1) (updated n) (skipped n)
                                        (issues n))
                        end
                    end
                end
          end
  end.

(** The loop: the groups in turn, the clock read at each turn. *)
Fixpoint import_groups (cfg : settings) (public_ip : string)
    (user : option string) (combine_items : bool) (utcnow : nat -> datetime)
    (turn : nat) (w : world) (n : summary)
    (groups : list (cell * list (gmap string cell))) : world * summary :=
  match groups with
  | [] => (w, n)
  | (gkey, sub) :: rest =>
      let '(w', n') :=
        import_group cfg public_ip user combine_items (utcnow turn) w n gkey sub in
      import_groups cfg public_ip user combine_items utcnow (S turn) w' n' rest
  end.

(** The sheet as [read_excel] returns it, its column names stripped. *)
Record dataframe := mk_dataframe {
  columns : list string;
  rows : list (gmap string cell)
}.

(** [df.dropna(how="all")]. *)
Definition dropna_all (rs : list (gmap string cell)) : list (gmap string cell) :=
  List.filter (fun r => negb (bool_decide (map_Forall (fun _ c => isna c = true) r))) rs.

(** [drop_duplicates()]: the first of equal rows stays. *)
Fixpoint drop_duplicates_from (seen rs : list (gmap string cell))
    : list (gmap string cell) :=
  match rs with
  | [] => []
  | r :: rest =>
      if bool_decide (r ∈ seen) then drop_duplicates_from seen rest
      else r :: drop_duplicates_from (r :: seen) rest
  end.

Definition drop_duplicates (rs : list (gmap string cell)) : list (gmap string cell) :=
  drop_duplicates_from [] rs.

(** The distinct values of a list, in order of first appearance. *)
Fixpoint distinct_from (seen l : list cell) : list cell :=
  match l with
  | [] => []
  | k :: rest =>
      if bool_decide (k ∈ seen) then distinct_from seen rest
      else k :: distinct_from (k :: seen) rest
  end.

(** [df.groupby(key, dropna=False)]: one group per value of the key
    column, each with its rows in the order of the sheet. The order in
    which pandas hands out the groups (it sorts the keys) is [key_order],
    about which nothing is assumed. *)
Definition groupby (key_order : list cell -> list cell) (key : string)
    (rs : list (gmap string cell)) : list (cell * list (gmap string cell)) :=
  List.map (fun k => (k, List.filter (fun r => bool_decide (row_get r key = k)) rs))
           (key_order (distinct_from [] (List.map (fun r => row_get r key) rs))).

Definition no_summary : summary := mk_summary 0 0 0 [].

(** [render] from the uploaded sheet to the counts, once the import
    button is pressed and the connections are open, their schemas
    ensured; [None] is the [KeyError] of grouping by a column the sheet
    does not have. The widgets and the previews are left out. *)
Definition render (cfg : settings) (key_order : list cell -> list cell)
    (utcnow : nat -> datetime) (public_ip : string) (user : option string)
    (combine_items : bool) (w : world) (df : dataframe)
    : option (world * summary) :=
  let rs := drop_duplicates (dropna_all (rows df)) in
  let group_key := if elem "Id" (columns df) then "Id" else "Name" in
  if negb (elem group_key (columns df)) then None
  else
    Some (import_groups cfg public_ip user combine_items utcnow 0 w no_summary
            (groupby key_order group_key rs)).

End WithFloat.

End ui_settings_import.

(** * Properties *)

(** ** The clock's texts *)

Section DatetimeFacts.
Import pytext pydatetime.

Lemma digit_value_digit n : 0 <= n < 10 -> digit_value (digit n) = Some n.
Proof.
  intros Hn. replace n with (Z.of_nat (Z.to_nat n)) by lia.
  assert (Z.to_nat n < 10)%nat as Hk by lia.
  revert Hk. generalize (Z.to_nat n) as k. clear.
  intros k Hk. do 10 (destruct k as [| k]; [reflexivity |]). lia.
Qed.

Lemma digit_mod n : digit n = digit (n mod 10).
Proof. unfold digit. now rewrite Z.mod_mod. Qed.

Lemma two_digits_mod n :
  0 <= n -> two_digits (digit (n / 10)) (digit n) = Some (n mod 100).
Proof.
  intros Hn. unfold two_digits.
  rewrite (digit_mod n), (digit_mod (n / 10)).
  rewrite !digit_value_digit by (apply Z.mod_pos_bound; lia).
  f_equal. Z.div_mod_to_equations. lia.
Qed.

Lemma two_digits_pad n :
  0 <= n < 100 -> two_digits (digit (n / 10)) (digit n) = Some n.
Proof.
  intros Hn. rewrite two_digits_mod by lia. f_equal. apply Z.mod_small. lia.
Qed.

Lemma four_digits_pad n :
  0 <= n < 10000 ->
  four_digits (digit (n / 1000)) (digit (n / 100)) (digit (n / 10)) (digit n) = Some n.
Proof.
  intros Hn. unfold four_digits.
  replace (n / 1000) with (n / 100 / 10) by (rewrite Z.div_div by lia; reflexivity).
  rewrite (two_digits_pad (n / 100)) by (Z.div_mod_to_equations; lia).
  rewrite two_digits_mod by lia.
  f_equal. Z.div_mod_to_equations. lia.
Qed.

Lemma between_true lo hi n : between lo hi n = true <-> lo <= n <= hi.
Proof. unfold between. rewrite andb_true_iff, !Z.leb_le. tauto. Qed.

Lemma validb_valid t : validb t = true <-> valid t.
Proof.
  unfold validb, valid. rewrite !andb_true_iff, !between_true. lia.
Qed.

Lemma days_in_month_le_31 y m : 1 <= m <= 12 -> 28 <= days_in_month y m <= 31.
Proof.
  intros Hm. unfold days_in_month. destruct (_ && _); [lia |].
  assert (m = 1 \/ m = 2 \/ m = 3 \/ m = 4 \/ m = 5 \/ m = 6 \/ m = 7 \/ m = 8
          \/ m = 9 \/ m = 10 \/ m = 11 \/ m = 12) as Hc by lia.
  repeat (destruct Hc as [-> | Hc]; [simpl; lia |]). rewrite Hc. simpl. lia.
Qed.

(** The layout reader gives back what [strftime_seconds] wrote. *)
Lemma strptime_layout_strftime t :
  valid t -> strptime_layout (strftime_seconds t) = Some (whole_second t).
Proof.
  intros Hv. pose proof Hv as (Hy & Hm & Hd & Hh & Hmi & Hs & Hus).
  pose proof (days_in_month_le_31 (year t) (month t) Hm) as Hdm.
  unfold strftime_seconds, pad4, pad2. cbv [String.append strptime_layout].
  rewrite four_digits_pad by lia.
  rewrite !two_digits_pad by lia.
  unfold whole_second.
  assert (validb (mk_datetime (year t) (month t) (day t) (hour t) (minute t)
                              (second t) 0) = true) as ->; [| reflexivity].
  apply validb_valid. unfold valid; simpl. lia.
Qed.

(** The layout reader as an instance of the interface. *)
Definition layout_strptime : Strptime :=
  {| strptime := strptime_layout; strptime_strftime := strptime_layout_strftime |}.

(** Dropping the microseconds never moves a datetime forward. *)
Lemma lex_ltb_irrefl a : lex_ltb a a = false.
Proof.
  induction a as [| x a IH]; [reflexivity |].
  simpl. rewrite Z.ltb_irrefl, Z.eqb_refl, IH. reflexivity.
Qed.

Lemma lex_ltb_trans a b c :
  length a = length b -> length b = length c ->
  lex_ltb a b = true -> lex_ltb b c = true -> lex_ltb a c = true.
Proof.
  revert b c. induction a as [| x a IH]; intros [| y b] [| z c]; simpl;
    try discriminate; try reflexivity; intros Hab Hbc.
  rewrite !orb_true_iff, !andb_true_iff, !Z.ltb_lt, !Z.eqb_eq.
  intros [Hxy | [Hxy H1]] [Hyz | [Hyz H2]]; try (left; lia).
  right; split; [lia |]. apply (IH b c); congruence.
Qed.

Lemma lex_ltb_last p q x y :
  length p = length q -> 0 <= x ->
  lex_ltb (p ++ [x]) (q ++ [y]) = true -> lex_ltb (p ++ [0]) (q ++ [y]) = true.
Proof.
  revert q. induction p as [| a p IH]; intros [| b q]; simpl; try discriminate.
  - intros _ Hx. rewrite !andb_false_r, !orb_false_r, !Z.ltb_lt. lia.
  - intros Hlen Hx. rewrite !orb_true_iff, !andb_true_iff.
    intros [Hab | [Hab Hrest]]; [left; assumption | right; split; [assumption |]].
    apply IH; [congruence | assumption | assumption].
Qed.

Lemma whole_second_le t u :
  0 <= microsecond t -> ltb t u = true -> ltb (whole_second t) u = true.
Proof.
  intros Hus. unfold ltb.
  apply (lex_ltb_last [year t; month t; day t; hour t; minute t; second t]
                      [year u; month u; day u; hour u; minute u; second u]
                      (microsecond t) (microsecond u)); [reflexivity | assumption].
Qed.

Lemma gtb_whole_second now t :
  0 <= microsecond t -> gtb now t = true -> gtb now (whole_second t) = true.
Proof. unfold gtb. apply whole_second_le. Qed.

End DatetimeFacts.

(** ** The calendar: a date plus minutes is a date *)

Section CalendarFacts.
Import pytext pydatetime.

(** A predicate checked on every integer of [lo, lo + 2^depth). *)
Fixpoint range_ok (f : Z -> bool) (depth : nat) (lo : Z) : bool :=
  match depth with
  | O => f lo
  | S d => range_ok f d lo && range_ok f d (lo + 2 ^ Z.of_nat d)
  end.

Lemma range_ok_spec f depth : forall lo,
  range_ok f depth lo = true ->
  forall r, lo <= r < lo + 2 ^ Z.of_nat depth -> f r = true.
Proof.
  induction depth as [| d IH]; intros lo Hall r Hr.
  - simpl in *. replace r with lo by lia. assumption.
  - cbn [range_ok] in Hall. apply andb_true_iff in Hall as [Hl Hh].
    rewrite Nat2Z.inj_succ, Z.pow_succ_r in Hr by lia.
    destruct (Z_lt_le_dec r (lo + 2 ^ Z.of_nat d)).
    + apply (IH lo); [assumption | lia].
    + apply (IH (lo + 2 ^ Z.of_nat d)); [assumption | lia].
Qed.

(** One 400-year cycle of the calendar, day by day: the date of each
    ordinal is a date, and the cycle's last year is only reached by its
    last 366 days. *)
Definition cycle_ok (r : Z) : bool :=
  (146097 <=? r) ||
  let '(y, m, d) := ord2ymd (r + 1) in
  between 1 400 y && between 1 12 m && between 1 (days_in_month y m) d
  && ((145730 <? r) || (y <=? 399)).

Lemma cycle_checked : range_ok cycle_ok 18 0 = true.
Proof. vm_cast_no_check (eq_refl true). Qed.

Lemma is_leap_shift q y : is_leap (400 * q + y) = is_leap y.
Proof.
  unfold is_leap.
  replace (400 * q + y) with (y + (100 * q) * 4) at 1 by lia.
  replace (400 * q + y) with (y + (4 * q) * 100) at 1 by lia.
  replace (400 * q + y) with (y + q * 400) by lia.
  rewrite !Z_mod_plus_full. reflexivity.
Qed.

Lemma days_in_month_shift q y m : days_in_month (400 * q + y) m = days_in_month y m.
Proof. unfold days_in_month. rewrite is_leap_shift. reflexivity. Qed.

Lemma ord2ymd_shift q r :
  0 <= r < 146097 ->
  ord2ymd (146097 * q + r + 1) =
  let '(y, m, d) := ord2ymd (r + 1) in (400 * q + y, m, d).
Proof.
  intros Hr. unfold ord2ymd.
  replace (146097 * q + r + 1 - 1) with (r + q * 146097) by lia.
  replace (r + 1 - 1) with r by lia.
  rewrite Z_div_plus_full, Z_mod_plus_full by lia.
  rewrite (Z.div_small r 146097), (Z.mod_small r 146097) by lia.
  cbv zeta.
  destruct ((_ =? 4) || (_ =? 4)); [f_equal; f_equal; lia |].
  destruct (_ <? _); f_equal; f_equal; lia.
Qed.

Lemma ord2ymd_valid n :
  1 <= n <= MAXORDINAL ->
  let '(y, m, d) := ord2ymd n in
  1 <= y <= 9999 /\ 1 <= m <= 12 /\ 1 <= d <= days_in_month y m.
Proof.
  unfold MAXORDINAL. intros Hn.
  set (q := (n - 1) / 146097). set (r := (n - 1) mod 146097).
  assert (n = 146097 * q + r + 1) as Hnq
    by (pose proof (Z.div_mod (n - 1) 146097); lia).
  assert (0 <= r < 146097) as Hr by (apply Z.mod_pos_bound; lia).
  assert (0 <= q <= 24) as Hq.
  { split; [apply Z.div_pos; lia |].
    apply Z.lt_succ_r, Z.div_lt_upper_bound; lia. }
  pose proof (range_ok_spec _ _ _ cycle_checked r) as Hok.
  specialize (Hok ltac:(simpl; lia)). unfold cycle_ok in Hok.
  apply orb_true_iff in Hok as [Hbig | Hok]; [apply Z.leb_le in Hbig; lia |].
  rewrite Hnq, ord2ymd_shift by assumption.
  destruct (ord2ymd (r + 1)) as [[y m] d].
  rewrite days_in_month_shift.
  rewrite !andb_true_iff, !between_true, orb_true_iff, Z.ltb_lt, Z.leb_le in Hok.
  lia.
Qed.

Lemma add_minutes_valid t k e :
  valid t -> add_minutes t k = Some e -> valid e.
Proof.
  intros Hv. unfold add_minutes.
  set (us := microsecond t + 1000000 * (second t + 60 * (minute t + k) + 3600 * hour t)).
  destruct ((0 <? _) && (_ <=? MAXORDINAL)) eqn:Hrange; [| discriminate].
  apply andb_true_iff in Hrange as [Hlo Hhi].
  apply Z.ltb_lt in Hlo. apply Z.leb_le in Hhi.
  pose proof (ord2ymd_valid (toordinal t + us / us_per_day) ltac:(lia)) as Hd.
  destruct (ord2ymd _) as [[y m] d].
  intros [= <-]. unfold valid; simpl.
  assert (0 <= us mod us_per_day < us_per_day) as Hrest
    by (apply Z.mod_pos_bound; reflexivity).
  unfold us_per_day in *.
  repeat split; try lia;
    try (apply Z.div_pos; try apply Z.mod_pos_bound; try apply Z.div_pos; lia);
    try (apply Z.mod_pos_bound; lia);
    try (apply Z.div_lt_upper_bound; [lia |]);
    try (apply Z.div_lt_upper_bound; lia);
    try (apply Z.mod_pos_bound; lia).
  all: try (apply Z.div_lt_upper_bound; [lia |]; apply Z.mod_pos_bound; lia).
Qed.

End CalendarFacts.

(** ** Credentials and reset tokens *)

Section AuthFacts.
Import pytext pydatetime sqlite auth.

(** A stand-in digest of the right size, to run the definitions on
    examples; nothing of PBKDF2 is claimed of it. *)
Definition padded_digest (password salt : bytes) (n : Z) : bytes :=
  firstn 32 (salt ++ password ++ repeat x00 32).

Lemma padded_digest_size password salt n :
  length (padded_digest password salt n) = 32%nat.
Proof.
  unfold padded_digest.
  rewrite firstn_length_le; [reflexivity |].
  rewrite !length_app, repeat_length. lia.
Qed.

Definition padded_pbkdf2 : Pbkdf2 :=
  {| pbkdf2_hmac_sha256 := padded_digest; pbkdf2_digest_size := padded_digest_size |}.

Context `{Pbkdf2} `{Strptime}.

Lemma find_map_same {A} (p : A -> bool) (f : A -> A) (l : list A) :
  (forall x, p (f x) = p x) ->
  List.find p (List.map f l) = option_map f (List.find p l).
Proof.
  intros Hp. induction l as [| x l IH]; [reflexivity |].
  simpl. rewrite Hp. destruct (p x); [reflexivity | exact IH].
Qed.

Lemma find_app_found {A} (p : A -> bool) (l k : list A) x :
  List.find p l = Some x -> List.find p (l ++ k) = Some x.
Proof.
  induction l as [| y l IH]; [discriminate |].
  simpl. destruct (p y); [trivial | exact IH].
Qed.

Lemma select_user_update login uid pwh new_salt us :
  select_user login (update_credential uid pwh new_salt us) =
  option_map (fun u =>
    if u_id u =? uid
    then mk_user (u_id u) (u_email u) (u_username u) (SqlBlob pwh)
                 (SqlBlob new_salt) (u_role u) (u_is_active u)
    else u) (select_user login us).
Proof.
  unfold select_user, update_credential.
  rewrite !find_map_same by (intros u; destruct (u_id u =? uid); reflexivity).
  destruct (List.find (email_is login) us); reflexivity.
Qed.

(** The row a login selects is a row of the table that the WHERE clause
    matches. *)
Lemma select_user_row login us row :
  select_user login us = Some row -> In row us /\ login_matches login row = true.
Proof.
  unfold select_user, login_matches.
  destruct (List.find (email_is login) us) as [u |] eqn:Hmail.
  - intros [= <-]. apply find_some in Hmail as [Hin ->]. auto.
  - intros Hname. apply find_some in Hname as [Hin ->]. split; [exact Hin |].
    apply orb_true_r.
Qed.

Lemma select_user_none login us :
  select_user login us = None <-> forall u, In u us -> login_matches login u = false.
Proof.
  unfold select_user, login_matches. split.
  - destruct (List.find (email_is login) us) as [u |] eqn:Hmail; [discriminate |].
    intros Hname u Hin.
    rewrite (find_none _ _ Hmail u Hin), (find_none _ _ Hname u Hin). reflexivity.
  - intros Hall.
    assert (forall p, (forall u, login_matches login u = false -> p u = false) ->
                      List.find p us = None) as Hfind.
    { intros p Hp. induction us as [| u us IH]; [reflexivity |]. simpl.
      rewrite (Hp u) by (apply Hall; left; reflexivity).
      apply IH. intros v Hv. apply Hall. right. exact Hv. }
    rewrite !Hfind; [reflexivity | |];
      unfold login_matches; intros u Hu; apply orb_false_iff in Hu; tauto.
Qed.

(** A login that is the email of one account and the username of
    another selects the account of the email, whichever row is older. *)
Lemma select_user_email_first login us u :
  In u us -> u_email u = login ->
  exists r, select_user login us = Some r /\ u_email r = login.
Proof.
  intros Hin Hmail. unfold select_user.
  destruct (List.find (email_is login) us) as [r |] eqn:Hfind.
  - exists r. split; [reflexivity |]. apply find_some in Hfind as [_ Hr].
    apply String.eqb_eq. exact Hr.
  - pose proof (find_none _ _ Hfind u Hin) as Hno. unfold email_is in Hno.
    rewrite Hmail, String.eqb_refl in Hno. discriminate.
Qed.

Lemma find_added {A} (p : A -> bool) (l : list A) x :
  List.find p l = None -> List.find p (l ++ [x]) = if p x then Some x else None.
Proof.
  induction l as [| y l IH]; [reflexivity |]. simpl.
  destruct (p y); [discriminate | exact IH].
Qed.

(** A row added after rows none of which the login matches is the row
    the login selects, when it matches it. *)
Lemma select_user_added login us row :
  select_user login us = None ->
  select_user login (us ++ [row])
  = if login_matches login row then Some row else None.
Proof.
  intros Hnone. unfold select_user in *. unfold login_matches.
  destruct (List.find (email_is login) us) as [u |] eqn:Hmail; [discriminate |].
  rewrite (find_added _ _ row Hmail), (find_added _ _ row Hnone).
  destruct (email_is login row), (username_is login row); reflexivity.
Qed.

Lemma is_empty_false_length {A} (l : list A) n :
  length l = S n -> is_empty l = false.
Proof. destruct l; [discriminate | reflexivity]. Qed.

Lemma digest_not_empty password salt n : is_empty (pbkdf2_hmac_sha256 password salt n) = false.
Proof. apply (is_empty_false_length _ 31), pbkdf2_digest_size. Qed.

Lemma digest_not_nil password salt n : pbkdf2_hmac_sha256 password salt n <> [].
Proof.
  intros Heq. pose proof (pbkdf2_digest_size password salt n) as Hlen.
  rewrite Heq in Hlen. discriminate.
Qed.

Lemma legacy_salt_false salt_b :
  legacy_salt salt_b = false <-> salt_b <> [] /\ salt_b <> repeat x00 16.
Proof.
  unfold legacy_salt. rewrite orb_false_iff, !bool_decide_eq_false. tauto.
Qed.

(** C2. An account marked inactive is refused whatever the password, and
    nothing is written. An active account whose salt is not one of the
    two markers of an unhashed row is accepted exactly when the password,
    hashed with the stored salt, gives the stored digest. *)
Theorem C2_inactive_refused_salted_iff_digest :
  forall (new_salt : bytes) (db : user_db) (login : string) (row : users_row),
    select_user login (users db) = Some row ->
    (truthy (u_is_active row) = false ->
     forall password, check_password new_salt db login password = (false, db))
    /\
    (truthy (u_is_active row) = true ->
     legacy_salt (_to_bytes (u_salt row)) = false ->
     forall password,
       check_password new_salt db login password =
         (bool_decide (_hash_password password (SqlBlob (_to_bytes (u_salt row)))
                       = _to_bytes (u_password_hash row)), db)
       /\ (fst (check_password new_salt db login password) = true
           <-> pbkdf2_hmac_sha256 (utf8 password) (_to_bytes (u_salt row)) 200000
               = _to_bytes (u_password_hash row))).
Proof.
  intros new_salt db login row Hrow. split.
  - intros Hoff password. unfold check_password, check_password_path.
    rewrite Hrow, Hoff. reflexivity.
  - intros Hon Hsalt password.
    assert (check_password new_salt db login password =
            (bool_decide (_hash_password password (SqlBlob (_to_bytes (u_salt row)))
                          = _to_bytes (u_password_hash row)), db)) as Heq.
    { unfold check_password, check_password_path.
      rewrite Hrow, Hon, Hsalt. simpl.
      apply legacy_salt_false in Hsalt as [Hne _].
      destruct (_to_bytes (u_salt row)) as [| b salt_b] eqn:Hs; [congruence |].
      destruct (_to_bytes (u_password_hash row)) as [| c stored] eqn:Hst; simpl.
      - rewrite bool_decide_eq_false_2; [reflexivity |].
        unfold _hash_password. apply digest_not_nil.
      - f_equal. apply bool_decide_ext. split; congruence. }
    split; [exact Heq |].
    rewrite Heq. simpl. rewrite bool_decide_eq_true. unfold _hash_password. simpl.
    reflexivity.
Qed.

(** C1, as the code has it. An account marked inactive is refused before
    the test for an unhashed row and nothing is written; a row whose
    stored credential is empty never passes that test and is refused.
    An active account with an empty salt and a non-empty stored
    credential equal to the UTF-8 password is let in whatever the fresh
    salt, and in the same write its credential becomes the digest of the
    password under that salt. When the fresh salt has its sixteen bytes
    and is not sixteen zero bytes (the other marker of an unhashed row),
    the next login with the same password is decided by comparing
    digests, succeeds, and writes nothing. *)
Theorem C1_legacy_upgrade_once :
  forall (new_salt : bytes) (db : user_db) (login : string) (row : users_row),
    select_user login (users db) = Some row ->
    (truthy (u_is_active row) = false ->
     forall password,
       check_password_path new_salt db login password = (NotActive, db)
       /\ check_password new_salt db login password = (false, db))
    /\
    (_to_bytes (u_password_hash row) = [] ->
     forall password,
       fst (check_password_path new_salt db login password) <> LegacyPlaintext
       /\ check_password new_salt db login password = (false, db))
    /\
    (forall password,
       truthy (u_is_active row) = true ->
       _to_bytes (u_salt row) = [] ->
       _to_bytes (u_password_hash row) = utf8 password ->
       _to_bytes (u_password_hash row) <> [] ->
       let digest := pbkdf2_hmac_sha256 (utf8 password) new_salt 200000 in
       let db' := mk_db (update_credential (u_id row) digest new_salt (users db))
                        (password_tokens db) (password_tokens_seq db) in
       check_password new_salt db login password = (true, db')
       /\ check_password_path new_salt db login password = (LegacyPlaintext, db')
       /\ select_user login (users db') =
            Some (mk_user (u_id row) (u_email row) (u_username row) (SqlBlob digest)
                          (SqlBlob new_salt) (u_role row) (u_is_active row))
       /\ (length new_salt = 16%nat ->
           new_salt <> repeat x00 16 ->
           forall next_salt,
             check_password_path next_salt db' login password = (Compared true, db')
             /\ check_password next_salt db' login password = (true, db'))).
Proof.
  intros new_salt db login row Hrow. split; [| split].
  - intros Hoff password. unfold check_password, check_password_path.
    rewrite Hrow, Hoff. split; reflexivity.
  - intros Hempty password. unfold check_password, check_password_path.
    rewrite Hrow, Hempty.
    destruct (negb (truthy (u_is_active row))); [split; [discriminate | reflexivity] |].
    cbn [is_empty negb]. rewrite andb_false_r, orb_true_r. cbn [andb].
    split; [discriminate | reflexivity].
  - intros password Hon Hsalt Hstored Hne digest db'.
    assert (check_password_path new_salt db login password = (LegacyPlaintext, db'))
      as Hfirst.
    { unfold check_password_path. rewrite Hrow, Hon, Hsalt. simpl.
      destruct (_to_bytes (u_password_hash row)) as [| c stored] eqn:Hst;
        [congruence |].
      simpl. rewrite bool_decide_eq_true_2 by exact Hstored. reflexivity. }
    assert (select_user login (users db') =
            Some (mk_user (u_id row) (u_email row) (u_username row) (SqlBlob digest)
                          (SqlBlob new_salt) (u_role row) (u_is_active row)))
      as Hrow'.
    { unfold db'; simpl. rewrite select_user_update, Hrow. simpl.
      rewrite Z.eqb_refl. reflexivity. }
    split; [unfold check_password; rewrite Hfirst; reflexivity |].
    split; [exact Hfirst |]. split; [exact Hrow' |].
    intros Hlen Hnz next_salt.
    assert (legacy_salt new_salt = false) as Hfresh.
    { apply legacy_salt_false. split; [| exact Hnz].
      intros ->. discriminate. }
    assert (check_password_path next_salt db' login password = (Compared true, db'))
      as Hsecond.
    { unfold check_password_path. rewrite Hrow'. simpl. rewrite Hon. simpl.
      rewrite Hfresh. simpl.
      rewrite (is_empty_false_length new_salt 15 Hlen).
      fold digest. unfold digest at 1. rewrite digest_not_empty. simpl.
      unfold _hash_password. simpl. fold digest.
      rewrite bool_decide_eq_true_2 by reflexivity. reflexivity. }
    split; [exact Hsecond |].
    unfold check_password. rewrite Hsecond. reflexivity.
Qed.

(** The rows the examples below are run on. *)
Definition salt_07 : bytes := repeat x07 16.

Definition legacy_row (uid : Z) (mail : string) (plain : string) (active : Z)
    : users_row :=
  mk_user uid mail None (SqlBlob (utf8 plain)) (SqlBlob []) (Some "User") (Some active).

Definition hashed_row (uid : Z) (mail : string) (plain : string) (active : Z)
    : users_row :=
  mk_user uid mail None
          (SqlBlob (padded_digest (utf8 plain) salt_07 200000))
          (SqlBlob salt_07) (Some "User") (Some active).

Definition legacy_db : user_db :=
  mk_db [legacy_row 1 "a@x.com" "pw123456" 1; legacy_row 2 "b@x.com" "pw123456" 0;
         legacy_row 3 "c@x.com" "" 1] [] 0.

Definition hashed_db : user_db :=
  mk_db [hashed_row 1 "a@x.com" "pw123456" 1; hashed_row 2 "b@x.com" "pw123456" 0] [] 0.

End AuthFacts.

Section AuthExamples.
Import pytext pydatetime sqlite auth.

Lemma C1_witness :
  @check_password padded_pbkdf2 salt_07 legacy_db "a@x.com" "pw123456"
  = (true,
     mk_db [hashed_row 1 "a@x.com" "pw123456" 1; legacy_row 2 "b@x.com" "pw123456" 0;
            legacy_row 3 "c@x.com" "" 1] [] 0)
  /\ @check_password padded_pbkdf2 []
       (mk_db [hashed_row 1 "a@x.com" "pw123456" 1; legacy_row 2 "b@x.com" "pw123456" 0;
               legacy_row 3 "c@x.com" "" 1] [] 0) "a@x.com" "pw123456"
     = (true,
        mk_db [hashed_row 1 "a@x.com" "pw123456" 1; legacy_row 2 "b@x.com" "pw123456" 0;
               legacy_row 3 "c@x.com" "" 1] [] 0).
Proof.
  destruct (proj2 (proj2 (@C1_legacy_upgrade_once padded_pbkdf2 salt_07 legacy_db
                            "a@x.com" (legacy_row 1 "a@x.com" "pw123456" 1) eq_refl))
              "pw123456" eq_refl eq_refl eq_refl)
    as (Hfirst & _ & _ & Hnext); [discriminate |].
  split; [exact Hfirst |].
  apply (Hnext eq_refl); vm_compute; discriminate.
Defined.

(** C1 as stated fails on an account marked inactive, whose empty salt and
    matching stored credential do not let it in, and on an empty stored
    credential met by the empty password: both are refused and nothing is
    written. *)
Lemma C1_counterexample :
  (select_user "b@x.com" (users legacy_db) = Some (legacy_row 2 "b@x.com" "pw123456" 0)
   /\ _to_bytes (u_salt (legacy_row 2 "b@x.com" "pw123456" 0)) = []
   /\ _to_bytes (u_password_hash (legacy_row 2 "b@x.com" "pw123456" 0)) = utf8 "pw123456"
   /\ @check_password padded_pbkdf2 salt_07 legacy_db "b@x.com" "pw123456"
      = (false, legacy_db))
  /\
  (select_user "c@x.com" (users legacy_db) = Some (legacy_row 3 "c@x.com" "" 1)
   /\ _to_bytes (u_salt (legacy_row 3 "c@x.com" "" 1)) = []
   /\ _to_bytes (u_password_hash (legacy_row 3 "c@x.com" "" 1)) = utf8 ""
   /\ @check_password padded_pbkdf2 salt_07 legacy_db "c@x.com" ""
      = (false, legacy_db)).
Proof. vm_compute. repeat split. Qed.

Lemma C2_witness :
  @check_password padded_pbkdf2 [] hashed_db "b@x.com" "pw123456" = (false, hashed_db)
  /\ @check_password padded_pbkdf2 [] hashed_db "a@x.com" "pw123456" = (true, hashed_db)
  /\ @check_password padded_pbkdf2 [] hashed_db "a@x.com" "pw1234567" = (false, hashed_db).
Proof.
  pose proof (@C2_inactive_refused_salted_iff_digest padded_pbkdf2 [] hashed_db "b@x.com"
                (hashed_row 2 "b@x.com" "pw123456" 0) eq_refl) as [Hoff _].
  pose proof (@C2_inactive_refused_salted_iff_digest padded_pbkdf2 [] hashed_db "a@x.com"
                (hashed_row 1 "a@x.com" "pw123456" 1) eq_refl) as [_ Hon].
  split; [exact (Hoff eq_refl "pw123456") |].
  split.
  - exact (proj1 (Hon eq_refl eq_refl "pw123456")).
  - exact (proj1 (Hon eq_refl eq_refl "pw1234567")).
Defined.

End AuthExamples.

(** ** The life of a reset token *)

Section TokenFacts.
Import pytext pydatetime sqlite auth.
Context `{Pbkdf2} `{Strptime}.

(** One call of an operation of the module, from the store before it to
    the store after it. *)
Inductive op_step : user_db -> user_db -> Prop :=
| step_check_password new_salt db login password :
    op_step db (snd (check_password new_salt db login password))
| step_set_password salt db user_id new_password db' :
    set_password salt db user_id new_password = Some db' ->
    op_step db db'
| step_request token now relay db login app_name link_base_url outcome db' :
    request_password_change token now relay db login app_name link_base_url
      = Some (outcome, db') ->
    op_step db db'
| step_redeem salt now db token new_password :
    op_step db (snd (verify_token_and_change_password salt now db token new_password)).

(** The row a token text selects carries a consumption stamp. *)
Definition consumed (token : string) (db : user_db) : Prop :=
  exists row, select_token token (password_tokens db) = Some row
              /\ t_purpose row = "password_change"
              /\ t_used_at row <> None.

Lemma check_password_tokens new_salt db login password :
  password_tokens (snd (check_password new_salt db login password)) = password_tokens db.
Proof.
  unfold check_password, check_password_path.
  destruct (select_user login (users db)) as [row |]; [| reflexivity].
  destruct (negb _); [reflexivity |].
  destruct (_ && _); [reflexivity |].
  destruct (_ || _); reflexivity.
Qed.

Lemma select_token_mark_used token token_id stamp ts :
  select_token token (mark_used token_id stamp ts) =
  option_map (fun t =>
    if t_id t =? token_id
    then mk_token (t_id t) (t_user_id t) (t_token t) (t_purpose t)
                  (t_expires_at t) (Some stamp)
    else t) (select_token token ts).
Proof.
  unfold select_token, mark_used. apply find_map_same.
  intros t. destruct (t_id t =? token_id); reflexivity.
Qed.

Lemma consumed_mark_used token token_id stamp us ts seq :
  consumed token (mk_db us ts seq) ->
  forall us', consumed token (mk_db us' (mark_used token_id stamp ts) seq).
Proof.
  intros (row & Hsel & Hpurpose & Hused) us'. unfold consumed; simpl in *.
  rewrite select_token_mark_used, Hsel. simpl.
  eexists; split; [reflexivity |].
  destruct (t_id row =? token_id); simpl; [| tauto].
  split; [assumption | discriminate].
Qed.

Lemma redeem_store salt now db token new_password :
  let db' := snd (verify_token_and_change_password salt now db token new_password) in
  db' = db \/
  exists us' token_id stamp,
    db' = mk_db us' (mark_used token_id stamp (password_tokens db))
                (password_tokens_seq db).
Proof.
  unfold verify_token_and_change_password.
  destruct (_ || _); [left; reflexivity |].
  destruct (select_token _ _) as [row |]; [| left; reflexivity].
  destruct (negb _); [left; reflexivity |].
  destruct (t_used_at row); [left; reflexivity |].
  destruct (strptime _) as [exp_dt |]; [| left; reflexivity].
  destruct (gtb _ _); [left; reflexivity |].
  destruct (_ <? _)%nat; [left; reflexivity |].
  right. simpl. eauto.
Qed.

Lemma consumed_step token db db' :
  consumed token db -> op_step db db' -> consumed token db'.
Proof.
  intros Hc Hstep. destruct Hstep as
    [new_salt db login password
    | salt db user_id new_password db' Hset
    | tok now relay db login app_name link outcome db' Hreq
    | salt now db tok new_password].
  - destruct Hc as (row & Hsel & Hrest). exists row.
    rewrite check_password_tokens. auto.
  - unfold set_password in Hset. destruct (_ || _); [discriminate |].
    injection Hset as <-. exact Hc.
  - unfold request_password_change in Hreq.
    destruct (_get_user_by_login db login) as [user |];
      [| injection Hreq as _ <-; exact Hc].
    destruct (negb _); [injection Hreq as _ <-; exact Hc |].
    unfold _create_token in Hreq.
    destruct (add_minutes now 15) as [expiry |]; [| discriminate].
    destruct Hc as (row & Hsel & Hrest).
    assert (consumed token
              (mk_db (users db)
                 (password_tokens db ++
                  [mk_token (next_rowid (password_tokens_seq db)
                                        (List.map t_id (password_tokens db)))
                            (info_id user) tok "password_change"
                            (strftime_seconds expiry) None])
                 (next_rowid (password_tokens_seq db)
                             (List.map t_id (password_tokens db))))) as Hc'.
    { exists row. split; [| exact Hrest]. simpl.
      apply find_app_found. exact Hsel. }
    destruct (_send_email _ _ _ _); injection Hreq as _ <-; exact Hc'.
  - destruct (redeem_store salt now db tok new_password) as [-> | (us' & tid & stamp & ->)];
      [exact Hc |].
    destruct db as [us ts seq]. simpl.
    apply (consumed_mark_used token tid stamp us ts seq Hc).
Qed.

Lemma consumed_steps token db db' :
  consumed token db -> rtc op_step db db' -> consumed token db'.
Proof.
  intros Hc Hsteps. induction Hsteps as [| db mid db' Hstep _ IH]; [exact Hc |].
  apply IH. exact (consumed_step token db mid Hc Hstep).
Qed.

Lemma consumed_refused token db :
  consumed token db -> token <> "" ->
  forall salt now new_password, new_password <> "" ->
    verify_token_and_change_password salt now db token new_password
    = ((false, MSG_ALREADY_USED), db).
Proof.
  intros (row & Hsel & Hpurpose & Hused) Htok salt now new_password Hpw.
  unfold verify_token_and_change_password.
  destruct token; [congruence |]. destruct new_password; [congruence |]. simpl.
  simpl in Hsel. rewrite Hsel, Hpurpose. simpl.
  destruct (t_used_at row); [reflexivity | congruence].
Qed.

(** C3. A token that selects an unconsumed [password_change] row whose
    expiry has not passed is redeemed by a new password of eight
    characters or more: the owner's credential becomes the digest under
    the fresh salt and the row is stamped, in the one store the call
    returns. After any later calls of the module's operations the row is
    still stamped, and redeeming the token again, with any non-empty new
    password, is refused as already used. *)
Theorem C3_token_redeemed_once :
  forall (salt : bytes) (now : datetime) (db : user_db)
         (token new_password : string) (row : token_row) (exp_dt : datetime),
    token <> "" ->
    select_token token (password_tokens db) = Some row ->
    t_purpose row = "password_change" ->
    t_used_at row = None ->
    strptime (t_expires_at row) = Some exp_dt ->
    gtb now exp_dt = false ->
    (8 <= String.length new_password)%nat ->
    let digest := pbkdf2_hmac_sha256 (utf8 new_password) salt 200000 in
    let db1 :=
      mk_db (update_credential (t_user_id row) digest salt (users db))
            (mark_used (t_id row) (strftime_seconds now) (password_tokens db))
            (password_tokens_seq db) in
    verify_token_and_change_password salt now db token new_password
      = ((true, MSG_CHANGED), db1)
    /\ (forall u, In u (users db1) -> u_id u = t_user_id row ->
          u_password_hash u = SqlBlob digest /\ u_salt u = SqlBlob salt)
    /\ select_token token (password_tokens db1)
       = Some (mk_token (t_id row) (t_user_id row) (t_token row) (t_purpose row)
                        (t_expires_at row) (Some (strftime_seconds now)))
    /\ (forall db2, rtc op_step db1 db2 ->
          consumed token db2
          /\ forall salt' now' password', password' <> "" ->
               verify_token_and_change_password salt' now' db2 token password'
               = ((false, MSG_ALREADY_USED), db2)).
Proof.
  intros salt now db token new_password row exp_dt Htok Hsel Hpurpose Hfresh
         Hparse Hnow Hlen digest db1.
  assert (select_token token (password_tokens db1)
          = Some (mk_token (t_id row) (t_user_id row) (t_token row) (t_purpose row)
                           (t_expires_at row) (Some (strftime_seconds now)))) as Hsel1.
  { unfold db1; simpl. rewrite select_token_mark_used, Hsel. simpl.
    rewrite Z.eqb_refl. reflexivity. }
  assert (consumed token db1) as Hc1.
  { eexists. split; [exact Hsel1 |]. simpl. split; [assumption | discriminate]. }
  split; [| split; [| split; [exact Hsel1 |]]].
  - unfold verify_token_and_change_password.
    destruct token; [congruence |].
    destruct new_password as [| c pw]; [simpl in Hlen; lia |]. simpl str_empty.
    cbn [orb]. rewrite Hsel, Hpurpose, Hfresh, Hparse, Hnow. simpl negb. cbn iota.
    destruct (_ <? _)%nat eqn:Hshort; [apply Nat.ltb_lt in Hshort; lia |].
    reflexivity.
  - intros u Hin Hid. unfold db1 in Hin; simpl in Hin.
    unfold update_credential in Hin. apply in_map_iff in Hin as (u0 & <- & _).
    destruct (u_id u0 =? t_user_id row) eqn:Heq; [simpl; auto |].
    apply Z.eqb_neq in Heq. contradiction.
  - intros db2 Hsteps.
    pose proof (consumed_steps token db1 db2 Hc1 Hsteps) as Hc2.
    split; [exact Hc2 |]. intros salt' now' password' Hpw.
    apply consumed_refused; assumption.
Qed.

Lemma select_token_app_new token ts row :
  select_token token ts = None -> t_token row = token ->
  select_token token (ts ++ [row]) = Some row.
Proof.
  unfold select_token. intros Hnone Htok.
  induction ts as [| t ts IH]; simpl in *.
  - rewrite Htok, String.eqb_refl. reflexivity.
  - destruct (String.eqb (t_token t) token); [discriminate | auto].
Qed.

(** C4, as the code has it. The expiry a token is issued with is written
    to the second: it is the issuing instant plus fifteen minutes with the
    microseconds dropped. On the freshly issued token, a redemption with a
    non-empty new password after that written instant is refused as
    expired, and so is every one after the issuing instant plus fifteen
    minutes; a redemption at or before the written instant with a new
    password of eight characters or more succeeds. *)
Theorem C4_expiry_to_the_second :
  forall (token : string) (issued : datetime) (db : user_db) (user_id : Z)
         (db1 : user_db),
    valid issued ->
    token <> "" ->
    select_token token (password_tokens db) = None ->
    _create_token token issued db user_id "password_change" 15 = Some (token, db1) ->
    exists expiry,
      add_minutes issued 15 = Some expiry
      /\ select_token token (password_tokens db1)
         = Some (mk_token (next_rowid (password_tokens_seq db)
                                      (List.map t_id (password_tokens db)))
                          user_id token "password_change" (strftime_seconds expiry)
                          None)
      /\ strptime (strftime_seconds expiry) = Some (whole_second expiry)
      /\ forall (salt : bytes) (now : datetime) (new_password : string),
           (new_password <> "" -> gtb now (whole_second expiry) = true ->
            verify_token_and_change_password salt now db1 token new_password
            = ((false, MSG_EXPIRED), db1))
           /\ (new_password <> "" -> gtb now expiry = true ->
               verify_token_and_change_password salt now db1 token new_password
               = ((false, MSG_EXPIRED), db1))
           /\ ((8 <= String.length new_password)%nat ->
               gtb now (whole_second expiry) = false ->
               fst (verify_token_and_change_password salt now db1 token new_password)
               = (true, MSG_CHANGED)).
Proof.
  intros token issued db user_id db1 Hvalid Htok Hnew Hcreate.
  unfold _create_token in Hcreate.
  destruct (add_minutes issued 15) as [expiry |] eqn:Hadd; [| discriminate].
  injection Hcreate as <-.
  pose proof (add_minutes_valid issued 15 expiry Hvalid Hadd) as Hve.
  pose proof (strptime_strftime expiry Hve) as Hparse.
  exists expiry. split; [reflexivity |].
  set (new_row := mk_token (next_rowid (password_tokens_seq db)
                                       (List.map t_id (password_tokens db)))
                           user_id token "password_change"
                           (strftime_seconds expiry) None).
  set (db1 := mk_db (users db) (password_tokens db ++ [new_row])
                    (next_rowid (password_tokens_seq db)
                                (List.map t_id (password_tokens db)))).
  assert (select_token token (password_tokens db1) = Some new_row) as Hsel
    by (apply select_token_app_new; [exact Hnew | reflexivity]).
  split; [exact Hsel |]. split; [exact Hparse |].
  intros salt now new_password.
  assert (new_password <> "" -> gtb now (whole_second expiry) = true ->
          verify_token_and_change_password salt now db1 token new_password
          = ((false, MSG_EXPIRED), db1)) as Hlate.
  { intros Hpw Hgt. unfold verify_token_and_change_password.
    destruct token; [congruence |]. destruct new_password; [congruence |].
    simpl str_empty. cbn [orb]. rewrite Hsel.
    cbn [t_purpose t_used_at t_expires_at new_row]. rewrite Hparse, Hgt.
    reflexivity. }
  split; [exact Hlate |]. split.
  - intros Hpw Hgt. apply Hlate; [exact Hpw |].
    apply gtb_whole_second; [| exact Hgt].
    destruct Hve as (_ & _ & _ & _ & _ & _ & Hus). lia.
  - intros Hlen Hle. unfold verify_token_and_change_password.
    destruct token; [congruence |].
    destruct new_password as [| c pw]; [simpl in Hlen; lia |].
    simpl str_empty. cbn [orb]. rewrite Hsel.
    cbn [t_purpose t_used_at t_expires_at new_row]. rewrite Hparse, Hle.
    destruct (_ <? _)%nat eqn:Hshort; [apply Nat.ltb_lt in Hshort; lia |].
    reflexivity.
Qed.

(** C5. A request for an identifier that selects no account, or an
    inactive one, answers the generic message and leaves the store as it
    was. A request that selects an active account adds one token row, with
    purpose [password_change], no consumption stamp, and the text of the
    request's instant plus fifteen minutes as its expiry, whatever the
    mail relay answers; when the relay carries the message the answer is
    the same generic message. *)
Theorem C5_reset_request_uniform :
  forall (token : string) (now : datetime) (relay : mail_relay) (db : user_db)
         (login app_name : string) (link_base_url : option string),
    ((select_user login (users db) = None
      \/ exists row, select_user login (users db) = Some row
                     /\ truthy (u_is_active row) = false) ->
     request_password_change token now relay db login app_name link_base_url
     = Some ((true, GENERIC_SENT), db))
    /\
    (forall row expiry,
       select_user login (users db) = Some row ->
       truthy (u_is_active row) = true ->
       add_minutes now 15 = Some expiry ->
       let new_row :=
         mk_token (next_rowid (password_tokens_seq db)
                              (List.map t_id (password_tokens db)))
                  (u_id row) token "password_change" (strftime_seconds expiry)
                  None in
       let db' := mk_db (users db) (password_tokens db ++ [new_row])
                        (t_id new_row) in
       exists outcome,
         request_password_change token now relay db login app_name link_base_url
         = Some (outcome, db')
         /\ (outcome = (true, GENERIC_SENT)
             \/ exists e, outcome = (false, "Failed to send token email: " +:+ e))
         /\ ((forall message, relay message = None) ->
             outcome = (true, GENERIC_SENT))).
Proof.
  intros token now relay db login app_name link_base_url. split.
  - intros [Hnone | (row & Hrow & Hoff)];
      unfold request_password_change, _get_user_by_login.
    + rewrite Hnone. reflexivity.
    + rewrite Hrow. simpl. rewrite Hoff. reflexivity.
  - intros row expiry Hrow Hon Hadd new_row db'.
    unfold request_password_change, _get_user_by_login, _create_token.
    rewrite Hrow. cbn [info_is_active info_id info_email]. rewrite Hon, Hadd.
    cbn [negb]. unfold _send_email.
    match goal with |- context [relay ?m] => destruct (relay m) as [e |] eqn:Hrelay end.
    + eexists. split; [reflexivity |]. split; [right; eauto |].
      intros Hall. rewrite Hall in Hrelay. discriminate.
    + eexists. split; [reflexivity |]. split; [left; reflexivity | reflexivity].
Qed.

End TokenFacts.

Section TokenExamples.
Import pytext pydatetime sqlite auth.

Definition noon : datetime := mk_datetime 2025 1 1 12 0 0 900000.

(** Half a second before [noon] plus fifteen minutes. *)
Definition quarter_past : datetime := mk_datetime 2025 1 1 12 15 0 500000.

Definition issued_db : user_db :=
  mk_db (users hashed_db)
        [mk_token 1 1 "tok-abc" "password_change" "2025-01-01 12:15:00" None] 1.

Definition always_delivers : mail_relay := fun _ => None.

Lemma C3_witness :
  @verify_token_and_change_password padded_pbkdf2 layout_strptime salt_07 noon
     issued_db "tok-abc" "new-pass-1"
  = ((true, MSG_CHANGED),
     mk_db (update_credential 1 (padded_digest (utf8 "new-pass-1") salt_07 200000)
                              salt_07 (users hashed_db))
           [mk_token 1 1 "tok-abc" "password_change" "2025-01-01 12:15:00"
                     (Some "2025-01-01 12:00:00")] 1).
Proof.
  refine (proj1 (@C3_token_redeemed_once padded_pbkdf2 layout_strptime salt_07 noon
                   issued_db "tok-abc" "new-pass-1"
                   (mk_token 1 1 "tok-abc" "password_change" "2025-01-01 12:15:00" None)
                   (mk_datetime 2025 1 1 12 15 0 0)
                   _ eq_refl eq_refl eq_refl eq_refl eq_refl _));
    [discriminate | vm_compute; lia].
Defined.

(** C4 as stated fails inside the last second: a token issued at
    12:00:00.9 is written as expiring at 12:15:00, and a redemption at
    12:15:00.5, before the issuing instant plus fifteen minutes, is
    refused as expired. *)
Lemma C4_counterexample :
  _create_token "tok-abc" noon hashed_db 1 "password_change" 15
    = Some ("tok-abc", issued_db)
  /\ add_minutes noon 15 = Some (mk_datetime 2025 1 1 12 15 0 900000)
  /\ ltb quarter_past (mk_datetime 2025 1 1 12 15 0 900000) = true
  /\ @verify_token_and_change_password padded_pbkdf2 layout_strptime salt_07
       quarter_past issued_db "tok-abc" "new-pass-1"
     = ((false, MSG_EXPIRED), issued_db).
Proof. repeat split; vm_compute; reflexivity. Qed.

Lemma C4_witness :
  exists expiry,
    add_minutes noon 15 = Some expiry
    /\ @verify_token_and_change_password padded_pbkdf2 layout_strptime salt_07
         quarter_past issued_db "tok-abc" "new-pass-1"
       = ((false, MSG_EXPIRED), issued_db)
    /\ fst (@verify_token_and_change_password padded_pbkdf2 layout_strptime salt_07
              (mk_datetime 2025 1 1 12 15 0 0) issued_db "tok-abc" "new-pass-1")
       = (true, MSG_CHANGED).
Proof.
  destruct (@C4_expiry_to_the_second padded_pbkdf2 layout_strptime "tok-abc" noon hashed_db 1
              issued_db) as (expiry & Hadd & _ & _ & Hredeem).
  - apply validb_valid. reflexivity.
  - discriminate.
  - reflexivity.
  - reflexivity.
  - exists expiry. split; [exact Hadd |].
    assert (expiry = mk_datetime 2025 1 1 12 15 0 900000) as ->
      by (vm_compute in Hadd; congruence).
    split.
    + apply (proj1 (Hredeem salt_07 quarter_past "new-pass-1"));
        [discriminate | reflexivity].
    + apply (proj2 (proj2 (Hredeem salt_07 (mk_datetime 2025 1 1 12 15 0 0)
                             "new-pass-1"))); [vm_compute; lia | reflexivity].
Defined.

Lemma C5_witness :
  request_password_change "tok-abc" noon always_delivers hashed_db "nobody@x.com"
    "Takeout MS" None = Some ((true, GENERIC_SENT), hashed_db)
  /\ request_password_change "tok-abc" noon always_delivers hashed_db "b@x.com"
       "Takeout MS" None = Some ((true, GENERIC_SENT), hashed_db)
  /\ request_password_change "tok-abc" noon always_delivers hashed_db "a@x.com"
       "Takeout MS" None = Some ((true, GENERIC_SENT), issued_db).
Proof.
  split; [| split].
  - apply (proj1 (C5_reset_request_uniform "tok-abc" noon always_delivers hashed_db
                    "nobody@x.com" "Takeout MS" None)).
    left. reflexivity.
  - apply (proj1 (C5_reset_request_uniform "tok-abc" noon always_delivers hashed_db
                    "b@x.com" "Takeout MS" None)).
    right. eexists. split; reflexivity.
  - destruct (proj2 (C5_reset_request_uniform "tok-abc" noon always_delivers hashed_db
                       "a@x.com" "Takeout MS" None)
                (hashed_row 1 "a@x.com" "pw123456" 1)
                (mk_datetime 2025 1 1 12 15 0 900000) eq_refl eq_refl eq_refl)
      as (outcome & Hreq & _ & Hsent).
    rewrite Hreq. rewrite (Hsent (fun _ => eq_refl)). reflexivity.
Defined.

End TokenExamples.

(** ** Normalizers of the import *)

Section NormalizerFacts.
Import pytext ui_settings_import.

Lemma rstrip_cons c r :
  rstrip (String c r) =
  match rstrip r with
  | EmptyString => if isspace c then EmptyString else String c EmptyString
  | r' => String c r'
  end.
Proof. reflexivity. Qed.

Lemma rstrip_idempotent s : rstrip (rstrip s) = rstrip s.
Proof.
  induction s as [| c r IH]; [reflexivity |].
  rewrite rstrip_cons. destruct (rstrip r) as [| d r'] eqn:Hr.
  - destruct (isspace c) eqn:Hc; [reflexivity |].
    rewrite rstrip_cons. simpl. rewrite Hc. reflexivity.
  - rewrite rstrip_cons, IH. reflexivity.
Qed.

(** A text that does not begin with white space keeps its first
    character when stripped on the right. *)
Lemma lstrip_rstrip_head c r :
  isspace c = false -> lstrip (rstrip (String c r)) = rstrip (String c r).
Proof.
  intros Hc. rewrite rstrip_cons.
  destruct (rstrip r); rewrite ?Hc; cbn [lstrip]; rewrite Hc; reflexivity.
Qed.

Lemma lstrip_head s :
  lstrip s = EmptyString \/ exists c r, lstrip s = String c r /\ isspace c = false.
Proof.
  induction s as [| c r IH]; [left; reflexivity |].
  simpl. destruct (isspace c) eqn:Hc; [exact IH |].
  right. eauto.
Qed.

Lemma strip_idempotent s : strip (strip s) = strip s.
Proof.
  unfold strip.
  destruct (lstrip_head s) as [-> | (c & r & -> & Hc)]; [reflexivity |].
  rewrite lstrip_rstrip_head by exact Hc. apply rstrip_idempotent.
Qed.

(** Every value of the synonym table is an allowed status, and none of
    its keys is a word for a missing value. *)
Lemma STATUS_MAP_allowed low mapped :
  dict_get low STATUS_MAP = Some mapped -> elem mapped ALLOWED_STATUS = true.
Proof.
  unfold STATUS_MAP. cbn [dict_get].
  repeat (destruct (String.eqb _ low); [intros [= <-]; reflexivity |]).
  discriminate.
Qed.

Lemma STATUS_MAP_not_missing s mapped :
  dict_get (lower s) STATUS_MAP = Some mapped -> is_missing_word s = false.
Proof.
  intros Hget. unfold is_missing_word.
  destruct (String.eqb_spec s "") as [-> | _]; [discriminate Hget |].
  simpl. unfold elem. cbn [existsb].
  repeat match goal with
         | |- context [String.eqb (lower s) ?k] =>
             destruct (String.eqb_spec (lower s) k) as [Heq | _];
             [rewrite Heq in Hget; vm_compute in Hget; discriminate Hget |]
         end.
  reflexivity.
Qed.

Lemma clean_status_synonym v mapped :
  dict_get (lower (strip v)) STATUS_MAP = Some mapped ->
  _clean_status (Some v) = mapped.
Proof.
  intros Hget. unfold _clean_status.
  rewrite (STATUS_MAP_not_missing _ _ Hget), Hget. reflexivity.
Qed.

Lemma clean_status_missing v :
  is_missing_word (strip v) = true -> _clean_status (Some v) = "Pending".
Proof. intros Hm. unfold _clean_status. rewrite Hm. reflexivity. Qed.

Lemma clean_status_unknown v :
  is_missing_word (strip v) = false ->
  dict_get (lower (strip v)) STATUS_MAP = None ->
  _clean_status (Some v) = strip (title (strip v)).
Proof. intros Hm Hget. unfold _clean_status. rewrite Hm, Hget. reflexivity. Qed.

End NormalizerFacts.

(** ** The header of a group *)

Section HeaderFacts.
Import pytext pydatetime sqlite ui_settings_import.
Context `{PyFloat}.

(** What the loop over [COLMAP] leaves under one destination field: the
    value of the last listed source column the sheet has. *)
Fixpoint column_value (first : gmap string cell) (cols : list (string * string))
    (dst : string) (acc : option hval) : option hval :=
  match cols with
  | [] => acc
  | (src, d) :: rest =>
      column_value first rest dst
        (if String.eqb d dst
         then match first !! src with
              | Some c => Some (if elem d MONEY_FIELDS then HNum (_f c) else HStr (_s c))
              | None => acc
              end
         else acc)
  end.

Lemma fold_columns_lookup first dst cols : forall header : gmap string hval,
  fold_left (fun (header : gmap string hval) '(src, d) =>
    match first !! src with
    | Some c =>
        if elem d MONEY_FIELDS then <[d := HNum (_f c)]> header
        else <[d := HStr (_s c)]> header
    | None => header
    end) cols header !! dst
  = column_value first cols dst (header !! dst).
Proof.
  induction cols as [| [src d] rest IH]; intros header; [reflexivity |].
  cbn [fold_left column_value]. rewrite IH. f_equal.
  destruct (String.eqb_spec d dst) as [-> | Hne].
  - destruct (first !! src); [| reflexivity].
    destruct (elem dst MONEY_FIELDS); apply lookup_insert_eq.
  - destruct (first !! src); [| reflexivity].
    destruct (elem d MONEY_FIELDS); apply lookup_insert_ne; exact Hne.
Qed.

Lemma map_columns_status first :
  map_columns first !! "financial_status"
  = match first !! "Financial Status" with
    | Some c => Some (HStr (_s c))
    | None => None
    end.
Proof.
  unfold map_columns. rewrite fold_columns_lookup, lookup_empty.
  reflexivity.
Qed.

Lemma lookup_setdefault_ne k k' v (header : gmap string hval) :
  k <> k' -> setdefault k v header !! k' = header !! k'.
Proof.
  intros Hne. unfold setdefault.
  destruct (header !! k); [reflexivity |]. apply lookup_insert_ne. exact Hne.
Qed.

Lemma lookup_if_insert_ne (b : bool) k k' v (header : gmap string hval) :
  k <> k' -> (if b then <[k := v]> header else header) !! k' = header !! k'.
Proof. intros Hne. destruct b; [apply lookup_insert_ne; exact Hne | reflexivity]. Qed.

(** Names the values bound by the [let]s at the head of the left side of
    an equation, one after the other, without copying them. *)
Ltac name_lets Heq :=
  repeat lazymatch type of Heq with
         | (let x := ?v in @?body x) = ?r =>
             let y := fresh x in
             pose (y := v); change (body y = r) in Heq; cbv beta in Heq
         end.

(** The status a group's header ends with is the normalized status of
    its first row, [Pending] standing in for a sheet without the column. *)
Lemma header_status first rest combine_items header items :
  _header_from_group (first :: rest) combine_items = Some (header, items) ->
  header !! "financial_status"
  = Some (HStr (_clean_status
                  (Some (match first !! "Financial Status" with
                         | Some c => _s c
                         | None => "Pending"
                         end)))).
Proof.
  cbv beta iota delta [_header_from_group]. intros Heq. name_lets Heq.
  injection Heq as <- _.
  repeat match goal with
         | h := (if _ then <[_ := _]> _ else _) |- _ =>
             unfold h; clear h; rewrite lookup_if_insert_ne by discriminate
         end.
  match goal with h := <["vendor" := _]> _ |- _ => unfold h; clear h end.
  rewrite lookup_insert_ne by discriminate.
  match goal with h := <["financial_status" := _]> _ |- _ => unfold h; clear h end.
  rewrite lookup_insert_eq. do 3 f_equal.
  match goal with h := match _ !! "invoice_date" with _ => _ end |- _ =>
    unfold h; clear h end.
  f_equal.
  assert (header0 !! "financial_status"
          = match first !! "Financial Status" with
            | Some c => Some (HStr (_s c))
            | None => None
            end) as Hbase by apply map_columns_status.
  assert (header3 !! "financial_status" = header0 !! "financial_status") as Hkept.
  { unfold header3. rewrite lookup_setdefault_ne by discriminate.
    unfold header2. rewrite lookup_insert_ne by discriminate.
    unfold header1. apply lookup_setdefault_ne. discriminate. }
  destruct (header3 !! "invoice_date");
    rewrite ?lookup_insert_ne by discriminate;
    rewrite Hkept, Hbase; destruct (first !! "Financial Status"); reflexivity.
Qed.

(** The line a retained row gives, and the test that drops a row. *)
Definition line_of_row (r : gmap string cell) : item :=
  let qty := _f (row_get r "Lineitem quantity") in
  let p := _f (row_get r "Lineitem price") in
  mk_item (_s (row_get r "Lineitem sku")) (_s (row_get r "Lineitem name")) ""
          qty p (fmul qty p).

Definition zero_quantity (r : gmap string cell) : bool :=
  feqb (_f (row_get r "Lineitem quantity")) fzero.

Definition empty_name (r : gmap string cell) : bool :=
  isna (row_get r "Lineitem name").

Lemma add_line_items_spec g : forall items,
  fold_left add_line_item g items
  = items ++ List.map line_of_row
               (List.filter (fun r => negb (zero_quantity r && empty_name r)) g).
Proof.
  induction g as [| r g IH]; intros items; simpl.
  - rewrite app_nil_r. reflexivity.
  - rewrite IH. unfold add_line_item.
    change (feqb (_f (row_get r "Lineitem quantity")) fzero) with (zero_quantity r).
    change (isna (row_get r "Lineitem name")) with (empty_name r).
    destruct (zero_quantity r && empty_name r); simpl; [reflexivity |].
    rewrite <- app_assoc. reflexivity.
Qed.

Lemma filter_none_in {A} (p : A -> bool) (l : list A) :
  (forall x, In x l -> p x = false) -> List.filter p l = [].
Proof.
  induction l as [| x l IH]; intros Hall; [reflexivity |]. cbn [List.filter].
  rewrite (Hall x) by (left; reflexivity). apply IH.
  intros y Hy. apply Hall. right. exact Hy.
Qed.

Lemma header_items g combine_items header items :
  _header_from_group g combine_items = Some (header, items) ->
  let lines := fold_left add_line_item g [] in
  items = if combine_items && negb (is_empty lines)
          then _aggregate_items lines else lines.
Proof.
  destruct g as [| first rest]; [discriminate |].
  cbv beta iota delta [_header_from_group]. intros Heq. name_lets Heq.
  injection Heq as _ <-. reflexivity.
Qed.

(** *** Combining the lines of one key *)

(** The first line of each key, in the order of the lines. *)
Fixpoint first_of_keys (seen lines : list item) : list item :=
  match lines with
  | [] => []
  | it :: rest =>
      if existsb (fun o => same_key o it) seen then first_of_keys seen rest
      else it :: first_of_keys (seen ++ [it]) rest
  end.

(** The one line that stands for the lines [members] of a key: the
    code, name, unit and price of the last of them, their quantities and
    their totals added up from [0.0] in their order. *)
Definition combined_line (members : list item) (opener : item) : item :=
  let latest := List.last members opener in
  mk_item (product_code latest) (product_name latest) (unit latest)
          (fold_left fadd (List.map quantity members) fzero) (price latest)
          (fold_left fadd (List.map total_amount members) fzero).

(** The comparison of keys is an equivalence on the lines at hand, as it
    is whenever no price among them is a NaN. *)
Definition keys_comparable (lines : list item) : bool :=
  forallb (fun a =>
    same_key a a
    && forallb (fun b =>
         implb (same_key a b) (same_key b a)
         && forallb (fun c => implb (same_key a b && same_key b c) (same_key a c))
                    lines) lines) lines.

Definition key_equivalence (lines : list item) : Prop :=
  (forall a, In a lines -> same_key a a = true)
  /\ (forall a b, In a lines -> In b lines -> same_key a b = true -> same_key b a = true)
  /\ (forall a b c, In a lines -> In b lines -> In c lines ->
        same_key a b = true -> same_key b c = true -> same_key a c = true).

Lemma keys_comparable_spec lines :
  keys_comparable lines = true -> key_equivalence lines.
Proof.
  unfold keys_comparable. intros Hall.
  pose proof (proj1 (forallb_forall _ _) Hall) as Ha.
  split; [| split].
  - intros a Hin. specialize (Ha a Hin). apply andb_true_iff in Ha as [Hr _]. exact Hr.
  - intros a b Hina Hinb Hab. specialize (Ha a Hina).
    apply andb_true_iff in Ha as [_ Hb].
    pose proof (proj1 (forallb_forall _ _) Hb b Hinb) as Hb'.
    apply andb_true_iff in Hb' as [Hsym _]. rewrite Hab in Hsym. exact Hsym.
  - intros a b c Hina Hinb Hinc Hab Hbc. specialize (Ha a Hina).
    apply andb_true_iff in Ha as [_ Hb].
    pose proof (proj1 (forallb_forall _ _) Hb b Hinb) as Hb'.
    apply andb_true_iff in Hb' as [_ Hc].
    pose proof (proj1 (forallb_forall _ _) Hc c Hinc) as Hc'.
    rewrite Hab, Hbc in Hc'. exact Hc'.
Qed.

Lemma key_equivalence_prefix lines it :
  key_equivalence (lines ++ [it]) -> key_equivalence lines.
Proof.
  intros (Hr & Hs & Ht).
  assert (forall x, In x lines -> In x (lines ++ [it])) as Hin
    by (intros x Hx; apply in_or_app; left; exact Hx).
  split; [| split]; eauto 10.
Qed.

(** One more line of its key added to the line of a bucket, and the line
    of a bucket that a line opens. *)
Definition add_to_line (line it : item) : item :=
  mk_item (product_code it) (product_name it) (unit it)
          (fadd (quantity line) (quantity it)) (price it)
          (fadd (total_amount line) (total_amount it)).

Definition opening_line (it : item) : item :=
  mk_item (product_code it) (product_name it) (unit it)
          (fadd fzero (quantity it)) (price it) (fadd fzero (total_amount it)).

Lemma combined_line_more members it opener :
  combined_line (members ++ [it]) opener = add_to_line (combined_line members opener) it.
Proof.
  unfold combined_line, add_to_line. cbv zeta.
  rewrite List.last_last, !List.map_app, !fold_left_app. reflexivity.
Qed.

Lemma first_of_keys_more lines it : forall seen,
  first_of_keys seen (lines ++ [it])
  = first_of_keys seen lines
    ++ (if existsb (fun o => same_key o it) (seen ++ first_of_keys seen lines)
        then [] else [it]).
Proof.
  induction lines as [| x lines IH]; intros seen.
  - cbn [app first_of_keys]. rewrite app_nil_r.
    destruct (existsb _ seen); reflexivity.
  - cbn [app first_of_keys].
    destruct (existsb (fun o => same_key o x) seen).
    + apply IH.
    + rewrite IH. cbn [app]. rewrite <- app_assoc. reflexivity.
Qed.

Lemma first_of_keys_in lines : forall seen o,
  In o (first_of_keys seen lines) -> In o lines.
Proof.
  induction lines as [| x lines IH]; intros seen o; [intros [] |].
  cbn [first_of_keys]. destruct (existsb _ seen).
  - intros Hin. right. exact (IH _ _ Hin).
  - intros [<- | Hin]; [left; reflexivity | right; exact (IH _ _ Hin)].
Qed.

(** No line that opens a bucket has the key of one that opened a bucket
    before it. *)
Lemma first_of_keys_apart lines : forall seen pre o post,
  first_of_keys seen lines = pre ++ o :: post ->
  existsb (fun o' => same_key o' o) (seen ++ pre) = false.
Proof.
  induction lines as [| x lines IH]; intros seen pre o post.
  - destruct pre; discriminate.
  - cbn [first_of_keys]. destruct (existsb (fun o' => same_key o' x) seen) eqn:Hx.
    + apply IH.
    + destruct pre as [| p pre]; cbn [app].
      * intros [= <- _]. rewrite app_nil_r. exact Hx.
      * intros [= <- Hrest]. specialize (IH _ _ _ _ Hrest).
        rewrite <- app_assoc in IH. exact IH.
Qed.

(** Every line has the key of a line that opened a bucket. *)
Lemma first_of_keys_cover lines : forall seen x,
  (forall a, In a lines -> same_key a a = true) ->
  In x lines ->
  existsb (fun o => same_key o x) (seen ++ first_of_keys seen lines) = true.
Proof.
  induction lines as [| y lines IH]; intros seen x Hrefl; [intros [] |].
  assert (forall a, In a lines -> same_key a a = true) as Hrefl'
    by (intros a Ha; apply Hrefl; right; exact Ha).
  cbn [first_of_keys]. intros [-> | Hin].
  - destruct (existsb (fun o => same_key o x) seen) eqn:Hx.
    + rewrite existsb_app, Hx. reflexivity.
    + rewrite existsb_app. cbn [existsb]. rewrite (Hrefl x) by (left; reflexivity).
      rewrite orb_true_r. reflexivity.
  - destruct (existsb (fun o => same_key o y) seen).
    + apply IH; assumption.
    + specialize (IH (seen ++ [y]) x Hrefl' Hin).
      rewrite <- app_assoc in IH. exact IH.
Qed.

Lemma bucket_add_new it : forall buckets,
  existsb (fun o => same_key o it) (List.map fst buckets) = false ->
  bucket_add it buckets = buckets ++ [(it, opening_line it)].
Proof.
  induction buckets as [| [o line] rest IH]; [reflexivity |].
  cbn [List.map fst existsb bucket_add]. intros Hno.
  apply orb_false_iff in Hno as [-> Hrest]. rewrite (IH Hrest). reflexivity.
Qed.

Lemma bucket_add_old it o line post : forall pre,
  existsb (fun o' => same_key o' it) (List.map fst pre) = false ->
  same_key o it = true ->
  bucket_add it (pre ++ (o, line) :: post) = pre ++ (o, add_to_line line it) :: post.
Proof.
  induction pre as [| [o' line'] pre IH]; intros Hpre Ho.
  - cbn [app bucket_add]. rewrite Ho. reflexivity.
  - cbn [List.map fst existsb] in Hpre. apply orb_false_iff in Hpre as [Ho' Hpre].
    cbn [app bucket_add]. rewrite Ho'. f_equal. apply IH; assumption.
Qed.

Lemma existsb_first {A} (p : A -> bool) (l : list A) :
  existsb p l = true ->
  exists pre x post, l = pre ++ x :: post /\ existsb p pre = false /\ p x = true.
Proof.
  induction l as [| y l IH]; [discriminate |]. cbn [existsb].
  destruct (p y) eqn:Hy.
  - intros _. exists [], y, l. auto.
  - intros Hl. destruct (IH Hl) as (pre & x & post & -> & Hpre & Hx).
    exists (y :: pre), x, post. cbn [existsb app]. rewrite Hy. auto.
Qed.

(** The buckets after the lines of a group: one for the first line of
    each key, holding the combination of the lines of that key. *)
Lemma fold_buckets_spec lines :
  key_equivalence lines ->
  fold_left (fun bs it => bucket_add it bs) lines []
  = List.map (fun o => (o, combined_line (List.filter (same_key o) lines) o))
             (first_of_keys [] lines).
Proof.
  induction lines as [| it lines IH] using rev_ind; [reflexivity |].
  intros Heq. pose proof (key_equivalence_prefix _ _ Heq) as Heq'.
  specialize (IH Heq'). destruct Heq as (Hrefl & Hsym & Htrans).
  assert (In it (lines ++ [it])) as Hit by (apply in_or_app; right; left; reflexivity).
  assert (forall x, In x lines -> In x (lines ++ [it])) as Hin
    by (intros x Hx; apply in_or_app; left; exact Hx).
  assert (forall o, In o (first_of_keys [] lines) -> In o (lines ++ [it])) as Hopen
    by (intros o Ho; apply Hin, (first_of_keys_in _ _ _ Ho)).
  rewrite fold_left_app. cbn [fold_left]. rewrite IH, first_of_keys_more.
  cbn [app].
  assert (List.map fst
            (List.map (fun o => (o, combined_line (List.filter (same_key o) lines) o))
                      (first_of_keys [] lines)) = first_of_keys [] lines) as Hfst.
  { rewrite List.map_map. cbn [fst]. apply List.map_id. }
  destruct (existsb (fun o => same_key o it) (first_of_keys [] lines)) eqn:Hseen.
  - (* the line joins the bucket of its key *)
    rewrite app_nil_r.
    destruct (existsb_first _ _ Hseen) as (pre & o & post & Hsplit & Hpre & Ho).
    rewrite Hsplit, List.map_app. cbn [List.map].
    rewrite bucket_add_old;
      [| rewrite List.map_map; cbn [fst]; rewrite List.map_id; exact Hpre | exact Ho].
    rewrite List.map_app. cbn [List.map].
    assert (In o (first_of_keys [] lines)) as Hoin
      by (rewrite Hsplit; apply in_or_app; right; left; reflexivity).
    assert (forall o', In o' pre \/ In o' post -> same_key o' it = false) as Hother.
    { intros o' Ho'. destruct (same_key o' it) eqn:Hmatch; [| reflexivity]. exfalso.
      destruct Ho' as [Ho' | Ho'].
      - assert (existsb (fun x => same_key x it) pre = true) as Hyes
          by (apply existsb_exists; exists o'; auto).
        congruence.
      - apply in_split in Ho' as (q1 & q2 & ->).
        pose proof (first_of_keys_apart lines [] (pre ++ o :: q1) o' q2) as Hap.
        rewrite <- app_assoc in Hap. cbn [app] in Hap. specialize (Hap Hsplit).
        rewrite existsb_app in Hap. apply orb_false_iff in Hap as [_ Hap].
        cbn [existsb] in Hap. apply orb_false_iff in Hap as [Hap _].
        assert (In o' (first_of_keys [] lines)) as Ho'in.
        { rewrite Hsplit. apply in_or_app. right. right. apply in_or_app. right.
          left. reflexivity. }
        assert (same_key o o' = true) as Hoo'.
        { apply (Htrans o it o'); auto. }
        congruence. }
    f_equal; [| f_equal].
    + apply List.map_ext_in. intros o' Ho'. rewrite List.filter_app.
      cbn [List.filter]. rewrite (Hother o' (or_introl Ho')), app_nil_r. reflexivity.
    + rewrite List.filter_app. cbn [List.filter]. rewrite Ho.
      rewrite combined_line_more. reflexivity.
    + apply List.map_ext_in. intros o' Ho'. rewrite List.filter_app.
      cbn [List.filter]. rewrite (Hother o' (or_intror Ho')), app_nil_r. reflexivity.
  - (* the line opens a bucket *)
    rewrite bucket_add_new by (rewrite Hfst; exact Hseen).
    rewrite List.map_app. cbn [List.map]. f_equal.
    + apply List.map_ext_in. intros o Ho. rewrite List.filter_app. cbn [List.filter].
      assert (same_key o it = false) as ->.
      { destruct (same_key o it) eqn:Hmatch; [| reflexivity].
        assert (existsb (fun x => same_key x it) (first_of_keys [] lines) = true) as Hyes
          by (apply existsb_exists; exists o; auto).
        congruence. }
      rewrite app_nil_r. reflexivity.
    + rewrite List.filter_app. cbn [List.filter]. rewrite (Hrefl it Hit).
      assert (List.filter (same_key it) lines = []) as ->; [| reflexivity].
      apply filter_none_in. intros x Hx.
      destruct (same_key it x) eqn:Hmatch; [| reflexivity]. exfalso.
      pose proof (first_of_keys_cover lines [] x
                    (fun a Ha => Hrefl a (Hin a Ha)) Hx) as Hcover.
      cbn [app] in Hcover. apply existsb_exists in Hcover as (o & Ho & Hox).
      assert (same_key o it = true) as Hoit.
      { apply (Htrans o x it); auto. }
      assert (existsb (fun x => same_key x it) (first_of_keys [] lines) = true) as Hyes
        by (apply existsb_exists; exists o; auto).
      congruence.
Qed.

(** The lines of a group combined: one line for each key, in the order
    in which the keys first appear. *)
Lemma aggregate_items_spec lines :
  key_equivalence lines ->
  _aggregate_items lines
  = List.map (fun o => combined_line (List.filter (same_key o) lines) o)
             (first_of_keys [] lines).
Proof.
  intros Heq. unfold _aggregate_items. rewrite (fold_buckets_spec lines Heq).
  rewrite List.map_map. reflexivity.
Qed.

(** C9, as the code has it. Of the rows of a group, exactly those with a
    zero quantity and an empty product-name cell give no line; every
    other row gives, in the order of the sheet, one line whose total is
    the product of its quantity and its price. These lines are the items
    of the group when lines are not combined. When they are combined,
    the lines of one key (code, name, price, unit) become one item, in
    the order in which the keys first appear: its quantity is the sum of
    their quantities and its total the sum of their products, each added
    up from [0.0] in the order of the sheet, so that the total is a sum
    of products and not the product of the summed quantity and the
    price. *)
Theorem C9_rows_to_line_items :
  forall (g : list (gmap string cell)) (combine_items : bool)
         (header : gmap string hval) (items : list item),
    _header_from_group g combine_items = Some (header, items) ->
    let retained := List.filter (fun r => negb (zero_quantity r && empty_name r)) g in
    let lines := List.map line_of_row retained in
    fold_left add_line_item g [] = lines
    /\ (forall r, In r g ->
          (In r retained <-> ~ (zero_quantity r = true /\ empty_name r = true)))
    /\ Forall (fun it => total_amount it = fmul (quantity it) (price it)) lines
    /\ (combine_items = false -> items = lines)
    /\ (combine_items = true ->
        keys_comparable lines = true ->
        items = List.map (fun o => combined_line (List.filter (same_key o) lines) o)
                         (first_of_keys [] lines)
        /\ forall o,
             let members := List.filter (same_key o) lines in
             quantity (combined_line members o)
             = fold_left fadd (List.map quantity members) fzero
             /\ total_amount (combined_line members o)
                = fold_left fadd
                    (List.map (fun m => fmul (quantity m) (price m)) members) fzero).
Proof.
  intros g combine_items header items Hheader retained lines.
  assert (fold_left add_line_item g [] = lines) as Hlines
    by apply add_line_items_spec.
  pose proof (header_items g combine_items header items Hheader) as Hitems.
  cbv zeta in Hitems. rewrite Hlines in Hitems.
  assert (Forall (fun it => total_amount it = fmul (quantity it) (price it)) lines)
    as Hproducts.
  { unfold lines. apply List.Forall_forall. intros it Hin.
    apply in_map_iff in Hin as (r & <- & _). reflexivity. }
  split; [exact Hlines |]. split; [| split; [exact Hproducts | split]].
  - intros r Hin. unfold retained. rewrite filter_In. split.
    + intros [_ Hkeep] [Hq Hn]. rewrite Hq, Hn in Hkeep. discriminate.
    + intros Hnot. split; [exact Hin |].
      destruct (zero_quantity r) eqn:Hq; [| reflexivity].
      destruct (empty_name r) eqn:Hn; [| reflexivity].
      exfalso. apply Hnot. auto.
  - intros ->. exact Hitems.
  - intros -> Hkeys. split.
    + rewrite Hitems. cbn [andb].
      destruct lines as [| it rest] eqn:Hl; [reflexivity |]. cbn [is_empty negb].
      apply aggregate_items_spec, keys_comparable_spec. exact Hkeys.
    + intros o members. split; [reflexivity |].
      unfold combined_line. cbn [total_amount]. f_equal.
      apply List.map_ext_in. intros m Hm. unfold members in Hm.
      apply filter_In in Hm as [Hm _].
      exact (proj1 (List.Forall_forall _ _) Hproducts m Hm).
Qed.

End HeaderFacts.

(** ** The import loop *)

Section ImportFacts.
Import pytext pydatetime sqlite ui_settings_import.
Context `{PyFloat} `{SqliteText}.

(** The three gates a header passes before it is saved, and the invoice
    number it is saved under. *)
Definition passes_gates (header : gmap string hval) : bool :=
  elem (hval_text (header !! "financial_status") "") ALLOWED_STATUS
  && elem (hval_text (header !! "vendor") "") ALLOWED_VENDORS
  && negb (hval_falsy (header !! "invoice_no")).

Definition valid_group (combine_items : bool) (sub : list (gmap string cell)) : bool :=
  match _header_from_group sub combine_items with
  | Some (header, _) => passes_gates header
  | None => false
  end.

Definition group_invoice (combine_items : bool) (sub : list (gmap string cell))
    : option hval :=
  match _header_from_group sub combine_items with
  | Some (header, _) => header !! "invoice_no"
  | None => None
  end.

Definition has_invoice (inv : hval) (rows : list sales_row) : Prop :=
  is_Some (select_sale inv rows).

(** A table [sales] that takes what the import writes: it has the
    columns the loop names, no NOT NULL column to fill and no CHECK.
    The table [_ensure_schema] creates is one. *)
Definition plain_table (schema : table_schema) : bool :=
  elem "invoice_no" (table_info schema)
  && elem "receipt_number" (table_info schema)
  && is_empty (sc_required schema)
  && is_empty (sc_checks schema).

Lemma plain_table_declared : plain_table sales_declared = true.
Proof. reflexivity. Qed.

Lemma plain_table_facts schema :
  plain_table schema = true ->
  elem "invoice_no" (table_info schema) = true
  /\ elem "receipt_number" (table_info schema) = true
  /\ sc_required schema = [] /\ sc_checks schema = [].
Proof.
  unfold plain_table. intros Hp.
  apply andb_true_iff in Hp as [Hp Hc]. apply andb_true_iff in Hp as [Hp Hr].
  apply andb_true_iff in Hp as [Hi Hn].
  destruct (sc_required schema); [| discriminate].
  destruct (sc_checks schema); [| discriminate]. auto.
Qed.

Lemma clean_header_lookup cols (header : gmap string hval) k :
  elem k cols = true -> clean_header cols header !! k = header !! k.
Proof.
  intros Hk. unfold clean_header. destruct (header !! k) as [v |] eqn:Hv.
  - apply map_lookup_filter_Some. split; [exact Hv | exact Hk].
  - apply map_lookup_filter_None. left. exact Hv.
Qed.

Lemma clean_header_dropped cols (header : gmap string hval) k :
  elem k cols = false -> clean_header cols header !! k = None.
Proof.
  intros Hk. unfold clean_header. apply map_lookup_filter_None. right.
  intros v _. cbn. rewrite Hk. discriminate.
Qed.

Lemma missing_column_none named schema :
  (forall c, In c named -> elem c (table_info schema) = true) ->
  missing_column named schema = None.
Proof.
  intros Hall. unfold missing_column.
  induction named as [| c named IH]; [reflexivity |]. cbn [List.find].
  rewrite (Hall c) by (left; reflexivity). cbn [negb].
  apply IH. intros d Hd. apply Hall. right. exact Hd.
Qed.

Lemma missing_column_some named schema c :
  missing_column named schema = Some c ->
  In c named /\ elem c (table_info schema) = false.
Proof.
  unfold missing_column. intros Hfind. apply find_some in Hfind as [Hin Hc].
  apply negb_true_iff in Hc. auto.
Qed.

(** The row of [sales] the upsert of a header lands on. *)
Definition found_sale (db : app_db) (header : gmap string hval) : option sales_row :=
  match clean_header (table_info (sales_schema db)) header !! "invoice_no" with
  | Some inv => select_sale inv (sales db)
  | None => None
  end.

(** The exception [_save_order] raises for a header, if any. *)
Definition refusal (db : app_db) (header : gmap string hval) : option db_error :=
  match missing_column ["invoice_no"] (sales_schema db) with
  | Some c => Some (NoSuchColumn c)
  | None =>
      refused (sales_schema db) (clean_header (table_info (sales_schema db)) header)
              (found_sale db header)
  end.

Definition updated_row (fields : gmap string hval) (sid : Z) (s : sales_row)
    : sales_row :=
  if sale_id s =? sid then mk_sale (sale_id s) (fields ∪ sale_fields s) else s.

(** An exception of [_save_order] leaves the database as it was. *)
Lemma save_order_raises db header items e :
  refusal db header = Some e ->
  _save_order db header items = (inl e, db).
Proof.
  unfold refusal, found_sale, _save_order. cbv zeta.
  destruct (missing_column ["invoice_no"] (sales_schema db)) as [c |].
  - intros [= <-]. reflexivity.
  - intros ->. reflexivity.
Qed.

Lemma save_order_found db header items r :
  refusal db header = None ->
  found_sale db header = Some r ->
  let fields := clean_header (table_info (sales_schema db)) header in
  let kept := List.filter (fun i => negb (si_sale_id i =? sale_id r)) (sales_items db) in
  let first_id := next_rowid (sales_items_seq db) (List.map si_id kept) in
  _save_order db header items
  = (inr (sale_id r),
     mk_app_db (sales_schema db)
               (List.map (updated_row fields (sale_id r)) (sales db))
               (sales_seq db)
               (kept ++ item_rows first_id (sale_id r) 1 items)
               (if is_empty items then sales_items_seq db
                else first_id + Z.of_nat (length items) - 1)
               (sequences db)).
Proof.
  unfold refusal, found_sale, _save_order. cbv zeta.
  destruct (missing_column ["invoice_no"] (sales_schema db)); [discriminate |].
  intros -> ->. reflexivity.
Qed.

Lemma save_order_new db header items :
  refusal db header = None ->
  found_sale db header = None ->
  let fields := clean_header (table_info (sales_schema db)) header in
  let sid := next_rowid (sales_seq db) (List.map sale_id (sales db)) in
  let first_id := next_rowid (sales_items_seq db) (List.map si_id (sales_items db)) in
  _save_order db header items
  = (inr sid,
     mk_app_db (sales_schema db) (sales db ++ [mk_sale sid fields]) sid
               (sales_items db ++ item_rows first_id sid 1 items)
               (if is_empty items then sales_items_seq db
                else first_id + Z.of_nat (length items) - 1)
               (sequences db)).
Proof.
  unfold refusal, found_sale, _save_order. cbv zeta.
  destruct (missing_column ["invoice_no"] (sales_schema db)); [discriminate |].
  intros -> ->. reflexivity.
Qed.

(** [_save_order] never changes the declaration of the table. *)
Lemma save_order_schema db header items :
  sales_schema (snd (_save_order db header items)) = sales_schema db.
Proof.
  destruct (refusal db header) as [e |] eqn:Hr.
  - rewrite (save_order_raises _ _ _ _ Hr). reflexivity.
  - destruct (found_sale db header) as [r |] eqn:Hf.
    + rewrite (save_order_found _ _ _ _ Hr Hf). reflexivity.
    + rewrite (save_order_new _ _ _ Hr Hf). reflexivity.
Qed.

(** A plain table refuses no header that carries an invoice number. *)
Lemma refusal_plain db (header : gmap string hval) inv :
  plain_table (sales_schema db) = true ->
  header !! "invoice_no" = Some inv ->
  refusal db header = None
  /\ found_sale db header = select_sale inv (sales db).
Proof.
  intros Hplain Hinv.
  destruct (plain_table_facts _ Hplain) as (Hcol & _ & Hreq & Hchk).
  assert (clean_header (table_info (sales_schema db)) header !! "invoice_no" = Some inv)
    as Hfield by (rewrite clean_header_lookup by exact Hcol; exact Hinv).
  unfold refusal, found_sale. rewrite Hfield.
  rewrite missing_column_none
    by (intros c [<- | []]; exact Hcol).
  split; [| reflexivity].
  unfold refused. rewrite Hreq, Hchk. cbn [List.find].
  destruct (select_sale inv (sales db)); [reflexivity |].
  rewrite bool_decide_eq_false_2; [reflexivity |].
  intros Hempty. rewrite Hempty, lookup_empty in Hfield. discriminate.
Qed.

(** Table [sales] after [_save_order] on a plain table: the row of the
    invoice number takes the header's fields, or a new row is added. *)
Lemma save_order_sales db (header : gmap string hval) items inv :
  plain_table (sales_schema db) = true ->
  header !! "invoice_no" = Some inv ->
  let fields := clean_header (table_info (sales_schema db)) header in
  exists sid,
    fst (_save_order db header items) = inr sid
    /\ sales (snd (_save_order db header items))
       = match select_sale inv (sales db) with
         | Some r => List.map (updated_row fields (sale_id r)) (sales db)
         | None =>
             sales db
             ++ [mk_sale (next_rowid (sales_seq db) (List.map sale_id (sales db)))
                         fields]
         end.
Proof.
  intros Hplain Hinv fields.
  destruct (refusal_plain db header inv Hplain Hinv) as [Hr Hf].
  destruct (select_sale inv (sales db)) as [r |] eqn:Hsel.
  - rewrite (save_order_found _ _ _ _ Hr Hf). eexists. split; reflexivity.
  - rewrite (save_order_new _ _ _ Hr Hf). eexists. split; reflexivity.
Qed.

Lemma next_doc_no_sales cfg utcnow db when :
  sales (snd (_next_doc_no cfg utcnow db when)) = sales db
  /\ sales_seq (snd (_next_doc_no cfg utcnow db when)) = sales_seq db
  /\ sales_schema (snd (_next_doc_no cfg utcnow db when)) = sales_schema db.
Proof. repeat split. Qed.

(** Table [sales] after the upsert of [fields] under [inv]. *)
Definition upsert (inv : hval) (fields : gmap string hval) (seq : Z)
    (rows : list sales_row) : list sales_row :=
  match select_sale inv rows with
  | Some r =>
      List.map (fun s => if sale_id s =? sale_id r
                         then mk_sale (sale_id s) (fields ∪ sale_fields s)
                         else s) rows
  | None => rows ++ [mk_sale (next_rowid seq (List.map sale_id rows)) fields]
  end.

Lemma find_is_Some {A} (p : A -> bool) (l : list A) x :
  In x l -> p x = true -> is_Some (List.find p l).
Proof.
  intros Hin Hp. destruct (List.find p l) eqn:Hfind; [eauto |].
  pose proof (find_none p l Hfind x Hin). congruence.
Qed.

Lemma has_invoice_row inv rows :
  has_invoice inv rows <->
  exists r, In r rows /\ sale_fields r !! "invoice_no" = Some inv.
Proof.
  unfold has_invoice, select_sale. split.
  - intros [r Hfind]. apply find_some in Hfind as [Hin Hp].
    apply bool_decide_eq_true in Hp. eauto.
  - intros (r & Hin & Hp). apply (find_is_Some _ _ r Hin).
    apply bool_decide_eq_true. exact Hp.
Qed.

Lemma NoDup_same_id (rows : list sales_row) a b :
  NoDup (List.map sale_id rows) -> In a rows -> In b rows ->
  sale_id a = sale_id b -> a = b.
Proof.
  induction rows as [| r rows IH]; simpl; [tauto |].
  intros Hnd [-> | Ha] [-> | Hb] Hid; inversion Hnd as [| ? ? Hnotin Hrest]; subst.
  - reflexivity.
  - exfalso. apply Hnotin. rewrite Hid. apply list_elem_of_In, in_map. exact Hb.
  - exfalso. apply Hnotin. rewrite <- Hid. apply list_elem_of_In, in_map. exact Ha.
  - apply IH; assumption.
Qed.

Lemma upsert_has inv (fields : gmap string hval) seq rows :
  fields !! "invoice_no" = Some inv -> has_invoice inv (upsert inv fields seq rows).
Proof.
  intros Hf. apply has_invoice_row. unfold upsert.
  destruct (select_sale inv rows) as [r |] eqn:Hsel.
  - apply find_some in Hsel as [Hin _].
    exists (mk_sale (sale_id r) (fields ∪ sale_fields r)). split.
    + apply in_map_iff. exists r. rewrite Z.eqb_refl. auto.
    + simpl. apply lookup_union_Some_l. exact Hf.
  - eexists. split; [apply in_or_app; right; left; reflexivity | exact Hf].
Qed.

Lemma upsert_keeps inv (fields : gmap string hval) seq rows other :
  NoDup (List.map sale_id rows) ->
  fields !! "invoice_no" = Some inv ->
  has_invoice other rows -> has_invoice other (upsert inv fields seq rows).
Proof.
  intros Hnd Hf Hother. apply has_invoice_row in Hother as (r' & Hin' & Hp').
  apply has_invoice_row. unfold upsert.
  destruct (select_sale inv rows) as [r |] eqn:Hsel.
  - apply find_some in Hsel as [Hin Hp]. apply bool_decide_eq_true in Hp.
    destruct (Z.eqb_spec (sale_id r') (sale_id r)) as [Hid | Hid].
    + assert (r' = r) as -> by (apply (NoDup_same_id rows); assumption).
      assert (other = inv) as -> by congruence.
      exists (mk_sale (sale_id r) (fields ∪ sale_fields r)). split.
      * apply in_map_iff. exists r. rewrite Z.eqb_refl. auto.
      * simpl. apply lookup_union_Some_l. exact Hf.
    + exists r'. split; [| exact Hp'].
      apply in_map_iff. exists r'. split; [| exact Hin'].
      destruct (Z.eqb_spec (sale_id r') (sale_id r)); [contradiction | reflexivity].
  - exists r'. split; [apply in_or_app; left; exact Hin' | exact Hp'].
Qed.

Lemma upsert_ids_found inv (fields : gmap string hval) seq rows :
  has_invoice inv rows ->
  List.map sale_id (upsert inv fields seq rows) = List.map sale_id rows.
Proof.
  intros [r Hsel]. unfold upsert, has_invoice in *. rewrite Hsel.
  rewrite List.map_map. apply map_ext. intros s.
  destruct (sale_id s =? sale_id r); reflexivity.
Qed.

Lemma fold_max_bound (ids : list Z) x : In x ids -> x <= fold_right Z.max 0 ids.
Proof.
  induction ids as [| y ids IH]; simpl; [tauto |].
  intros [-> | Hin]; [lia |]. specialize (IH Hin). lia.
Qed.

Lemma upsert_NoDup inv (fields : gmap string hval) seq rows :
  NoDup (List.map sale_id rows) ->
  NoDup (List.map sale_id (upsert inv fields seq rows)).
Proof.
  intros Hnd. destruct (select_sale inv rows) as [r |] eqn:Hsel.
  - rewrite upsert_ids_found; [exact Hnd |]. unfold has_invoice. rewrite Hsel. eauto.
  - unfold upsert. rewrite Hsel, List.map_app. simpl.
    apply NoDup_app. split; [exact Hnd |]. split; [| apply NoDup_singleton].
    intros x Hx Hnew. apply list_elem_of_In in Hx.
    apply list_elem_of_In in Hnew. destruct Hnew as [<- | []].
    pose proof (fold_max_bound _ _ Hx). unfold next_rowid in *. lia.
Qed.

Lemma valid_group_invoice combine_items sub :
  valid_group combine_items sub = true ->
  exists inv, group_invoice combine_items sub = Some inv.
Proof.
  unfold valid_group, group_invoice, passes_gates.
  destruct (_header_from_group sub combine_items) as [[header items] |];
    [| discriminate].
  destruct (header !! "invoice_no") as [inv |]; [eauto |].
  rewrite andb_comm. discriminate.
Qed.

(** A group stopped at a gate, or without rows, leaves the application
    database as it was and counts as skipped. *)
Lemma import_group_not_valid cfg public_ip user combine_items utcnow w n gkey sub :
  valid_group combine_items sub = false ->
  let '(w', n') := import_group cfg public_ip user combine_items utcnow w n gkey sub in
  conn w' = conn w /\ imported n' = imported n /\ updated n' = updated n
  /\ skipped n' = skipped n + 1.
Proof.
  unfold valid_group, import_group, passes_gates.
  destruct (_header_from_group sub combine_items) as [[header items] |];
    [| intros _; simpl; auto].
  destruct (elem (hval_text (header !! "financial_status") "") ALLOWED_STATUS);
    [| intros _; simpl; auto].
  destruct (elem (hval_text (header !! "vendor") "") ALLOWED_VENDORS);
    [| intros _; simpl; auto].
  cbn [andb negb]. cbv zeta.
  destruct (header !! "invoice_no") as [inv |]; [| intros _; simpl; auto].
  destruct (hval_falsy (Some inv)); [intros _; simpl; auto | discriminate].
Qed.

(** The header and the database after the document number is drawn, if
    the sheet gave no receipt number. *)
Definition staged (cfg : settings) (utcnow : datetime) (db : app_db)
    (header : gmap string hval) : gmap string hval * app_db :=
  if hval_falsy (header !! "receipt_number") then
    (<["receipt_number" := HStr (fst (_next_doc_no cfg utcnow db None))]> header,
     snd (_next_doc_no cfg utcnow db None))
  else (header, db).

(** The header once the receipt number of the stored row, if it has one,
    has replaced its own. *)
Definition kept_receipt (found : option sales_row) (header : gmap string hval)
    : gmap string hval :=
  match found with
  | Some r =>
      match sale_fields r !! "receipt_number" with
      | Some v => if hval_falsy (Some v) then header else <["receipt_number" := v]> header
      | None => header
      end
  | None => header
  end.

(** What the loop does with a group whose header passes the three
    gates. *)
Lemma import_group_passed cfg public_ip user combine_items utcnow w n gkey sub
      header items inv :
  _header_from_group sub combine_items = Some (header, items) ->
  passes_gates header = true ->
  header !! "invoice_no" = Some inv ->
  let header1 := fst (staged cfg utcnow (conn w) header) in
  let db1 := snd (staged cfg utcnow (conn w) header) in
  import_group cfg public_ip user combine_items utcnow w n gkey sub
  = match select_receipt db1 inv with
    | inl e => failed w db1 n gkey e user public_ip
    | inr found =>
        let header2 := kept_receipt found header1 in
        match fst (_save_order db1 header2 items) with
        | inl e => failed w (snd (_save_order db1 header2 items)) n gkey e user public_ip
        | inr sale =>
            (mk_world (snd (_save_order db1 header2 items))
               (_audit_log (audit_log w)
                  (match found with Some _ => "update" | None => "insert" end)
                  (hval_str inv) (header2 !! "receipt_number") user public_ip
                  (SaleIdDetail sale)),
             match found with
             | Some _ => mk_summary (imported n) (updated n + 1) (skipped n) (issues n)
             | None => mk_summary (imported n + 1) (updated n) (skipped n) (issues n)
             end)
        end
    end.
Proof.
  intros Heq Hgates Hinv header1 db1. unfold passes_gates in Hgates.
  apply andb_true_iff in Hgates as [Hgates Hinv_ok].
  apply andb_true_iff in Hgates as [Hstatus Hvendor].
  rewrite Hinv in Hinv_ok. apply negb_true_iff in Hinv_ok.
  unfold import_group. rewrite Heq. cbv zeta.
  rewrite Hstatus, Hvendor. cbn [negb]. rewrite Hinv, Hinv_ok.
  unfold header1, db1, staged, kept_receipt.
  destruct (hval_falsy (header !! "receipt_number"));
    [destruct (_next_doc_no cfg utcnow (conn w) None) as [doc_no db] |];
    cbn [fst snd];
    (match goal with
     | |- context [select_receipt ?d inv] => destruct (select_receipt d inv) as [e | found]
     end; [reflexivity |]);
    (match goal with
     | |- context [_save_order ?d ?h ?i] =>
         destruct (_save_order d h i) as [[e | sale] db2]
     end; cbn [fst snd]; [reflexivity |]);
    destruct found; reflexivity.
Qed.

Lemma staged_facts cfg utcnow db (header : gmap string hval) :
  fst (staged cfg utcnow db header) !! "invoice_no" = header !! "invoice_no"
  /\ sales (snd (staged cfg utcnow db header)) = sales db
  /\ sales_seq (snd (staged cfg utcnow db header)) = sales_seq db
  /\ sales_schema (snd (staged cfg utcnow db header)) = sales_schema db
  /\ sales_items (snd (staged cfg utcnow db header)) = sales_items db
  /\ sales_items_seq (snd (staged cfg utcnow db header)) = sales_items_seq db.
Proof.
  unfold staged. destruct (hval_falsy (header !! "receipt_number")); cbn [fst snd].
  - rewrite lookup_insert_ne by discriminate. repeat split.
  - repeat split.
Qed.

Lemma kept_receipt_invoice found (header : gmap string hval) :
  kept_receipt found header !! "invoice_no" = header !! "invoice_no".
Proof.
  unfold kept_receipt. destruct found as [r |]; [| reflexivity].
  destruct (sale_fields r !! "receipt_number") as [v |]; [| reflexivity].
  destruct (hval_falsy (Some v)); [reflexivity |].
  apply lookup_insert_ne. discriminate.
Qed.

Lemma select_receipt_plain db inv :
  plain_table (sales_schema db) = true ->
  select_receipt db inv = inr (select_sale inv (sales db)).
Proof.
  intros Hplain. destruct (plain_table_facts _ Hplain) as (Hi & Hr & _).
  unfold select_receipt. rewrite missing_column_none; [reflexivity |].
  intros c [<- | [<- | [<- | []]]]; [reflexivity | exact Hr | exact Hi].
Qed.

(** One turn of the loop on a plain table, in terms of [upsert]: the
    group is saved when it passes the gates. *)
Lemma import_group_turn cfg public_ip user combine_items utcnow w n gkey sub :
  plain_table (sales_schema (conn w)) = true ->
  let '(w', n') := import_group cfg public_ip user combine_items utcnow w n gkey sub in
  sales_schema (conn w') = sales_schema (conn w)
  /\ if valid_group combine_items sub then
       exists inv fields,
         group_invoice combine_items sub = Some inv
         /\ fields !! "invoice_no" = Some inv
         /\ sales (conn w') = upsert inv fields (sales_seq (conn w)) (sales (conn w))
         /\ skipped n' = skipped n
         /\ (imported n', updated n')
            = match select_sale inv (sales (conn w)) with
              | Some _ => (imported n, updated n + 1)
              | None => (imported n + 1, updated n)
              end
     else
       conn w' = conn w /\ imported n' = imported n /\ updated n' = updated n
       /\ skipped n' = skipped n + 1.
Proof.
  intros Hplain.
  destruct (valid_group combine_items sub) eqn:Hvalid.
  - destruct (valid_group_invoice _ _ Hvalid) as [inv Hinv].
    unfold valid_group, group_invoice in Hvalid, Hinv.
    destruct (_header_from_group sub combine_items) as [[header items] |] eqn:Heq;
      [| discriminate].
    rewrite (import_group_passed cfg public_ip user combine_items utcnow w n gkey sub
               header items inv Heq Hvalid Hinv). cbv zeta.
    destruct (staged_facts cfg utcnow (conn w) header)
      as (Hst1 & Hst2 & Hst3 & Hst4 & _).
    set (header1 := fst (staged cfg utcnow (conn w) header)) in *.
    set (db1 := snd (staged cfg utcnow (conn w) header)) in *.
    assert (plain_table (sales_schema db1) = true) as Hplain1
      by (rewrite Hst4; exact Hplain).
    rewrite (select_receipt_plain db1 inv Hplain1), Hst2.
    set (header2 := kept_receipt (select_sale inv (sales (conn w))) header1).
    assert (header2 !! "invoice_no" = Some inv) as Hh2
      by (unfold header2; rewrite kept_receipt_invoice, Hst1; exact Hinv).
    destruct (save_order_sales db1 header2 items inv Hplain1 Hh2) as (sid & Hsid & Hsales).
    pose proof (save_order_schema db1 header2 items) as Hschema.
    rewrite Hsid. cbn [conn imported updated skipped].
    split; [rewrite Hschema; exact Hst4 |].
    exists inv, (clean_header (table_info (sales_schema db1)) header2).
    split; [unfold group_invoice; rewrite Heq; exact Hinv |].
    split; [rewrite clean_header_lookup
              by (apply (plain_table_facts _ Hplain1)); exact Hh2 |].
    split; [rewrite Hsales, Hst2, Hst3; reflexivity |].
    destruct (select_sale inv (sales (conn w))); split; reflexivity.
  - pose proof (import_group_not_valid cfg public_ip user combine_items utcnow w n gkey
                  sub Hvalid) as Hturn.
    destruct (import_group _ _ _ _ _ _ _ _ _) as [w' n'].
    destruct Hturn as (Hconn & Hrest). split; [rewrite Hconn; reflexivity |].
    split; [exact Hconn | exact Hrest].
Qed.

(** One turn of the loop on a table that lacks a column the loop names:
    whatever the group, it counts as skipped and the tables stay as they
    were. *)
Lemma import_group_blocked cfg public_ip user combine_items utcnow w n gkey sub c :
  missing_column ["id"; "receipt_number"; "invoice_no"] (sales_schema (conn w)) = Some c ->
  let '(w', n') := import_group cfg public_ip user combine_items utcnow w n gkey sub in
  sales_schema (conn w') = sales_schema (conn w)
  /\ sales (conn w') = sales (conn w)
  /\ sales_items (conn w') = sales_items (conn w)
  /\ imported n' = imported n /\ updated n' = updated n
  /\ skipped n' = skipped n + 1.
Proof.
  intros Hmissing.
  destruct (valid_group combine_items sub) eqn:Hvalid.
  - destruct (valid_group_invoice _ _ Hvalid) as [inv Hinv].
    unfold valid_group, group_invoice in Hvalid, Hinv.
    destruct (_header_from_group sub combine_items) as [[header items] |] eqn:Heq;
      [| discriminate].
    rewrite (import_group_passed cfg public_ip user combine_items utcnow w n gkey sub
               header items inv Heq Hvalid Hinv). cbv zeta.
    destruct (staged_facts cfg utcnow (conn w) header)
      as (_ & Hst2 & _ & Hst4 & Hst5 & _).
    unfold select_receipt. rewrite Hst4, Hmissing.
    unfold failed, skip. cbn [conn imported updated skipped fst snd].
    repeat split; assumption.
  - pose proof (import_group_not_valid cfg public_ip user combine_items utcnow w n gkey
                  sub Hvalid) as Hturn.
    destruct (import_group _ _ _ _ _ _ _ _ _) as [w' n'].
    destruct Hturn as (-> & Hi & Hu & Hs). repeat split; assumption.
Qed.

Definition count_valid (combine_items : bool)
    (groups : list (cell * list (gmap string cell))) : Z :=
  Z.of_nat (length (List.filter (fun g => valid_group combine_items g.2) groups)).

Lemma count_valid_cons combine_items gkey sub rest :
  count_valid combine_items ((gkey, sub) :: rest)
  = (if valid_group combine_items sub then 1 else 0) + count_valid combine_items rest.
Proof.
  unfold count_valid. simpl. destruct (valid_group combine_items sub); simpl; lia.
Qed.

(** After a run on a plain table, table [sales] holds the invoice number
    of every valid group of the sheet, and every one it held before; the
    keys stay distinct; the counters add up to the groups. *)
Lemma import_groups_run cfg public_ip user combine_items utcnow groups :
  forall turn w n,
    plain_table (sales_schema (conn w)) = true ->
    NoDup (List.map sale_id (sales (conn w))) ->
    let '(w', n') :=
      import_groups cfg public_ip user combine_items utcnow turn w n groups in
    sales_schema (conn w') = sales_schema (conn w)
    /\ NoDup (List.map sale_id (sales (conn w')))
    /\ (forall inv, has_invoice inv (sales (conn w)) ->
                    has_invoice inv (sales (conn w')))
    /\ (forall gkey sub inv,
          In (gkey, sub) groups -> valid_group combine_items sub = true ->
          group_invoice combine_items sub = Some inv ->
          has_invoice inv (sales (conn w')))
    /\ imported n' + updated n' = imported n + updated n + count_valid combine_items groups
    /\ skipped n' = skipped n + Z.of_nat (length groups)
                    - count_valid combine_items groups.
Proof.
  induction groups as [| [gkey sub] rest IH]; intros turn w n Hplain Hnd.
  - simpl. unfold count_valid. simpl. repeat split; auto; try lia; try tauto.
  - cbn [import_groups].
    pose proof (import_group_turn cfg public_ip user combine_items (utcnow turn) w n
                  gkey sub Hplain) as Hturn.
    destruct (import_group _ _ _ _ _ _ _ _ _) as [w1 n1].
    destruct Hturn as [Hschema1 Hturn].
    assert (NoDup (List.map sale_id (sales (conn w1)))
            /\ (forall inv, has_invoice inv (sales (conn w)) ->
                            has_invoice inv (sales (conn w1)))
            /\ (forall inv, valid_group combine_items sub = true ->
                            group_invoice combine_items sub = Some inv ->
                            has_invoice inv (sales (conn w1)))
            /\ imported n1 + updated n1
               = imported n + updated n
                 + (if valid_group combine_items sub then 1 else 0)
            /\ skipped n1
               = skipped n + (if valid_group combine_items sub then 0 else 1))
      as (Hnd1 & Hkeep1 & Hnew1 & Hsum1 & Hskip1).
    { destruct (valid_group combine_items sub).
      - destruct Hturn as (inv & fields & Hinv & Hf & Hsales & Hskip & Hcount).
        rewrite Hsales. split; [apply upsert_NoDup; exact Hnd |].
        split; [intros other; apply upsert_keeps; assumption |].
        split; [intros inv' _ Hinv'; assert (inv' = inv) as -> by congruence;
                apply upsert_has; exact Hf |].
        split; [| lia].
        destruct (select_sale inv (sales (conn w))); injection Hcount as -> ->; lia.
      - destruct Hturn as (-> & -> & -> & ->).
        repeat split; auto; try lia; try discriminate. }
    assert (plain_table (sales_schema (conn w1)) = true) as Hplain1
      by (rewrite Hschema1; exact Hplain).
    specialize (IH (S turn) w1 n1 Hplain1 Hnd1).
    destruct (import_groups _ _ _ _ _ _ _ _ _) as [w' n'].
    destruct IH as (Hschema' & Hnd' & Hkeep' & Hnew' & Hsum' & Hskip').
    split; [congruence |]. split; [exact Hnd' |]. split; [auto |].
    rewrite count_valid_cons.
    split; [| cbn [length]; destruct (valid_group combine_items sub); lia].
    intros k s inv [Heq | Hin] Hvalid Hinv.
    + injection Heq as <- <-. apply Hkeep'. apply Hnew1; assumption.
    + apply (Hnew' k s inv); assumption.
Qed.

(** A run on a plain table over groups whose invoice numbers table
    [sales] already holds inserts nothing: every valid group counts as
    updated. *)
Lemma import_groups_rerun cfg public_ip user combine_items utcnow groups :
  forall turn w n,
    plain_table (sales_schema (conn w)) = true ->
    NoDup (List.map sale_id (sales (conn w))) ->
    (forall gkey sub inv,
       In (gkey, sub) groups -> valid_group combine_items sub = true ->
       group_invoice combine_items sub = Some inv ->
       has_invoice inv (sales (conn w))) ->
    let '(w', n') :=
      import_groups cfg public_ip user combine_items utcnow turn w n groups in
    imported n' = imported n
    /\ updated n' = updated n + count_valid combine_items groups
    /\ List.map sale_id (sales (conn w')) = List.map sale_id (sales (conn w)).
Proof.
  induction groups as [| [gkey sub] rest IH]; intros turn w n Hplain Hnd Hheld.
  - simpl. unfold count_valid. simpl. repeat split; lia.
  - cbn [import_groups].
    pose proof (import_group_turn cfg public_ip user combine_items (utcnow turn) w n
                  gkey sub Hplain) as Hturn.
    destruct (import_group _ _ _ _ _ _ _ _ _) as [w1 n1].
    destruct Hturn as [Hschema1 Hturn].
    assert (NoDup (List.map sale_id (sales (conn w1)))
            /\ (forall inv, has_invoice inv (sales (conn w)) ->
                            has_invoice inv (sales (conn w1)))
            /\ imported n1 = imported n
            /\ updated n1 = updated n + (if valid_group combine_items sub then 1 else 0)
            /\ List.map sale_id (sales (conn w1)) = List.map sale_id (sales (conn w)))
      as (Hnd1 & Hkeep1 & Himp1 & Hupd1 & Hids1).
    { destruct (valid_group combine_items sub) eqn:Hvalid.
      - destruct Hturn as (inv & fields & Hinv & Hf & Hsales & Hskip & Hcnt).
        pose proof (Hheld gkey sub inv (or_introl eq_refl) Hvalid Hinv) as Hhas.
        rewrite Hsales. split; [apply upsert_NoDup; exact Hnd |].
        split; [intros other; apply upsert_keeps; assumption |].
        destruct Hhas as [r Hsel]. rewrite Hsel in Hcnt. injection Hcnt as -> ->.
        split; [reflexivity |]. split; [reflexivity |].
        apply upsert_ids_found. unfold has_invoice. rewrite Hsel. eauto.
      - destruct Hturn as (-> & -> & -> & _). repeat split; auto. lia. }
    assert (plain_table (sales_schema (conn w1)) = true) as Hplain1
      by (rewrite Hschema1; exact Hplain).
    specialize (IH (S turn) w1 n1 Hplain1 Hnd1).
    destruct (import_groups _ _ _ _ _ _ _ _ _) as [w' n'].
    destruct IH as (Himp' & Hupd' & Hids').
    { intros k s inv Hin Hvalid Hinv. apply Hkeep1.
      apply (Hheld k s inv); [right; exact Hin | assumption | assumption]. }
    rewrite count_valid_cons. repeat split; [lia | lia | congruence].
Qed.

(** A run on a table that lacks a column the loop names saves nothing:
    every group counts as skipped, and the tables stay as they were. *)
Lemma import_groups_blocked cfg public_ip user combine_items utcnow groups c :
  forall turn w n,
    missing_column ["id"; "receipt_number"; "invoice_no"] (sales_schema (conn w))
      = Some c ->
    let '(w', n') :=
      import_groups cfg public_ip user combine_items utcnow turn w n groups in
    sales_schema (conn w') = sales_schema (conn w)
    /\ sales (conn w') = sales (conn w)
    /\ sales_items (conn w') = sales_items (conn w)
    /\ imported n' = imported n /\ updated n' = updated n
    /\ skipped n' = skipped n + Z.of_nat (length groups).
Proof.
  induction groups as [| [gkey sub] rest IH]; intros turn w n Hmissing.
  - cbn. repeat split; lia.
  - cbn [import_groups].
    pose proof (import_group_blocked cfg public_ip user combine_items (utcnow turn) w n
                  gkey sub c Hmissing) as Hturn.
    destruct (import_group _ _ _ _ _ _ _ _ _) as [w1 n1].
    destruct Hturn as (Hs1 & Hr1 & Hi1 & Himp1 & Hupd1 & Hskip1).
    assert (missing_column ["id"; "receipt_number"; "invoice_no"]
              (sales_schema (conn w1)) = Some c) as Hmissing1
      by (rewrite Hs1; exact Hmissing).
    specialize (IH (S turn) w1 n1 Hmissing1).
    destruct (import_groups _ _ _ _ _ _ _ _ _) as [w' n'].
    destruct IH as (Hs' & Hr' & Hi' & Himp' & Hupd' & Hskip').
    cbn [length]. repeat split; try congruence; lia.
Qed.

Lemma find_map_in {A} (p : A -> bool) (f : A -> A) (l : list A) :
  (forall x, In x l -> p (f x) = p x) ->
  List.find p (List.map f l) = option_map f (List.find p l).
Proof.
  induction l as [| x l IH]; intros Hsame; [reflexivity |].
  cbn [List.map List.find]. rewrite (Hsame x) by (left; reflexivity).
  destruct (p x); [reflexivity |]. apply IH.
  intros y Hy. apply Hsame. right. exact Hy.
Qed.

Lemma find_app_last {A} (p : A -> bool) (l : list A) x :
  List.find p l = None -> p x = true -> List.find p (l ++ [x]) = Some x.
Proof.
  induction l as [| y l IH]; simpl; intros Hnone Hx; [rewrite Hx; reflexivity |].
  destruct (p y); [discriminate |]. apply IH; assumption.
Qed.

Lemma select_after_update inv (fields : gmap string hval) rows r :
  NoDup (List.map sale_id rows) ->
  select_sale inv rows = Some r ->
  fields !! "invoice_no" = Some inv ->
  select_sale inv (List.map (updated_row fields (sale_id r)) rows)
  = Some (mk_sale (sale_id r) (fields ∪ sale_fields r)).
Proof.
  intros Hids Hsel Hf. pose proof Hsel as Hfound.
  unfold select_sale in Hfound. apply find_some in Hfound as [Hrin Hrinv].
  apply bool_decide_eq_true in Hrinv.
  unfold select_sale in *. rewrite find_map_in.
  - rewrite Hsel. cbn [option_map]. unfold updated_row. rewrite Z.eqb_refl. reflexivity.
  - intros s Hs. unfold updated_row.
    destruct (Z.eqb_spec (sale_id s) (sale_id r)) as [Hid | _]; [| reflexivity].
    assert (s = r) as -> by (apply (NoDup_same_id rows); assumption).
    cbn [sale_fields].
    rewrite !bool_decide_eq_true_2;
      [reflexivity | exact Hrinv | apply lookup_union_Some_l; exact Hf].
Qed.

(** *** The headers after a second run *)

(** The header of a group is on its row: the row of its invoice number
    holds a receipt number, and every column the header gives holds the
    header's value, the receipt number apart. *)
Definition settled (cols : list string) (rows : list sales_row)
    (header : gmap string hval) (inv : hval) : Prop :=
  exists r v,
    select_sale inv rows = Some r
    /\ sale_fields r !! "receipt_number" = Some v
    /\ hval_falsy (Some v) = false
    /\ clean_header cols (<["receipt_number" := v]> header) ⊆ sale_fields r.

(** The invoice numbers of the groups that pass the gates, in the order
    of the groups. *)
Fixpoint valid_invoices (combine_items : bool)
    (groups : list (cell * list (gmap string cell))) : list hval :=
  match groups with
  | [] => []
  | (_, sub) :: rest =>
      if valid_group combine_items sub then
        match group_invoice combine_items sub with
        | Some inv => inv :: valid_invoices combine_items rest
        | None => valid_invoices combine_items rest
        end
      else valid_invoices combine_items rest
  end.

Lemma next_doc_no_truthy cfg utcnow db when :
  hval_falsy (Some (HStr (fst (_next_doc_no cfg utcnow db when)))) = false.
Proof.
  unfold _next_doc_no. cbv zeta. cbn [fst hval_falsy].
  destruct (DOC_PREFIX cfg); reflexivity.
Qed.

(** The header the loop saves is the group's header under a receipt
    number: that of the stored row when it has one, else the sheet's,
    else the document number drawn. *)
Lemma kept_receipt_staged cfg utcnow db (header : gmap string hval) found :
  exists v,
    hval_falsy (Some v) = false
    /\ kept_receipt found (fst (staged cfg utcnow db header))
       = <["receipt_number" := v]> header
    /\ (forall r rn, found = Some r -> sale_fields r !! "receipt_number" = Some rn ->
                     hval_falsy (Some rn) = false -> v = rn).
Proof.
  assert (exists v1, hval_falsy (Some v1) = false
                     /\ fst (staged cfg utcnow db header)
                        = <["receipt_number" := v1]> header) as (v1 & Hv1 & Hst).
  { unfold staged. destruct (hval_falsy (header !! "receipt_number")) eqn:Hf.
    - eexists. split; [apply next_doc_no_truthy | reflexivity].
    - destruct (header !! "receipt_number") as [v0 |] eqn:Hv0; [| discriminate].
      exists v0. split; [exact Hf |]. cbn [fst]. symmetry. apply insert_id. exact Hv0. }
  rewrite Hst. unfold kept_receipt.
  destruct found as [r |].
  - destruct (sale_fields r !! "receipt_number") as [rn |] eqn:Hrn.
    + destruct (hval_falsy (Some rn)) eqn:Hfalsy.
      * exists v1. split; [exact Hv1 |]. split; [reflexivity |].
        intros r' rn' [= <-] Hrn' Hok. congruence.
      * exists rn. split; [exact Hfalsy |]. split; [apply insert_insert_eq |].
        intros r' rn' [= <-] Hrn' _. congruence.
    + exists v1. split; [exact Hv1 |]. split; [reflexivity |].
      intros r' rn' [= <-] Hrn' _. congruence.
  - exists v1. split; [exact Hv1 |]. split; [reflexivity |]. discriminate.
Qed.

(** One turn of the loop on a plain table, for a group that passes the
    gates: the upsert of the header under the receipt number kept. *)
Lemma import_group_upsert cfg public_ip user combine_items utcnow w n gkey sub
      header items inv :
  plain_table (sales_schema (conn w)) = true ->
  _header_from_group sub combine_items = Some (header, items) ->
  passes_gates header = true ->
  header !! "invoice_no" = Some inv ->
  let result := import_group cfg public_ip user combine_items utcnow w n gkey sub in
  exists v,
    hval_falsy (Some v) = false
    /\ (forall r rn, select_sale inv (sales (conn w)) = Some r ->
                     sale_fields r !! "receipt_number" = Some rn ->
                     hval_falsy (Some rn) = false -> v = rn)
    /\ sales (conn (fst result))
       = upsert inv
           (clean_header (table_info (sales_schema (conn w)))
              (<["receipt_number" := v]> header))
           (sales_seq (conn w)) (sales (conn w))
    /\ sales_schema (conn (fst result)) = sales_schema (conn w).
Proof.
  intros Hplain Heq Hgates Hinv result. unfold result.
  rewrite (import_group_passed cfg public_ip user combine_items utcnow w n gkey sub
             header items inv Heq Hgates Hinv). cbv zeta.
  destruct (staged_facts cfg utcnow (conn w) header)
    as (Hst1 & Hst2 & Hst3 & Hst4 & _).
  destruct (kept_receipt_staged cfg utcnow (conn w) header
              (select_sale inv (sales (conn w)))) as (v & Hv & Hkept & Hsame).
  set (db1 := snd (staged cfg utcnow (conn w) header)) in *.
  assert (plain_table (sales_schema db1) = true) as Hplain1
    by (rewrite Hst4; exact Hplain).
  rewrite (select_receipt_plain db1 inv Hplain1), Hst2, Hkept.
  assert ((<["receipt_number" := v]> header) !! "invoice_no" = Some inv) as Hh2
    by (rewrite lookup_insert_ne by discriminate; exact Hinv).
  destruct (save_order_sales db1 _ items inv Hplain1 Hh2) as (sid & Hsid & Hsales).
  pose proof (save_order_schema db1 (<["receipt_number" := v]> header) items) as Hschema.
  rewrite Hsid. cbn [fst conn].
  exists v. split; [exact Hv |]. split; [exact Hsame |].
  split; [rewrite Hsales, Hst2, Hst3, Hst4; reflexivity |].
  rewrite Hschema. exact Hst4.
Qed.

(** The upsert of fields the row already holds changes nothing. *)
Lemma upsert_settled inv (fields : gmap string hval) seq rows r :
  NoDup (List.map sale_id rows) ->
  select_sale inv rows = Some r ->
  fields ⊆ sale_fields r ->
  upsert inv fields seq rows = rows.
Proof.
  intros Hids Hsel Hsub. unfold upsert. rewrite Hsel.
  apply find_some in Hsel as [Hrin _].
  rewrite <- (List.map_id rows) at 2. apply map_ext_in. intros s Hs.
  destruct (Z.eqb_spec (sale_id s) (sale_id r)) as [Hid | _]; [| reflexivity].
  assert (s = r) as -> by (apply (NoDup_same_id rows); assumption).
  rewrite (map_subseteq_union _ _ Hsub). destruct r; reflexivity.
Qed.

(** After the upsert of a header under a receipt number, the header is
    on its row. *)
Lemma upsert_settles cols inv (header : gmap string hval) v seq rows :
  NoDup (List.map sale_id rows) ->
  elem "invoice_no" cols = true ->
  elem "receipt_number" cols = true ->
  header !! "invoice_no" = Some inv ->
  hval_falsy (Some v) = false ->
  settled cols
    (upsert inv (clean_header cols (<["receipt_number" := v]> header)) seq rows)
    header inv.
Proof.
  intros Hids Hcol_inv Hcol_rn Hinv Hv.
  set (fields := clean_header cols (<["receipt_number" := v]> header)).
  assert (fields !! "invoice_no" = Some inv) as Hf_inv.
  { unfold fields. rewrite clean_header_lookup by exact Hcol_inv.
    rewrite lookup_insert_ne by discriminate. exact Hinv. }
  assert (fields !! "receipt_number" = Some v) as Hf_rn.
  { unfold fields. rewrite clean_header_lookup by exact Hcol_rn.
    apply lookup_insert_eq. }
  unfold settled, upsert.
  destruct (select_sale inv rows) as [r |] eqn:Hsel.
  - exists (mk_sale (sale_id r) (fields ∪ sale_fields r)), v.
    split; [apply (select_after_update inv fields rows r Hids Hsel Hf_inv) |].
    cbn [sale_fields]. split; [apply lookup_union_Some_l; exact Hf_rn |].
    split; [exact Hv | apply map_union_subseteq_l].
  - eexists (mk_sale _ fields), v. split.
    + apply find_app_last; [exact Hsel |].
      apply bool_decide_eq_true. exact Hf_inv.
    + cbn [sale_fields]. split; [exact Hf_rn |]. split; [exact Hv | reflexivity].
Qed.

(** The upsert of one invoice number leaves the row of another as it
    was. *)
Lemma upsert_other inv (fields : gmap string hval) seq rows other r :
  NoDup (List.map sale_id rows) ->
  fields !! "invoice_no" = Some inv ->
  other <> inv ->
  select_sale other rows = Some r ->
  select_sale other (upsert inv fields seq rows) = Some r.
Proof.
  intros Hids Hf Hother Hsel. pose proof Hsel as Hfound.
  apply find_some in Hfound as [Hrin Hrinv]. apply bool_decide_eq_true in Hrinv.
  unfold upsert. destruct (select_sale inv rows) as [r0 |] eqn:Hsel0.
  - pose proof Hsel0 as Hfound0.
    apply find_some in Hfound0 as [Hr0in Hr0inv]. apply bool_decide_eq_true in Hr0inv.
    unfold select_sale in *. rewrite find_map_in.
    + rewrite Hsel. cbn [option_map].
      destruct (Z.eqb_spec (sale_id r) (sale_id r0)) as [Hid | _]; [| reflexivity].
      assert (r = r0) as -> by (apply (NoDup_same_id rows); assumption).
      congruence.
    + intros s Hs.
      destruct (Z.eqb_spec (sale_id s) (sale_id r0)) as [Hid | _]; [| reflexivity].
      assert (s = r0) as -> by (apply (NoDup_same_id rows); assumption).
      cbn [sale_fields]. rewrite !bool_decide_eq_false_2; [reflexivity | |].
      * rewrite Hr0inv. intros [= ->]. apply Hother. reflexivity.
      * rewrite (lookup_union_Some_l _ _ _ _ Hf). intros [= ->]. apply Hother. reflexivity.
  - apply find_app_found. exact Hsel.
Qed.

Lemma upsert_keeps_settled cols inv (fields : gmap string hval) seq rows header other :
  NoDup (List.map sale_id rows) ->
  fields !! "invoice_no" = Some inv ->
  other <> inv ->
  settled cols rows header other ->
  settled cols (upsert inv fields seq rows) header other.
Proof.
  intros Hids Hf Hother (r & v & Hsel & Hrest).
  exists r, v. split; [| exact Hrest].
  apply upsert_other; assumption.
Qed.

(** A run settles every valid group, when no two of them share an
    invoice number; it leaves settled what it does not import. *)
Lemma import_groups_settle cfg public_ip user combine_items utcnow groups :
  forall turn w n,
    plain_table (sales_schema (conn w)) = true ->
    NoDup (List.map sale_id (sales (conn w))) ->
    NoDup (valid_invoices combine_items groups) ->
    let w' :=
      fst (import_groups cfg public_ip user combine_items utcnow turn w n groups) in
    let cols := table_info (sales_schema (conn w)) in
    (forall header inv,
       settled cols (sales (conn w)) header inv ->
       ~ In inv (valid_invoices combine_items groups) ->
       settled cols (sales (conn w')) header inv)
    /\ (forall gkey sub header items inv,
          In (gkey, sub) groups ->
          _header_from_group sub combine_items = Some (header, items) ->
          passes_gates header = true ->
          header !! "invoice_no" = Some inv ->
          settled cols (sales (conn w')) header inv).
Proof.
  induction groups as [| [gkey sub] rest IH]; intros turn w n Hplain Hids Hdistinct.
  - cbn. split; [auto | intros ? ? ? ? ? []].
  - cbn [import_groups valid_invoices] in *.
    destruct (plain_table_facts _ Hplain) as (Hcol_inv & Hcol_rn & _).
    set (cols := table_info (sales_schema (conn w))).
    destruct (valid_group combine_items sub) eqn:Hvalid.
    + destruct (valid_group_invoice _ _ Hvalid) as [inv Hinv]. rewrite Hinv in *.
      unfold valid_group, group_invoice in Hvalid, Hinv.
      destruct (_header_from_group sub combine_items) as [[header items] |] eqn:Heq;
        [| discriminate].
      destruct (import_group_upsert cfg public_ip user combine_items (utcnow turn) w n
                  gkey sub header items inv Hplain Heq Hvalid Hinv)
        as (v & Hv & _ & Hsales & Hschema).
      destruct (import_group _ _ _ _ _ _ _ _ _) as [w1 n1]. cbn [fst] in Hsales, Hschema.
      inversion Hdistinct as [| ? ? Hfresh Hrest]; subst.
      assert (NoDup (List.map sale_id (sales (conn w1)))) as Hids1
        by (rewrite Hsales; apply upsert_NoDup; exact Hids).
      assert (plain_table (sales_schema (conn w1)) = true) as Hplain1
        by (rewrite Hschema; exact Hplain).
      specialize (IH (S turn) w1 n1 Hplain1 Hids1 Hrest). cbv zeta in IH.
      rewrite Hschema in IH. fold cols in IH. destruct IH as [IHkeep IHnew].
      assert ((clean_header cols (<["receipt_number" := v]> header)) !! "invoice_no"
              = Some inv) as Hf_inv.
      { rewrite clean_header_lookup by exact Hcol_inv.
        rewrite lookup_insert_ne by discriminate. exact Hinv. }
      split.
      * intros h other Hset Hnot. apply IHkeep.
        -- rewrite Hsales. apply upsert_keeps_settled; try assumption.
           intros ->. apply Hnot. left. reflexivity.
        -- intros Hin. apply Hnot. right. exact Hin.
      * intros k s h its other [Hhere | Hin] Hh Hg Ho.
        -- injection Hhere as <- <-. rewrite Heq in Hh. injection Hh as <- <-.
           assert (other = inv) as -> by congruence.
           apply IHkeep;
             [| intros Hin; apply Hfresh; apply list_elem_of_In; exact Hin].
           rewrite Hsales. apply upsert_settles; assumption.
        -- apply (IHnew k s h its other); assumption.
    + pose proof (import_group_not_valid cfg public_ip user combine_items (utcnow turn)
                    w n gkey sub Hvalid) as Hturn.
      destruct (import_group _ _ _ _ _ _ _ _ _) as [w1 n1].
      destruct Hturn as (Hconn & _).
      assert (NoDup (List.map sale_id (sales (conn w1)))) as Hids1
        by (rewrite Hconn; exact Hids).
      assert (plain_table (sales_schema (conn w1)) = true) as Hplain1
        by (rewrite Hconn; exact Hplain).
      specialize (IH (S turn) w1 n1 Hplain1 Hids1 Hdistinct). cbv zeta in IH.
      rewrite Hconn in IH. fold cols in IH. destruct IH as [IHkeep IHnew].
      split; [exact IHkeep |].
      intros k s h its other [Hhere | Hin] Hh Hg Ho.
      * injection Hhere as <- <-. unfold valid_group in Hvalid.
        rewrite Hh in Hvalid. congruence.
      * apply (IHnew k s h its other); assumption.
Qed.

(** A run over groups that are all settled leaves table [sales] as it
    was. *)
Lemma import_groups_settled cfg public_ip user combine_items utcnow groups :
  forall turn w n,
    plain_table (sales_schema (conn w)) = true ->
    NoDup (List.map sale_id (sales (conn w))) ->
    (forall gkey sub header items inv,
       In (gkey, sub) groups ->
       _header_from_group sub combine_items = Some (header, items) ->
       passes_gates header = true ->
       header !! "invoice_no" = Some inv ->
       settled (table_info (sales_schema (conn w))) (sales (conn w)) header inv) ->
    sales (conn (fst (import_groups cfg public_ip user combine_items utcnow turn w n
                        groups)))
    = sales (conn w).
Proof.
  induction groups as [| [gkey sub] rest IH]; intros turn w n Hplain Hids Hset.
  - reflexivity.
  - cbn [import_groups].
    assert (sales (conn (fst (import_group cfg public_ip user combine_items (utcnow turn)
                                w n gkey sub))) = sales (conn w)
            /\ sales_schema (conn (fst (import_group cfg public_ip user combine_items
                                          (utcnow turn) w n gkey sub)))
               = sales_schema (conn w)) as [Hsales Hschema].
    { destruct (valid_group combine_items sub) eqn:Hvalid.
      - destruct (valid_group_invoice _ _ Hvalid) as [inv Hinv].
        unfold valid_group, group_invoice in Hvalid, Hinv.
        destruct (_header_from_group sub combine_items) as [[header items] |] eqn:Heq;
          [| discriminate].
        destruct (import_group_upsert cfg public_ip user combine_items (utcnow turn) w n
                    gkey sub header items inv Hplain Heq Hvalid Hinv)
          as (v & Hv & Hsame & Hsales & Hschema).
        split; [| exact Hschema].
        destruct (Hset gkey sub header items inv (or_introl eq_refl) Heq Hvalid Hinv)
          as (r & rn & Hsel & Hrn & Hrn_ok & Hsub).
        rewrite Hsales. rewrite (Hsame r rn Hsel Hrn Hrn_ok).
        apply (upsert_settled _ _ _ _ r); assumption.
      - pose proof (import_group_not_valid cfg public_ip user combine_items (utcnow turn)
                      w n gkey sub Hvalid) as Hturn.
        destruct (import_group _ _ _ _ _ _ _ _ _) as [w1 n1].
        destruct Hturn as (Hconn & _). cbn [fst]. rewrite Hconn.
        split; reflexivity. }
    destruct (import_group _ _ _ _ _ _ _ _ _) as [w1 n1]. cbn [fst] in Hsales, Hschema.
    rewrite IH.
    + exact Hsales.
    + rewrite Hschema. exact Hplain.
    + rewrite Hsales. exact Hids.
    + intros k s h its other Hin Hh Hg Ho. rewrite Hsales, Hschema.
      apply (Hset k s h its other); [right; exact Hin | assumption ..].
Qed.


End ImportFacts.

(** ** Status gate and document numbers *)

Section GateFacts.
Import pytext pydatetime sqlite ui_settings_import.
Context `{PyFloat} `{SqliteText}.

Lemma valid_group_gates sub combine_items header items :
  _header_from_group sub combine_items = Some (header, items) ->
  valid_group combine_items sub = passes_gates header.
Proof. intros Heq. unfold valid_group. rewrite Heq. reflexivity. Qed.

(** What a run does, on a plain table, with a group whose header passes
    the three gates. *)
Lemma import_group_saves cfg public_ip user combine_items utcnow w n gkey sub
      header items :
  plain_table (sales_schema (conn w)) = true ->
  _header_from_group sub combine_items = Some (header, items) ->
  passes_gates header = true ->
  let '(w', n') := import_group cfg public_ip user combine_items utcnow w n gkey sub in
  skipped n' = skipped n
  /\ imported n' + updated n' = imported n + updated n + 1
  /\ exists inv, header !! "invoice_no" = Some inv
                 /\ has_invoice inv (sales (conn w')).
Proof.
  intros Hplain Heq Hgates.
  pose proof (import_group_turn cfg public_ip user combine_items utcnow w n gkey sub
                Hplain) as Hturn.
  rewrite (valid_group_gates _ _ _ _ Heq), Hgates in Hturn.
  destruct (import_group _ _ _ _ _ _ _ _ _) as [w' n'].
  destruct Hturn as (_ & inv & fields & Hinv & Hf & Hsales & Hskip & Hcount).
  split; [exact Hskip |]. split.
  - destruct (select_sale inv (sales (conn w))); injection Hcount as -> ->; lia.
  - exists inv. split.
    + unfold group_invoice in Hinv. rewrite Heq in Hinv. exact Hinv.
    + rewrite Hsales. apply upsert_has. exact Hf.
Qed.

(** A group whose status is allowed is never logged as skipped for its
    status, whatever else the turn does with it. *)
Lemma import_group_status_passes cfg public_ip user combine_items utcnow w n gkey sub
      header items :
  _header_from_group sub combine_items = Some (header, items) ->
  elem (hval_text (header !! "financial_status") "") ALLOWED_STATUS = true ->
  exists entry,
    audit_log (fst (import_group cfg public_ip user combine_items utcnow w n gkey sub))
    = audit_log w ++ [entry]
    /\ a_action entry <> "skip_invalid_status".
Proof.
  intros Heq Hstatus.
  destruct (passes_gates header) eqn:Hgates.
  - assert (exists inv, header !! "invoice_no" = Some inv) as [inv Hinv].
    { unfold passes_gates in Hgates. destruct (header !! "invoice_no"); [eauto |].
      rewrite andb_comm in Hgates. discriminate. }
    rewrite (import_group_passed cfg public_ip user combine_items utcnow w n gkey sub
               header items inv Heq Hgates Hinv). cbv zeta.
    destruct (select_receipt _ inv) as [e | found];
      [eexists; split; [reflexivity | discriminate] |].
    destruct (fst (_save_order _ _ items)) as [e | sale];
      [eexists; split; [reflexivity | discriminate] |].
    eexists. split; [reflexivity |]. destruct found; discriminate.
  - unfold passes_gates in Hgates. rewrite Hstatus in Hgates. cbn [andb] in Hgates.
    unfold import_group. rewrite Heq. cbv zeta. rewrite Hstatus. cbn [negb].
    destruct (elem (hval_text (header !! "vendor") "") ALLOWED_VENDORS);
      [| eexists; split; [reflexivity | discriminate]].
    cbn [andb negb] in *.
    destruct (header !! "invoice_no") as [inv |];
      [| eexists; split; [reflexivity | discriminate]].
    apply negb_false_iff in Hgates. rewrite Hgates.
    eexists; split; [reflexivity | discriminate].
Qed.

Lemma import_group_bad_status cfg public_ip user combine_items utcnow w n gkey sub
      header items :
  _header_from_group sub combine_items = Some (header, items) ->
  elem (hval_text (header !! "financial_status") "") ALLOWED_STATUS = false ->
  let msg := "Invalid financial_status '"
             +:+ hval_text (header !! "financial_status") ""
             +:+ "' after normalization" in
  import_group cfg public_ip user combine_items utcnow w n gkey sub
  = (mk_world (conn w)
       (_audit_log (audit_log w) "skip_invalid_status"
                   (hval_text (header !! "invoice_no") "") None user public_ip
                   (ReasonDetail msg)),
     mk_summary (imported n) (updated n) (skipped n + 1)
                (issues n ++ [(cell_str gkey, msg)])).
Proof.
  intros Heq Hbad. unfold import_group. rewrite Heq. cbv zeta. rewrite Hbad.
  reflexivity.
Qed.



(** Document numbers issued one after the other, as the loop issues
    them: the clock is read at each call. *)
Fixpoint issue (cfg : settings) (db : app_db) (clock : list datetime)
    : list string * app_db :=
  match clock with
  | [] => ([], db)
  | utcnow :: rest =>
      let '(doc_no, db1) := _next_doc_no cfg utcnow db None in
      let '(doc_nos, db2) := issue cfg db1 rest in
      (doc_no :: doc_nos, db2)
  end.

Definition doc_no_text (cfg : settings) (yyyymm : string) (seq : Z) : string :=
  DOC_PREFIX cfg +:+ "-" +:+ yyyymm +:+ "-" +:+ zfill (DOC_PAD cfg) (str_of_Z seq).

(** The last number issued under a prefix and a month, zero before the
    first. *)
Definition last_issued (cfg : settings) (yyyymm : string) (db : app_db) : Z :=
  match sequences db !! (DOC_PREFIX cfg +:+ "-" +:+ yyyymm) with
  | Some v => v
  | None => 0
  end.

Lemma next_doc_no_spec cfg utcnow db :
  let yyyymm := strftime_month utcnow in
  let '(doc_no, db1) := _next_doc_no cfg utcnow db None in
  doc_no = doc_no_text cfg yyyymm (last_issued cfg yyyymm db + 1)
  /\ last_issued cfg yyyymm db1 = last_issued cfg yyyymm db + 1.
Proof.
  unfold _next_doc_no, doc_no_text, last_issued. cbv zeta. simpl sequences.
  rewrite lookup_insert_eq.
  destruct (sequences db !! _); split; reflexivity.
Qed.

Lemma issue_spec cfg yyyymm clock : forall db,
  Forall (fun t => strftime_month t = yyyymm) clock ->
  let '(doc_nos, db') := issue cfg db clock in
  doc_nos = List.map (fun k => doc_no_text cfg yyyymm
                                 (last_issued cfg yyyymm db + Z.of_nat k))
                     (seq 1 (length clock))
  /\ last_issued cfg yyyymm db' = last_issued cfg yyyymm db + Z.of_nat (length clock).
Proof.
  induction clock as [| t rest IH]; intros db Hmonth.
  - simpl. split; [reflexivity | lia].
  - inversion Hmonth as [| ? ? Ht Hrest]; subst.
    cbn [issue]. pose proof (next_doc_no_spec cfg t db) as Hone.
    cbv zeta in Hone.
    destruct (_next_doc_no cfg t db None) as [doc_no db1].
    destruct Hone as [-> Hlast].
    specialize (IH db1 Hrest). destruct (issue cfg db1 rest) as [doc_nos db2].
    destruct IH as [-> Hlast2]. split.
    + cbn [length seq List.map]. apply (f_equal2 cons); [f_equal; lia |].
      rewrite <- (seq_shift (length rest) 1), List.map_map. apply map_ext. intros k.
      rewrite Hlast. f_equal. lia.
    + rewrite Hlast2, Hlast. cbn [length]. lia.
Qed.

(** C8. Calls of the generator one after the other, the clock staying in
    one month: the k-th call answers the number k above the last one
    issued for the prefix and that month, written PREFIX-YYYYMM-SEQ with
    the sequence zero-padded to the configured width, and leaves the
    counter at that number. With the default settings, the first two
    calls of January 2025 answer INV-202501-0001 and INV-202501-0002. *)
Theorem C8_document_numbers_in_sequence :
  (forall (cfg : settings) (yyyymm : string) (clock : list datetime) (db : app_db),
     Forall (fun t => strftime_month t = yyyymm) clock ->
     fst (issue cfg db clock)
     = List.map (fun k => DOC_PREFIX cfg +:+ "-" +:+ yyyymm +:+ "-"
                          +:+ zfill (DOC_PAD cfg)
                                (str_of_Z (last_issued cfg yyyymm db + Z.of_nat k)))
                (seq 1 (length clock))
     /\ last_issued cfg yyyymm (snd (issue cfg db clock))
        = last_issued cfg yyyymm db + Z.of_nat (length clock))
  /\ (forall (t1 t2 : datetime) (db : app_db),
        year t1 = 2025 -> month t1 = 1 -> year t2 = 2025 -> month t2 = 1 ->
        sequences db !! "INV-202501" = None ->
        fst (issue default_settings db [t1; t2])
        = ["INV-202501-0001"; "INV-202501-0002"]).
Proof.
  split.
  - intros cfg yyyymm clock db Hmonth.
    pose proof (issue_spec cfg yyyymm clock db Hmonth) as Hspec.
    destruct (issue cfg db clock) as [doc_nos db']. exact Hspec.
  - intros t1 t2 db Hy1 Hm1 Hy2 Hm2 Hfresh.
    assert (Forall (fun t => strftime_month t = "202501") [t1; t2]) as Hmonth.
    { repeat constructor; unfold strftime_month;
        [rewrite Hy1, Hm1 | rewrite Hy2, Hm2]; reflexivity. }
    pose proof (issue_spec default_settings "202501" [t1; t2] db Hmonth) as Hspec.
    destruct (issue default_settings db [t1; t2]) as [doc_nos db'].
    destruct Hspec as [-> _]. unfold last_issued. simpl DOC_PREFIX.
    change ("INV" +:+ "-" +:+ "202501") with "INV-202501". rewrite Hfresh.
    reflexivity.
Qed.

End GateFacts.

(** ** The import run on a small sheet *)

Section ImportExamples.
Import pytext pydatetime sqlite ui_settings_import.

Definition whole_of_text (s : string) : option Z :=
  match NilZero.int_of_string s with
  | Some d => Some (Z.of_int d)
  | None => None
  end.

(** Floats that are whole numbers, on which the arithmetic of the
    examples is exact; a stand-in to run the definitions, of which
    nothing more is claimed. *)
Definition whole_floats : PyFloat := {|
  pyfloat := Z;
  pyfloat_eq_dec := Z.eq_dec;
  fzero := 0;
  fadd := Z.add;
  fsub := Z.sub;
  fmul := Z.mul;
  feqb := Z.eqb;
  fgtb := Z.gtb;
  fisnan := fun _ => false;
  float_of_str := whole_of_text;
  float_of_Z := fun n => n;
  str_of_float := fun n => str_of_Z n +:+ ".0"
|}.

#[local] Existing Instance whole_floats.

(** IEEE 754 binary64, on which Python's [float] runs, with the
    arithmetic of the Standard Library's specification of floats. The
    conversions from and to text are stand-ins that know whole numbers
    only; the examples below do not go through them. *)
Definition binary64_of_Z (n : Z) : SpecFloat.spec_float :=
  SpecFloat.binary_normalize 53 1024 n 0 false.

#[local] Instance spec_float_eq_dec : EqDecision SpecFloat.spec_float.
Proof. solve_decision. Defined.

Definition binary64 : PyFloat := {|
  pyfloat := SpecFloat.spec_float;
  pyfloat_eq_dec := spec_float_eq_dec;
  fzero := SpecFloat.S754_zero false;
  fadd := SpecFloat.SFadd 53 1024;
  fsub := SpecFloat.SFsub 53 1024;
  fmul := SpecFloat.SFmul 53 1024;
  feqb := SpecFloat.SFeqb;
  fgtb := fun a b => SpecFloat.SFltb b a;
  fisnan := fun a => match a with SpecFloat.S754_nan => true | _ => false end;
  float_of_str := fun s => option_map binary64_of_Z (whole_of_text s);
  float_of_Z := binary64_of_Z;
  str_of_float := fun _ => "float"
|}.

Definition quotation_mark : string := String (chr 34) EmptyString.

(** The texts [sqlite3] gives its exceptions, a CHECK named by its
    column. *)
Definition usual_texts : SqliteText := {|
  str_of_error := fun e =>
    match e with
    | NoSuchColumn c => "no such column: " +:+ c
    | NoColumnsGiven =>
        "near " +:+ quotation_mark +:+ ")" +:+ quotation_mark +:+ ": syntax error"
    | NotNullFailed c => "NOT NULL constraint failed: sales." +:+ c
    | CheckFailed c => "CHECK constraint failed: " +:+ c
    end
|}.

#[local] Existing Instance usual_texts.

(** Closes an equation between closed terms by evaluating both sides. *)
Ltac by_evaluation :=
  lazymatch goal with
  | |- ?a = ?b => vm_cast_no_check (eq_refl b)
  end.

Definition order_row (name status : string) (qty : Z) (product price : string)
    : gmap string cell :=
  list_to_map [("Name", CStr name); ("Financial Status", CStr status);
               ("Vendor", CStr "takeout store"); ("Lineitem quantity", CInt qty);
               ("Lineitem name", CStr product); ("Lineitem price", CStr price);
               ("Lineitem sku", CNaN)].

(** A row that only repeats the order: no quantity, no product name. *)
Definition noise_row (name : string) : gmap string cell :=
  list_to_map [("Name", CStr name); ("Financial Status", CNaN);
               ("Vendor", CNaN); ("Lineitem quantity", CNaN);
               ("Lineitem name", CNaN); ("Lineitem price", CNaN);
               ("Lineitem sku", CNaN)].

(** A row of a sheet that has no status column. *)
Definition bare_row (name : string) : gmap string cell :=
  list_to_map [("Name", CStr name); ("Vendor", CStr "Lola Tindeng");
               ("Lineitem quantity", CInt 1); ("Lineitem name", CStr "Puto");
               ("Lineitem price", CInt 25)].

Definition sheet : dataframe :=
  mk_dataframe
    ["Name"; "Financial Status"; "Vendor"; "Lineitem quantity"; "Lineitem name";
     "Lineitem price"; "Lineitem sku"]
    [order_row "#1001" "Unpaid" 2 "Adobo" "150";
     order_row "#1002" "garbage-value" 1 "Sisig" "90";
     order_row "#1001" "Unpaid" 2 "Adobo" "150";
     noise_row "#1001"].

(** A fresh application database, and one in which the invoicing
    screen created table [sales] before the first import. *)
Definition empty_world : world := mk_world (_ensure_schema None) [].

Definition invoicing_world : world :=
  mk_world (_ensure_schema
              (Some (mk_app_db ui_sales_invoicing.sales_declared [] 0 [] 0 ∅))) [].

Definition morning (turn : nat) : datetime := mk_datetime 2025 1 5 9 30 0 0.

Definition run (w : world) : option (world * summary) :=
  render default_settings (fun keys => keys) morning "unknown" None true w sheet.

Definition after_first : world * summary :=
  Eval vm_compute in default (empty_world, no_summary) (run empty_world).

Definition after_second : world * summary :=
  Eval vm_compute in default (empty_world, no_summary) (run after_first.1).


Definition blocked_first : world * summary :=
  Eval vm_compute in default (empty_world, no_summary) (run invoicing_world).

Definition blocked_second : world * summary :=
  Eval vm_compute in default (empty_world, no_summary) (run blocked_first.1).


Definition garbage_group : list (gmap string cell) :=
  [order_row "#1002" "garbage-value" 1 "Sisig" "90"].

Definition garbage_header : gmap string hval * list item :=
  Eval vm_compute in default (∅, []) (_header_from_group garbage_group true).


Definition adobo_group : list (gmap string cell) :=
  [order_row "#1001" "Unpaid" 2 "Adobo" "150"; noise_row "#1001"].

Definition adobo_header : gmap string hval * list item :=
  Eval vm_compute in default (∅, []) (_header_from_group adobo_group false).

(** An order in which one product comes in two rows. *)
Definition split_group : list (gmap string cell) :=
  [order_row "#1005" "Paid" 2 "Adobo" "150"; order_row "#1005" "Paid" 1 "Sisig" "90";
   order_row "#1005" "Paid" 3 "Adobo" "150"; noise_row "#1005"].

Definition split_header : gmap string hval * list item :=
  Eval vm_compute in default (∅, []) (_header_from_group split_group true).

Lemma C9_witness :
  split_header.2 = [mk_item "" "Adobo" "" 5 150 750; mk_item "" "Sisig" "" 1 90 90].
Proof.
  assert (_header_from_group split_group true
          = Some (split_header.1, split_header.2)) as Hheader
    by by_evaluation.
  pose proof (C9_rows_to_line_items split_group true split_header.1 split_header.2
                Hheader) as Hlines.
  cbv zeta in Hlines. destruct Hlines as (_ & _ & _ & _ & Hitems).
  destruct (Hitems eq_refl) as [-> _]; [by_evaluation |]. by_evaluation.
Defined.

(** One tenth, as binary64 has it, and an order of six bottles at that
    price that come in two rows. *)
Definition tenth : SpecFloat.spec_float :=
  SpecFloat.S754_finite false 7205759403792794 (-56).

Definition bottle_row (qty : Z) : gmap string (@cell binary64) :=
  list_to_map [("Name", @CStr binary64 "#1006"); ("Vendor", @CStr binary64 "Takeout Store");
               ("Lineitem quantity", @CInt binary64 qty);
               ("Lineitem name", @CStr binary64 "Suka");
               ("Lineitem price", @CFloat binary64 tenth)].

Definition bottles_header : gmap string (@hval binary64) * list (@item binary64) :=
  Eval vm_compute in
    default (∅, []) (@_header_from_group binary64 [bottle_row 1; bottle_row 5] true).

(** C9 as stated fails on floats when lines are combined, as they are
    unless the box is unticked: one bottle and five bottles at 0.1 make a
    line of six whose total, 0.1 + 0.5, is not the product of 6 and 0.1,
    which is the float next above it. *)
Lemma C9_counterexample :
  @_header_from_group binary64 [bottle_row 1; bottle_row 5] true
  = Some bottles_header
  /\ bottles_header.2
     = [@mk_item binary64 "" "Suka" "" (binary64_of_Z 6) tenth
          (SpecFloat.S754_finite false 5404319552844595 (-53))]
  /\ @fmul binary64 (binary64_of_Z 6) tenth
     = SpecFloat.S754_finite false 5404319552844596 (-53)
  /\ Forall (fun it => @total_amount binary64 it
                       <> @fmul binary64 (quantity it) (price it))
            bottles_header.2.
Proof.
  split; [by_evaluation |]. split; [by_evaluation |]. split; [by_evaluation |].
  repeat constructor. vm_compute. discriminate.
Qed.

Definition bare_header : gmap string hval * list item :=
  Eval vm_compute in default (∅, []) (_header_from_group [bare_row "#1003"] true).


Lemma C8_witness :
  fst (issue default_settings (conn empty_world) [morning 0; morning 1])
  = ["INV-202501-0001"; "INV-202501-0002"].
Proof.
  apply (proj2 (@C8_document_numbers_in_sequence whole_floats)); reflexivity.
Defined.

End ImportExamples.

(** ** Accounts: setting a password, signing in, registering *)

Section AccountFacts.
Import pytext pydatetime sqlite auth db app.
Context `{Pbkdf2} `{Strptime}.

(** What identifies an account, apart from its credential. *)
Definition account_fields (u : users_row)
    : Z * string * option string * option string * option Z :=
  (u_id u, u_email u, u_username u, u_role u, u_is_active u).

(** What identifies a token row, apart from its consumption stamp. *)
Definition token_fields (t : token_row) : Z * Z * string * string * string :=
  (t_id t, t_user_id t, t_token t, t_purpose t, t_expires_at t).

Lemma update_credential_accounts uid pwh salt us :
  List.map account_fields (update_credential uid pwh salt us)
  = List.map account_fields us.
Proof.
  unfold update_credential. rewrite List.map_map. apply List.map_ext.
  intros u. destruct (u_id u =? uid); reflexivity.
Qed.

Lemma mark_used_tokens token_id stamp ts :
  List.map token_fields (mark_used token_id stamp ts) = List.map token_fields ts.
Proof.
  unfold mark_used. rewrite List.map_map. apply List.map_ext.
  intros t. destruct (t_id t =? token_id); reflexivity.
Qed.

Lemma mark_used_ids token_id stamp ts :
  List.map t_id (mark_used token_id stamp ts) = List.map t_id ts.
Proof.
  unfold mark_used. rewrite List.map_map. apply List.map_ext.
  intros t. destruct (t_id t =? token_id); reflexivity.
Qed.

Lemma str_empty_false s : s <> "" -> str_empty s = false.
Proof. destruct s; [congruence | reflexivity]. Qed.

Lemma str_empty_long s n : (S n <= String.length s)%nat -> str_empty s = false.
Proof. destruct s; simpl; [lia | reflexivity]. Qed.

Lemma legacy_salt_not_empty salt : legacy_salt salt = false -> is_empty salt = false.
Proof.
  intros Hs. apply legacy_salt_false in Hs as [Hne _].
  destruct salt; [congruence | reflexivity].
Qed.

(** The row a login selects, once its credential is the digest of a
    password under a salt that is not a marker of an unhashed row, opens
    to that password when the account is active. *)
Lemma login_with_fresh_credential new_salt salt us ts seq login password row :
  select_user login us = Some row ->
  legacy_salt salt = false ->
  let digest := pbkdf2_hmac_sha256 (utf8 password) salt 200000 in
  let db' := mk_db (update_credential (u_id row) digest salt us) ts seq in
  check_password new_salt db' login password = (truthy (u_is_active row), db').
Proof.
  intros Hrow Hsalt digest db'.
  unfold check_password, check_password_path. unfold db' at 1. cbn [users].
  rewrite select_user_update, Hrow. cbn [option_map]. rewrite Z.eqb_refl.
  cbn [u_is_active u_password_hash u_salt u_id _to_bytes].
  destruct (truthy (u_is_active row)); [| reflexivity].
  cbn [negb]. rewrite Hsalt. cbn [andb].
  rewrite (legacy_salt_not_empty _ Hsalt). unfold digest at 1.
  rewrite digest_not_empty. cbn [orb].
  unfold _hash_password. cbn [_to_bytes].
  rewrite bool_decide_eq_true_2 by reflexivity. reflexivity.
Qed.

(** What [UPDATE users SET password_hash=?, salt=? WHERE id=?] does to a
    row: the account of that id takes the credential, every other row
    stays as it was, credential included. *)
Definition credential_set (uid : Z) (pwh salt : bytes) (u u' : users_row) : Prop :=
  account_fields u' = account_fields u
  /\ (u_id u <> uid -> u' = u)
  /\ (u_id u = uid -> u_password_hash u' = SqlBlob pwh /\ u_salt u' = SqlBlob salt).

Lemma update_credential_rows uid pwh salt us :
  Forall2 (credential_set uid pwh salt) us (update_credential uid pwh salt us).
Proof.
  induction us as [| u us IH]; [constructor |].
  cbn [update_credential List.map]. constructor; [| exact IH].
  unfold credential_set.
  destruct (Z.eqb_spec (u_id u) uid) as [Hid | Hid]; cbn.
  - split; [reflexivity |]. split; [intros Hne; contradiction | auto].
  - split; [reflexivity |]. split; [reflexivity | intros Heq; contradiction].
Qed.

(** X1. [set_password] refuses a password shorter than eight characters
    and writes nothing. A longer one gives the account with that id the
    digest of the password under the fresh salt, leaves every other
    account as it was, its credential included, and leaves the tokens
    alone; after it the account, when active, signs in with the new
    password under any login that selects it. *)
Theorem set_password_then_login :
  forall (salt new_salt : bytes) (db : user_db) (user_id : Z)
         (new_password : string),
    ((String.length new_password < 8)%nat ->
     set_password salt db user_id new_password = None)
    /\ ((8 <= String.length new_password)%nat ->
        exists db',
          set_password salt db user_id new_password = Some db'
          /\ password_tokens db' = password_tokens db
          /\ password_tokens_seq db' = password_tokens_seq db
          /\ Forall2 (credential_set user_id
                        (pbkdf2_hmac_sha256 (utf8 new_password) salt 200000) salt)
                     (users db) (users db')
          /\ forall login row,
               select_user login (users db) = Some row ->
               u_id row = user_id ->
               truthy (u_is_active row) = true ->
               legacy_salt salt = false ->
               check_password new_salt db' login new_password = (true, db')).
Proof.
  intros salt new_salt db user_id new_password. split.
  - intros Hshort. unfold set_password.
    apply Nat.ltb_lt in Hshort. rewrite Hshort, orb_true_r. reflexivity.
  - intros Hlong. unfold set_password.
    rewrite (str_empty_long _ 7 Hlong).
    assert ((String.length new_password <? 8)%nat = false) as -> by (apply Nat.ltb_ge; lia).
    cbn [orb]. eexists. split; [reflexivity |].
    split; [reflexivity |]. split; [reflexivity |].
    split; [apply update_credential_rows |].
    intros login row Hrow <- Hon Hsalt.
    unfold _hash_password. cbn [_to_bytes].
    rewrite (login_with_fresh_credential new_salt salt (users db) _ _ login
               new_password row Hrow Hsalt), Hon.
    reflexivity.
Qed.

(** A redemption that is refused returns the store it was given. *)
Lemma verify_refused_store salt now db token new_password :
  fst (fst (verify_token_and_change_password salt now db token new_password)) = false ->
  snd (verify_token_and_change_password salt now db token new_password) = db.
Proof.
  unfold verify_token_and_change_password.
  destruct (str_empty token || str_empty new_password); [reflexivity |].
  destruct (select_token token (password_tokens db)) as [row |]; [| reflexivity].
  destruct (negb _); [reflexivity |].
  destruct (t_used_at row); [reflexivity |].
  destruct (strptime (t_expires_at row)) as [exp_dt |]; [| reflexivity].
  destruct (gtb now exp_dt); [reflexivity |].
  destruct (String.length new_password <? 8)%nat; [reflexivity |].
  cbn. discriminate.
Qed.

(** X2. A redemption that is refused, for whatever reason, leaves both
    tables as they were: no credential is replaced and no token is
    stamped. *)
Theorem redeem_refused_writes_nothing :
  forall (salt : bytes) (now : datetime) (db : user_db)
         (token new_password : string),
    fst (fst (verify_token_and_change_password salt now db token new_password)) = false ->
    snd (verify_token_and_change_password salt now db token new_password) = db.
Proof. exact verify_refused_store. Qed.

(** X3. A redemption is accepted only for a non-empty token that selects
    an unconsumed [password_change] row whose expiry reads as a date the
    clock has not passed, and only with a new password of eight
    characters or more; the answer is then the success message. *)
Theorem redeem_accepts_only_valid :
  forall (salt : bytes) (now : datetime) (db : user_db)
         (token new_password : string),
    fst (fst (verify_token_and_change_password salt now db token new_password)) = true ->
    token <> ""
    /\ (8 <= String.length new_password)%nat
    /\ snd (fst (verify_token_and_change_password salt now db token new_password))
       = MSG_CHANGED
    /\ exists row exp_dt,
         select_token token (password_tokens db) = Some row
         /\ t_purpose row = "password_change"
         /\ t_used_at row = None
         /\ strptime (t_expires_at row) = Some exp_dt
         /\ gtb now exp_dt = false.
Proof.
  intros salt now db token new_password.
  unfold verify_token_and_change_password.
  destruct token as [| c token']; [cbn; discriminate |].
  destruct new_password as [| d pw']; [cbn; discriminate |].
  cbn [str_empty orb].
  destruct (select_token _ (password_tokens db)) as [row |]; [| cbn; discriminate].
  destruct (String.eqb_spec (t_purpose row) "password_change") as [Hp | Hp];
    [| cbn; discriminate].
  cbn [negb].
  destruct (t_used_at row) eqn:Hused; [cbn; discriminate |].
  destruct (strptime (t_expires_at row)) as [exp_dt |] eqn:Hexp; [| cbn; discriminate].
  destruct (gtb now exp_dt) eqn:Hgt; [cbn; discriminate |].
  destruct (String.length (String d pw') <? 8)%nat eqn:Hlen; [cbn; discriminate |].
  intros _. apply Nat.ltb_ge in Hlen.
  split; [discriminate |]. split; [exact Hlen |]. split; [reflexivity |].
  exists row, exp_dt. repeat split; assumption.
Qed.

(** X4. The whole reset, end to end: a request for an active account
    stores a token; redeeming that token before its stored expiry, with a
    new password of eight characters or more, succeeds whatever the mail
    relay answered, and the account then signs in with the new password. *)
Theorem reset_then_login :
  forall (token : string) (now : datetime) (relay : mail_relay) (db : user_db)
         (login app_name : string) (link_base_url : option string)
         (row : users_row) (expiry : datetime)
         (salt new_salt : bytes) (now' : datetime) (new_password : string),
    select_user login (users db) = Some row ->
    truthy (u_is_active row) = true ->
    valid now ->
    token <> "" ->
    select_token token (password_tokens db) = None ->
    add_minutes now 15 = Some expiry ->
    gtb now' (whole_second expiry) = false ->
    (8 <= String.length new_password)%nat ->
    legacy_salt salt = false ->
    exists outcome db1 db2,
      request_password_change token now relay db login app_name link_base_url
        = Some (outcome, db1)
      /\ verify_token_and_change_password salt now' db1 token new_password
         = ((true, MSG_CHANGED), db2)
      /\ check_password new_salt db2 login new_password = (true, db2).
Proof.
  intros token now relay db login app_name link_base_url row expiry salt new_salt
         now' new_password Hrow Hon Hvalid Htok Hfresh Hadd Hnow Hlen Hsalt.
  pose proof (add_minutes_valid now 15 expiry Hvalid Hadd) as Hve.
  pose proof (strptime_strftime expiry Hve) as Hparse.
  set (new_row := mk_token (next_rowid (password_tokens_seq db)
                                       (List.map t_id (password_tokens db)))
                           (u_id row) token "password_change"
                           (strftime_seconds expiry) None).
  set (db1 := mk_db (users db) (password_tokens db ++ [new_row]) (t_id new_row)).
  assert (exists outcome,
            request_password_change token now relay db login app_name link_base_url
            = Some (outcome, db1)) as [outcome Hreq].
  { unfold request_password_change, _get_user_by_login, _create_token.
    rewrite Hrow. cbn [info_is_active info_id info_email]. rewrite Hon, Hadd.
    cbn [negb]. fold new_row. fold db1.
    destruct (_send_email _ _ _ _); eexists; reflexivity. }
  exists outcome, db1. eexists. split; [exact Hreq |].
  assert (select_token token (password_tokens db1) = Some new_row) as Hsel.
  { unfold db1; cbn [password_tokens]. apply select_token_app_new; [exact Hfresh | reflexivity]. }
  unfold verify_token_and_change_password.
  rewrite (str_empty_false _ Htok), (str_empty_long _ 7 Hlen), Hsel.
  cbn [orb t_purpose t_used_at t_expires_at new_row String.eqb Ascii.eqb Bool.eqb negb].
  rewrite Hparse, Hnow.
  assert ((String.length new_password <? 8)%nat = false) as -> by (apply Nat.ltb_ge; lia).
  split; [reflexivity |].
  cbn [t_user_id users db1].
  rewrite (login_with_fresh_credential new_salt salt (users db) _ _ login
             new_password row Hrow Hsalt), Hon.
  reflexivity.
Qed.

Lemma check_password_keeps (new_salt : bytes) (db : user_db) (login password : string) :
    password_tokens (snd (check_password new_salt db login password))
      = password_tokens db
    /\ password_tokens_seq (snd (check_password new_salt db login password))
       = password_tokens_seq db
    /\ List.map account_fields (users (snd (check_password new_salt db login password)))
       = List.map account_fields (users db)
    /\ (fst (check_password new_salt db login password) = false ->
        snd (check_password new_salt db login password) = db).
Proof.
  unfold check_password, check_password_path.
  destruct (select_user login (users db)) as [row |]; [| cbn; auto].
  destruct (negb _); [cbn; auto |].
  destruct (_ && _).
  - cbn. repeat split; [apply update_credential_accounts | discriminate].
  - destruct (_ || _); cbn; auto.
Qed.

(** X5. Checking a password never touches the token table, never adds,
    removes, renames, activates or deactivates an account, and writes
    nothing at all when it answers false. *)
Theorem check_password_frame :
  forall (new_salt : bytes) (db : user_db) (login password : string),
    password_tokens (snd (check_password new_salt db login password))
      = password_tokens db
    /\ password_tokens_seq (snd (check_password new_salt db login password))
       = password_tokens_seq db
    /\ List.map account_fields (users (snd (check_password new_salt db login password)))
       = List.map account_fields (users db)
    /\ (fst (check_password new_salt db login password) = false ->
        snd (check_password new_salt db login password) = db).
Proof. exact check_password_keeps. Qed.

Lemma fromhex_length n : forall s,
  String.length s = (2 * n)%nat -> forall_chars is_hex s = true ->
  length (fromhex s) = n.
Proof.
  induction n as [| n IH]; intros s Hlen Hhex.
  - destruct s; [reflexivity | discriminate].
  - destruct s as [| a [| b r]]; try (simpl in Hlen; lia).
    cbn [forall_chars] in Hhex.
    apply andb_true_iff in Hhex as [Ha Hhex].
    apply andb_true_iff in Hhex as [Hb Hhex].
    cbn [fromhex]. unfold is_hex in Ha, Hb.
    destruct (hex_value a); [| discriminate].
    destruct (hex_value b); [| discriminate].
    cbn [length]. f_equal. apply IH; [simpl in Hlen; lia | exact Hhex].
Qed.

Lemma utf8_length s : (String.length s <= length (utf8 s))%nat.
Proof.
  induction s as [| c s IH]; simpl; [lia |].
  destruct (ord c <? 128); simpl; lia.
Qed.

(** X6. A credential kept as text made of an even number of hexadecimal
    digits is read as the bytes those digits spell, half as many as the
    digits. On a row without salt no password as long as that text, the
    text itself included, signs in: the later plaintext comparison is made
    with the decoded bytes. *)
Theorem hex_text_credential_refused :
  forall (new_salt : bytes) (db : user_db) (login : string) (row : users_row)
         (t password : string),
    select_user login (users db) = Some row ->
    u_password_hash row = SqlText t ->
    _to_bytes (u_salt row) = [] ->
    strip t <> "" ->
    Nat.even (String.length (strip t)) = true ->
    forall_chars is_hex (strip t) = true ->
    (String.length (strip t) <= String.length password)%nat ->
    (2 * length (_to_bytes (u_password_hash row)) = String.length (strip t))%nat
    /\ check_password new_salt db login password = (false, db).
Proof.
  intros new_salt db login row t password Hrow Htext Hsalt Hne Heven Hhex Hlong.
  assert (exists n, String.length (strip t) = (2 * n)%nat) as [n Hn].
  { apply Nat.even_spec in Heven as [n Hn]. exists n. exact Hn. }
  assert (_to_bytes (u_password_hash row) = fromhex (strip t)) as Hstored.
  { rewrite Htext. cbn [_to_bytes]. rewrite Heven, Hhex. reflexivity. }
  pose proof (fromhex_length n _ Hn Hhex) as Hhalf.
  split; [rewrite Hstored, Hhalf, Hn; reflexivity |].
  assert (0 < n)%nat as Hpos.
  { destruct (strip t); [congruence | simpl in Hn; lia]. }
  unfold check_password, check_password_path. rewrite Hrow.
  destruct (negb _); [reflexivity |].
  rewrite Hsalt, Hstored.
  rewrite (bool_decide_eq_false_2 (fromhex (strip t) = utf8 password)).
  - rewrite andb_false_r. reflexivity.
  - intros Heq. pose proof (utf8_length password) as Hu.
    rewrite <- Heq, Hhalf in Hu. lia.
Qed.

(** The row the lookup of [ensure_user] answers is a row its WHERE clause
    matches; it answers none exactly when the clause matches none. *)
Lemma select_ensured_row email username us r :
  select_ensured email username us = Some r ->
  In r us /\ ensure_matches email username r = true.
Proof.
  unfold select_ensured, ensure_matches.
  destruct username as [n |];
    [destruct (str_empty n) |];
    try (intros Hfind; apply find_some in Hfind as [Hin ->]; auto).
  destruct (List.find (email_is email) us) as [u |] eqn:Hmail.
  - intros [= <-]. apply find_some in Hmail as [Hin ->]. auto.
  - intros Hname. apply find_some in Hname as [Hin ->]. split; [exact Hin |].
    apply orb_true_r.
Qed.

Lemma select_ensured_none email username us :
  select_ensured email username us = None ->
  forall u, In u us -> ensure_matches email username u = false.
Proof.
  unfold select_ensured, ensure_matches.
  destruct username as [n |];
    [destruct (str_empty n) |];
    try (intros Hfind u Hin; exact (find_none _ _ Hfind u Hin)).
  destruct (List.find (email_is email) us) as [r |] eqn:Hmail; [discriminate |].
  intros Hname u Hin.
  rewrite (find_none _ _ Hmail u Hin), (find_none _ _ Hname u Hin). reflexivity.
Qed.

Lemma select_ensured_email email username us :
  select_ensured email username us = None ->
  List.find (email_is email) us = None.
Proof.
  unfold select_ensured.
  destruct username as [n |]; [destruct (str_empty n) |]; try (intros Hf; exact Hf).
  destruct (List.find (email_is email) us); [discriminate | reflexivity].
Qed.

(** With a username that is not empty, the lookup of [ensure_user] covers
    both UNIQUE columns: when it finds no row, the insertion clashes with
    none. *)
Lemma ensure_user_no_clash email n us :
  n <> "" ->
  select_ensured email (Some n) us = None ->
  unique_clash email (Some n) us = false.
Proof.
  intros Hn Hfind. unfold unique_clash.
  pose proof (select_ensured_none _ _ _ Hfind) as Hall.
  induction us as [| u us IH]; [reflexivity |]. cbn [existsb].
  rewrite IH.
  - pose proof (Hall u (or_introl eq_refl)) as Hu.
    unfold ensure_matches, email_is, username_is in Hu.
    rewrite (str_empty_false _ Hn) in Hu. rewrite orb_false_r.
    destruct (u_username u); exact Hu.
  - unfold select_ensured in *. rewrite (str_empty_false _ Hn) in *.
    cbn [List.find] in Hfind.
    destruct (email_is email u); [discriminate |].
    destruct (List.find (email_is email) us); [discriminate |].
    cbn [List.find] in Hfind. destruct (username_is n u); [discriminate | exact Hfind].
  - intros v Hv. apply Hall. right. exact Hv.
Qed.

(** What a call of [ensure_user] that returns did: it found a row and
    wrote nothing, or it found none and appended one. *)
Lemma ensure_user_cases generated salt users_seq db email password username role
    is_active uid db1 :
  ensure_user generated salt users_seq db email password username role is_active
    = Some (uid, db1) ->
  (exists r, select_ensured email username (users db) = Some r
             /\ uid = u_id r /\ db1 = db)
  \/ (select_ensured email username (users db) = None
      /\ uid = next_rowid users_seq (List.map u_id (users db))
      /\ exists pwh,
           db1 = mk_db (users db
                        ++ [mk_user uid email username (SqlBlob pwh) (SqlBlob salt)
                                    (Some role) (Some (if is_active then 1 else 0))])
                       (password_tokens db) (password_tokens_seq db)).
Proof.
  unfold ensure_user.
  destruct (select_ensured _ _ (users db)) as [r |].
  - intros [= <- <-]. left. exists r. auto.
  - destruct (unique_clash _ _ _); [discriminate |].
    intros [= <- <-]. right. split; [reflexivity |]. split; [reflexivity |].
    eexists. reflexivity.
Qed.

(** After rows none of which has the email, a row that has it is the row
    the lookup of [ensure_user] answers. *)
Lemma select_ensured_added email username us row :
  List.find (email_is email) us = None ->
  u_email row = email ->
  select_ensured email username (us ++ [row]) = Some row.
Proof.
  intros Hnone Hmail.
  assert (List.find (email_is email) (us ++ [row]) = Some row) as Hfound.
  { rewrite (find_added _ _ row Hnone). unfold email_is.
    rewrite Hmail, String.eqb_refl. reflexivity. }
  unfold select_ensured.
  destruct username as [n |]; [destruct (str_empty n) |]; rewrite Hfound; reflexivity.
Qed.

(** X7. [ensure_user] is idempotent: once it has answered an id, asking
    again for the same email and username answers the same id and writes
    nothing, whatever password, role or activation the second call
    carries; the credential of an account that exists is never replaced
    by it. *)
Theorem ensure_user_idempotent :
  forall (generated : string) (salt : bytes) (users_seq : Z) (db : user_db)
         (email : string) (password : option string) (username : option string)
         (role : string) (is_active : bool) (uid : Z) (db1 : user_db),
    ensure_user generated salt users_seq db email password username role is_active
      = Some (uid, db1) ->
    forall (generated' : string) (salt' : bytes) (users_seq' : Z)
           (password' : option string) (role' : string) (is_active' : bool),
      ensure_user generated' salt' users_seq' db1 email password' username role'
                  is_active' = Some (uid, db1).
Proof.
  intros generated salt users_seq db email password username role is_active uid db1
         Hfirst generated' salt' users_seq' password' role' is_active'.
  apply ensure_user_cases in Hfirst
    as [(r & Hfind & -> & ->) | (Hfind & Huid & pwh & ->)].
  - unfold ensure_user. rewrite Hfind. reflexivity.
  - unfold ensure_user. cbn [users].
    rewrite select_ensured_added;
      [reflexivity | exact (select_ensured_email _ _ _ Hfind) | reflexivity].
Qed.

Lemma select_user_none_matches login us u :
  select_user login us = None -> In u us -> login_matches login u = false.
Proof. intros Hnone. apply select_user_none. exact Hnone. Qed.

Lemma find_none_from {A} (p : A -> bool) (l : list A) :
  (forall x, In x l -> p x = false) -> List.find p l = None.
Proof.
  induction l as [| x l IH]; simpl; [reflexivity |].
  intros Hall. rewrite (Hall x) by auto. apply IH. auto.
Qed.

(** When neither the email nor the username is a login of an account,
    [ensure_user] appends the row. *)
Lemma ensure_user_fresh generated salt users_seq db email password n role is_active :
  n <> "" ->
  select_user email (users db) = None ->
  select_user n (users db) = None ->
  let uid := next_rowid users_seq (List.map u_id (users db)) in
  let digest := pbkdf2_hmac_sha256 (utf8 password) salt 200000 in
  ensure_user generated salt users_seq db email (Some password) (Some n) role is_active
  = Some (uid,
          mk_db (users db
                 ++ [mk_user uid email (Some n) (SqlBlob digest) (SqlBlob salt)
                             (Some role) (Some (if is_active then 1 else 0))])
                (password_tokens db) (password_tokens_seq db)).
Proof.
  intros Hn Hemail Hname uid digest.
  assert (select_ensured email (Some n) (users db) = None) as Hfind.
  { unfold select_ensured. rewrite (str_empty_false _ Hn).
    rewrite !find_none_from; [reflexivity | |]; intros u Hin.
    - pose proof (select_user_none_matches _ _ _ Hname Hin) as Hu.
      unfold login_matches in Hu. apply orb_false_iff in Hu as [_ Hu]. exact Hu.
    - pose proof (select_user_none_matches _ _ _ Hemail Hin) as He.
      unfold login_matches in He. apply orb_false_iff in He as [He _]. exact He. }
  unfold ensure_user. rewrite Hfind, (ensure_user_no_clash _ _ _ Hn Hfind).
  reflexivity.
Qed.

(** The row [ensure_user] appended is the one its email and its username
    select, and the password it was created with opens it exactly when
    it was created active. *)
Lemma created_account_login new_salt salt us ts seq uid email n role
    (is_active : bool) password login :
  select_user login us = None ->
  login = email \/ login = n ->
  legacy_salt salt = false ->
  let digest := pbkdf2_hmac_sha256 (utf8 password) salt 200000 in
  let db1 := mk_db (us ++ [mk_user uid email (Some n) (SqlBlob digest) (SqlBlob salt)
                                   (Some role) (Some (if is_active then 1 else 0))])
                   ts seq in
  check_password new_salt db1 login password = (is_active, db1).
Proof.
  intros Hnone Hlogin Hsalt digest db1.
  unfold check_password, check_password_path. unfold db1 at 1. cbn [users].
  rewrite (select_user_added _ _ _ Hnone).
  assert (login_matches login
            (mk_user uid email (Some n) (SqlBlob digest) (SqlBlob salt) (Some role)
                     (Some (if is_active then 1 else 0))) = true) as ->.
  { unfold login_matches, email_is, username_is. cbn [u_email u_username].
    destruct Hlogin as [-> | ->]; rewrite String.eqb_refl; [reflexivity |].
    apply orb_true_r. }
  cbn [u_is_active u_password_hash u_salt u_id _to_bytes truthy].
  destruct is_active; [| reflexivity].
  cbn [Z.eqb negb]. rewrite Hsalt. cbn [andb].
  rewrite (legacy_salt_not_empty _ Hsalt). unfold digest at 1.
  rewrite digest_not_empty. cbn [orb].
  unfold _hash_password. cbn [_to_bytes].
  rewrite bool_decide_eq_true_2 by reflexivity. reflexivity.
Qed.

(** X8. When neither the email nor the non-empty username is a login of
    an account, [ensure_user] appends one row under an id above every id
    of the table and leaves the other rows as they were; the password it
    was given then signs in, by the email and by the username, exactly
    when the account was created active. *)
Theorem ensure_user_creates_login :
  forall (generated : string) (salt new_salt : bytes) (users_seq : Z)
         (db : user_db) (email password n role : string) (is_active : bool),
    n <> "" ->
    select_user email (users db) = None ->
    select_user n (users db) = None ->
    legacy_salt salt = false ->
    exists uid db1 new_row,
      ensure_user generated salt users_seq db email (Some password) (Some n) role
                  is_active = Some (uid, db1)
      /\ users db1 = users db ++ [new_row]
      /\ u_id new_row = uid
      /\ Forall (fun u => u_id u < uid) (users db)
      /\ password_tokens db1 = password_tokens db
      /\ check_password new_salt db1 email password = (is_active, db1)
      /\ check_password new_salt db1 n password = (is_active, db1).
Proof.
  intros generated salt new_salt users_seq db email password n role is_active
         Hn Hemail Hname Hsalt.
  do 3 eexists. split; [apply ensure_user_fresh; assumption |].
  split; [reflexivity |]. split; [reflexivity |].
  split.
  { apply List.Forall_forall. intros u Hin.
    pose proof (fold_max_bound (List.map u_id (users db)) (u_id u)
                  (List.in_map u_id _ _ Hin)).
    unfold next_rowid. lia. }
  split; [reflexivity |].
  split; apply created_account_login; auto.
Qed.

(** X9. Registration never reports that an email or a username is
    taken: with the fields filled, [ensure_user] finds the row before it
    could clash. Registering an email or a username an account already
    has answers that the registration was received and leaves the store
    as it was, the account's credential included. *)
Theorem register_existing_account_untouched :
  (forall generated salt users_seq store r_username r_email r_pwd1 r_pwd2,
     fst (register generated salt users_seq store r_username r_email r_pwd1 r_pwd2)
     <> Warning REGISTER_TAKEN)
  /\ (forall generated salt users_seq store r_username r_email r_pwd1 r_pwd2 row,
        In row (users store) ->
        u_email row = r_email \/ u_username row = Some r_username ->
        r_email <> "" -> r_username <> "" ->
        r_pwd1 = r_pwd2 ->
        (8 <= String.length r_pwd1)%nat ->
        register generated salt users_seq store r_username r_email r_pwd1 r_pwd2
        = (Success REGISTER_RECEIVED, store)).
Proof.
  split.
  - intros generated salt users_seq store r_username r_email r_pwd1 r_pwd2.
    unfold register.
    destruct (str_empty r_email || str_empty r_pwd1) eqn:He; [cbn; discriminate |].
    destruct r_username as [| c name]; [cbn; discriminate |].
    cbn [str_empty orb].
    destruct (negb _); [cbn; discriminate |].
    destruct (_ <? _)%nat; [cbn; discriminate |].
    unfold ensure_user.
    destruct (select_ensured _ _ (users store)) as [r |] eqn:Hfind;
      [cbn; discriminate |].
    assert (String c name <> "") as Hname by discriminate.
    rewrite (ensure_user_no_clash _ _ _ Hname Hfind).
    cbn. discriminate.
  - intros generated salt users_seq store r_username r_email r_pwd1 r_pwd2 row
           Hin Hsame He Hu <- Hlen.
    unfold register.
    rewrite (str_empty_false _ He), (str_empty_false _ Hu), (str_empty_long _ 7 Hlen).
    rewrite String.eqb_refl.
    assert ((String.length r_pwd1 <? 8)%nat = false) as -> by (apply Nat.ltb_ge; lia).
    cbn [orb negb]. unfold ensure_user.
    destruct (select_ensured _ _ (users store)) as [r |] eqn:Hfind; [reflexivity |].
    exfalso. pose proof (select_ensured_none _ _ _ Hfind row Hin) as Hno.
    unfold ensure_matches, email_is, username_is in Hno.
    rewrite (str_empty_false _ Hu) in Hno.
    apply orb_false_iff in Hno as [Hmail Hname].
    destruct Hsame as [Hs | Hs].
    + rewrite Hs, String.eqb_refl in Hmail. discriminate.
    + rewrite Hs, String.eqb_refl in Hname. discriminate.
Qed.

(** X10. A registration with the fields filled, for an email and a
    username that are logins of no account, is received and adds an
    inactive account: signing in with the registered password, by the
    email or by the username, is refused until the account is activated. *)
Theorem registered_account_cannot_sign_in :
  forall (generated : string) (salt : bytes) (users_seq : Z) (store : user_db)
         (r_username r_email r_pwd : string),
    r_email <> "" -> r_username <> "" ->
    (8 <= String.length r_pwd)%nat ->
    select_user r_email (users store) = None ->
    select_user r_username (users store) = None ->
    exists store',
      register generated salt users_seq store r_username r_email r_pwd r_pwd
        = (Success REGISTER_RECEIVED, store')
      /\ length (users store') = S (length (users store))
      /\ forall new_salt other user login_error login_id,
           login_id = r_email \/ login_id = r_username ->
           _do_login new_salt store' other user login_error login_id r_pwd
           = ((user, LOGIN_REFUSED), store').
Proof.
  intros generated salt users_seq store r_username r_email r_pwd
         He Hu Hlen Hemail Hname.
  eexists. split.
  { unfold register.
    rewrite (str_empty_false _ He), (str_empty_false _ Hu), (str_empty_long _ 7 Hlen).
    rewrite String.eqb_refl.
    assert ((String.length r_pwd <? 8)%nat = false) as -> by (apply Nat.ltb_ge; lia).
    cbn [orb negb].
    rewrite (ensure_user_fresh generated salt users_seq store r_email r_pwd r_username
               "User" false Hu Hemail Hname).
    reflexivity. }
  split; [cbn [users]; rewrite List.length_app; simpl; lia |].
  intros new_salt other user login_error login_id Hlogin.
  unfold _do_login.
  assert (str_empty login_id = false) as ->
    by (destruct Hlogin as [-> | ->]; apply str_empty_false; assumption).
  rewrite (str_empty_long _ 7 Hlen). cbn [orb].
  assert (select_user login_id (users store) = None) as Hnone
    by (destruct Hlogin as [-> | ->]; assumption).
  unfold check_password, check_password_path. cbn [users].
  rewrite (select_user_added _ _ _ Hnone).
  match goal with
  | |- context [login_matches login_id ?r] =>
      assert (login_matches login_id r = true) as ->
  end.
  { unfold login_matches, email_is, username_is. cbn [u_email u_username].
    destruct Hlogin as [-> | ->]; rewrite String.eqb_refl; [reflexivity |].
    apply orb_true_r. }
  reflexivity.
Qed.

(** X11. Signing in, when [auth.py] and [db.py] open one database file,
    opens a session exactly when [check_password] answers true, for the
    account the login selects, with its id, email, username and role; a
    refused or empty attempt leaves the session as it was. The
    pending-approval message is then never shown: an inactive account is
    already refused by the password check. *)
Theorem do_login_outcomes :
  forall (new_salt : bytes) (store : user_db) (user : option session_user)
         (login_error login_id password : string),
    snd (fst (_do_login new_salt store None user login_error login_id password))
      <> LOGIN_PENDING
    /\ snd (_do_login new_salt store None user login_error login_id password)
       = (if str_empty login_id || str_empty password then store
          else snd (check_password new_salt store login_id password))
    /\ (login_id = "" \/ password = ""
        \/ fst (check_password new_salt store login_id password) = false ->
        fst (fst (_do_login new_salt store None user login_error login_id password))
        = user)
    /\ (login_id <> "" -> password <> "" ->
        fst (check_password new_salt store login_id password) = true ->
        exists row,
          select_user login_id (users store) = Some row
          /\ truthy (u_is_active row) = true
          /\ fst (_do_login new_salt store None user login_error login_id password)
             = (Some (mk_session_user (u_id row) (u_email row) (u_username row)
                                      (u_role row)), "")).
Proof.
  intros new_salt store user login_error login_id password.
  assert (forall row,
            select_user login_id (users store) = Some row ->
            get_user_min_by_login
              (snd (check_password new_salt store login_id password)) login_id
            = Some (mk_user_min (u_id row) (u_email row) (u_username row) (u_role row)
                                (truthy (u_is_active row)))) as Hmin.
  { intros row Hrow. unfold get_user_min_by_login, check_password, check_password_path.
    rewrite Hrow.
    destruct (negb _); [cbn; rewrite Hrow; reflexivity |].
    destruct (_ && _).
    - cbn [snd users]. rewrite select_user_update, Hrow. cbn [option_map].
      rewrite Z.eqb_refl. reflexivity.
    - destruct (_ || _); cbn; rewrite Hrow; reflexivity. }
  assert (fst (check_password new_salt store login_id password) = true ->
          exists row, select_user login_id (users store) = Some row
                      /\ truthy (u_is_active row) = true) as Hok.
  { unfold check_password, check_password_path.
    destruct (select_user login_id (users store)) as [row |]; [| cbn; discriminate].
    destruct (truthy (u_is_active row)) eqn:Hon; [| cbn; discriminate].
    intros _. exists row. auto. }
  unfold _do_login.
  destruct (str_empty login_id) eqn:Hl.
  { cbn [orb]. repeat split; cbn; try discriminate.
    intros Hne. destruct login_id; [congruence | discriminate]. }
  destruct (str_empty password) eqn:Hp.
  { cbn [orb]. repeat split; cbn; try discriminate.
    intros _ Hne. destruct password; [congruence | discriminate]. }
  cbn [orb].
  destruct (check_password new_salt store login_id password) as [ok store'] eqn:Hcheck.
  cbn [fst snd default] in *.
  destruct ok; cbn [negb].
  - destruct (Hok eq_refl) as (row & Hrow & Hon).
    rewrite (Hmin row Hrow). cbn [min_is_active]. rewrite Hon. cbn [negb].
    repeat split; cbn; try discriminate.
    + intros [-> | [-> | Hf]]; discriminate.
    + intros _ _ _. exists row. cbn. auto.
  - repeat split; cbn; try discriminate.
Qed.

(** X12. The Change Password button writes to the store only when it
    reports success, and it reports success only for a confirmed new
    password of eight characters or more, with the message of the
    redemption; it never shows a warning. *)
Theorem change_password_form_guard :
  forall (salt : bytes) (now : datetime) (store : user_db)
         (fp_token fp_new fp_new2 : string),
    match fst (change_password salt now store fp_token fp_new fp_new2) with
    | Success msg =>
        msg = MSG_CHANGED /\ fp_new = fp_new2 /\ (8 <= String.length fp_new)%nat
        /\ fp_token <> ""
    | Error _ => snd (change_password salt now store fp_token fp_new fp_new2) = store
    | Warning _ => False
    end.
Proof.
  intros salt now store fp_token fp_new fp_new2. unfold change_password.
  destruct (String.eqb_spec fp_new fp_new2) as [<- | Hne]; [| reflexivity].
  cbn [negb].
  destruct (String.length fp_new <? 8)%nat eqn:Hlen; [reflexivity |].
  apply Nat.ltb_ge in Hlen.
  pose proof (verify_refused_store salt now store fp_token fp_new) as Hframe.
  destruct (verify_token_and_change_password salt now store fp_token fp_new)
    as [[ok msg] store'] eqn:Hv.
  cbn [fst snd] in *. destruct ok; cbn [fst snd].
  - assert (fst (fst (verify_token_and_change_password salt now store fp_token fp_new))
            = true) as Hok by (rewrite Hv; reflexivity).
    unfold verify_token_and_change_password in Hv, Hok.
    destruct fp_token as [| c tok]; [cbn in Hok; discriminate |].
    repeat split; try assumption; try discriminate.
    revert Hv. clear Hok.
    destruct (str_empty _ || _); [discriminate |].
    destruct (select_token _ _); [| discriminate].
    destruct (negb _); [discriminate |].
    destruct (t_used_at _); [discriminate |].
    destruct (strptime _); [| discriminate].
    destruct (gtb _ _); [discriminate |].
    destruct (_ <? _)%nat; [discriminate |].
    intros [= <- _]. reflexivity.
  - apply Hframe. reflexivity.
Qed.

Lemma next_rowid_fresh seq ids x : In x ids -> x < next_rowid seq ids.
Proof.
  intros Hin. pose proof (fold_max_bound ids x Hin). unfold next_rowid. lia.
Qed.

Lemma op_step_keeps db db' :
  op_step db db' ->
  List.map account_fields (users db') = List.map account_fields (users db)
  /\ (exists more,
        List.map token_fields (password_tokens db')
        = List.map token_fields (password_tokens db) ++ more)
  /\ (NoDup (List.map t_id (password_tokens db)) ->
      NoDup (List.map t_id (password_tokens db'))).
Proof.
  intros Hstep. destruct Hstep as
    [new_salt db login password
    | salt db user_id new_password db' Hset
    | token now relay db login app_name link_base_url outcome db' Hreq
    | salt now db token new_password].
  - destruct (check_password_keeps new_salt db login password) as (Ht & _ & Hu & _).
    rewrite Ht. split; [exact Hu |]. split; [| auto].
    exists []. rewrite List.app_nil_r. reflexivity.
  - unfold set_password in Hset. destruct (_ || _); [discriminate |].
    injection Hset as <-. cbn [users password_tokens].
    split; [apply update_credential_accounts |]. split; [| auto].
    exists []. rewrite List.app_nil_r. reflexivity.
  - unfold request_password_change in Hreq.
    assert (db' = db \/
            exists new_row,
              t_id new_row = next_rowid (password_tokens_seq db)
                                        (List.map t_id (password_tokens db))
              /\ users db' = users db
              /\ password_tokens db' = password_tokens db ++ [new_row]) as Hcases.
    { destruct (_get_user_by_login db login) as [user |];
        [| injection Hreq as _ <-; auto].
      destruct (negb _); [injection Hreq as _ <-; auto |].
      unfold _create_token in Hreq.
      destruct (add_minutes now 15) as [expiry |]; [| discriminate].
      destruct (_send_email _ _ _ _); injection Hreq as _ <-;
        right; eexists; cbn; repeat split; reflexivity. }
    destruct Hcases as [-> | (new_row & Hid & Hus & Hts)].
    + split; [reflexivity |]. split; [| auto].
      exists []. rewrite List.app_nil_r. reflexivity.
    + rewrite Hus, Hts. split; [reflexivity |].
      split; [exists [token_fields new_row]; apply List.map_app |].
      intros Hnd. rewrite List.map_app. cbn [List.map].
      apply NoDup_app. split; [exact Hnd |].
      split; [| apply NoDup_singleton].
      intros x Hx Hnew. apply list_elem_of_In in Hx.
      apply list_elem_of_In in Hnew. destruct Hnew as [Hnew | []].
      pose proof (next_rowid_fresh (password_tokens_seq db) _ x Hx). lia.
  - unfold verify_token_and_change_password.
    assert (forall (r : bool * string),
              List.map account_fields (users (snd (r, db)))
              = List.map account_fields (users db)
              /\ (exists more,
                    List.map token_fields (password_tokens (snd (r, db)))
                    = List.map token_fields (password_tokens db) ++ more)
              /\ (NoDup (List.map t_id (password_tokens db)) ->
                  NoDup (List.map t_id (password_tokens (snd (r, db)))))) as Hsame.
    { intros r. cbn [snd]. split; [reflexivity |]. split; [| auto].
      exists []. rewrite List.app_nil_r. reflexivity. }
    destruct (_ || _); [apply Hsame |].
    destruct (select_token _ _) as [row |]; [| apply Hsame].
    destruct (negb _); [apply Hsame |].
    destruct (t_used_at row); [apply Hsame |].
    destruct (strptime _); [| apply Hsame].
    destruct (gtb _ _); [apply Hsame |].
    destruct (_ <? _)%nat; [apply Hsame |].
    cbn [snd users password_tokens].
    split; [apply update_credential_accounts |].
    split; [exists []; rewrite List.app_nil_r; apply mark_used_tokens |].
    rewrite mark_used_ids. auto.
Qed.

(** X13. Whatever sequence of password checks, password settings, reset
    requests and redemptions runs, the accounts stay the same accounts
    (no row of [users] is added, removed, renamed, given another role,
    activated or deactivated), every token row stays in its place with
    its owner, text, purpose and expiry while new ones are added after
    it, and the ids of the token rows stay distinct. *)
Theorem auth_operations_keep_accounts :
  forall (db db' : user_db),
    rtc op_step db db' ->
    List.map account_fields (users db') = List.map account_fields (users db)
    /\ (exists more,
          List.map token_fields (password_tokens db')
          = List.map token_fields (password_tokens db) ++ more)
    /\ (NoDup (List.map t_id (password_tokens db)) ->
        NoDup (List.map t_id (password_tokens db'))).
Proof.
  intros db db' Hrun. induction Hrun as [db | db db1 db2 Hstep _ IH].
  - split; [reflexivity |]. split; [| auto].
    exists []. rewrite List.app_nil_r. reflexivity.
  - destruct (op_step_keeps _ _ Hstep) as (Hu1 & (more1 & Ht1) & Hn1).
    destruct IH as (Hu2 & (more2 & Ht2) & Hn2).
    split; [congruence |].
    split; [exists (more1 ++ more2); rewrite Ht2, Ht1, <- List.app_assoc; reflexivity |].
    auto.
Qed.

End AccountFacts.

Section AccountExamples.
Import pytext pydatetime sqlite auth db app.

Lemma set_password_then_login_witness :
  exists db',
    @set_password padded_pbkdf2 salt_07 hashed_db 1 "brand-new-pw" = Some db'
    /\ @check_password padded_pbkdf2 [] db' "a@x.com" "brand-new-pw" = (true, db').
Proof.
  destruct (proj2 (@set_password_then_login padded_pbkdf2 salt_07 [] hashed_db 1
                     "brand-new-pw"))
    as (db' & Hset & _ & _ & _ & Hlogin); [vm_compute; lia |].
  exists db'. split; [exact Hset |].
  apply (Hlogin "a@x.com" (hashed_row 1 "a@x.com" "pw123456" 1));
    reflexivity.
Defined.

Lemma redeem_refused_writes_nothing_witness :
  snd (@verify_token_and_change_password padded_pbkdf2 layout_strptime salt_07
         quarter_past issued_db "tok-abc" "new-pass-1") = issued_db.
Proof.
  apply (@redeem_refused_writes_nothing padded_pbkdf2 layout_strptime).
  vm_compute. reflexivity.
Defined.

Lemma redeem_accepts_only_valid_witness :
  exists row exp_dt,
    select_token "tok-abc" (password_tokens issued_db) = Some row
    /\ t_purpose row = "password_change"
    /\ t_used_at row = None
    /\ strptime_layout (t_expires_at row) = Some exp_dt
    /\ gtb noon exp_dt = false.
Proof.
  apply (@redeem_accepts_only_valid padded_pbkdf2 layout_strptime salt_07 noon
           issued_db "tok-abc" "new-pass-1").
  vm_compute. reflexivity.
Defined.

Lemma reset_then_login_witness :
  exists outcome db1 db2,
    request_password_change "tok-abc" noon always_delivers hashed_db "a@x.com"
      "Takeout MS" None = Some (outcome, db1)
    /\ @verify_token_and_change_password padded_pbkdf2 layout_strptime salt_07 noon
         db1 "tok-abc" "new-pass-1" = ((true, MSG_CHANGED), db2)
    /\ @check_password padded_pbkdf2 [] db2 "a@x.com" "new-pass-1" = (true, db2).
Proof.
  apply (@reset_then_login padded_pbkdf2 layout_strptime "tok-abc" noon
           always_delivers hashed_db "a@x.com" "Takeout MS" None
           (hashed_row 1 "a@x.com" "pw123456" 1)
           (mk_datetime 2025 1 1 12 15 0 900000) salt_07 [] noon "new-pass-1").
  - reflexivity.
  - reflexivity.
  - apply validb_valid. reflexivity.
  - discriminate.
  - reflexivity.
  - reflexivity.
  - reflexivity.
  - vm_compute. lia.
  - reflexivity.
Defined.

(** An account whose plaintext password, eight hexadecimal digits, was
    stored as text. *)
Definition hex_db : user_db :=
  mk_db [mk_user 1 "h@x.com" None (SqlText "cafe1234") (SqlBlob []) (Some "User")
                 (Some 1)] [] 0.

Lemma hex_text_credential_refused_witness :
  (2 * length (_to_bytes (SqlText "cafe1234")) = 8)%nat
  /\ @check_password padded_pbkdf2 salt_07 hex_db "h@x.com" "cafe1234" = (false, hex_db).
Proof.
  apply (@hex_text_credential_refused padded_pbkdf2 salt_07 hex_db "h@x.com"
           (mk_user 1 "h@x.com" None (SqlText "cafe1234") (SqlBlob []) (Some "User")
                    (Some 1)) "cafe1234" "cafe1234");
    first [reflexivity | discriminate | vm_compute; lia].
Defined.

Lemma ensure_user_idempotent_witness :
  @ensure_user padded_pbkdf2 "generated" salt_07 2 hashed_db "a@x.com"
     (Some "another-password") None "Admin" true = Some (1, hashed_db).
Proof.
  apply (@ensure_user_idempotent padded_pbkdf2 "" [] 2 hashed_db "a@x.com" None None
           "User" true 1 hashed_db).
  reflexivity.
Defined.

Lemma ensure_user_creates_login_witness :
  exists uid db1 new_row,
    @ensure_user padded_pbkdf2 "generated" salt_07 2 hashed_db "new@x.com"
       (Some "pw-of-newbie") (Some "newbie") "User" true = Some (uid, db1)
    /\ users db1 = users hashed_db ++ [new_row]
    /\ u_id new_row = uid
    /\ Forall (fun u => u_id u < uid) (users hashed_db)
    /\ password_tokens db1 = password_tokens hashed_db
    /\ @check_password padded_pbkdf2 [] db1 "new@x.com" "pw-of-newbie" = (true, db1)
    /\ @check_password padded_pbkdf2 [] db1 "newbie" "pw-of-newbie" = (true, db1).
Proof.
  apply (@ensure_user_creates_login padded_pbkdf2 "generated" salt_07 [] 2 hashed_db
           "new@x.com" "pw-of-newbie" "newbie" "User" true);
    [discriminate | reflexivity | reflexivity | reflexivity].
Defined.

Lemma register_existing_account_untouched_witness :
  @register padded_pbkdf2 "generated" salt_07 2 hashed_db "intruder" "a@x.com"
     "intruder-pw" "intruder-pw" = (Success REGISTER_RECEIVED, hashed_db).
Proof.
  apply (proj2 (@register_existing_account_untouched padded_pbkdf2) "generated" salt_07
           2 hashed_db "intruder" "a@x.com" "intruder-pw" "intruder-pw"
           (hashed_row 1 "a@x.com" "pw123456" 1)).
  - left. reflexivity.
  - left. reflexivity.
  - discriminate.
  - discriminate.
  - reflexivity.
  - vm_compute. lia.
Defined.

Lemma registered_account_cannot_sign_in_witness :
  exists store',
    @register padded_pbkdf2 "generated" salt_07 2 hashed_db "newbie" "new@x.com"
       "pw-of-newbie" "pw-of-newbie" = (Success REGISTER_RECEIVED, store')
    /\ @_do_login padded_pbkdf2 [] store' None None "" "newbie" "pw-of-newbie"
       = ((None, LOGIN_REFUSED), store').
Proof.
  destruct (@registered_account_cannot_sign_in padded_pbkdf2 "generated" salt_07 2
              hashed_db "newbie" "new@x.com" "pw-of-newbie")
    as (store' & Hreg & _ & Hlogin);
    [discriminate | discriminate | vm_compute; lia | reflexivity | reflexivity |].
  exists store'. split; [exact Hreg |].
  apply Hlogin. right. reflexivity.
Defined.

Lemma do_login_outcomes_witness :
  fst (@_do_login padded_pbkdf2 [] hashed_db None None "" "a@x.com" "pw123456")
  = (Some (mk_session_user 1 "a@x.com" None (Some "User")), "").
Proof.
  destruct (proj2 (proj2 (proj2 (@do_login_outcomes padded_pbkdf2 [] hashed_db None ""
                                   "a@x.com" "pw123456"))))
    as (row & Hrow & _ & Hlogin); [discriminate | discriminate | reflexivity |].
  rewrite Hlogin. vm_compute in Hrow. injection Hrow as <-. reflexivity.
Defined.

Lemma auth_operations_keep_accounts_witness :
  List.map account_fields
    (users (snd (@check_password padded_pbkdf2 salt_07 legacy_db "a@x.com" "pw123456")))
  = List.map account_fields (users legacy_db).
Proof.
  apply (@auth_operations_keep_accounts padded_pbkdf2 layout_strptime).
  apply rtc_once. apply step_check_password.
Defined.

End AccountExamples.

(** ** Invoice numbers, vendors and the text of document numbers *)

Section TextMoreFacts.
Import pytext pydatetime sqlite ui_settings_import.
Context `{PyFloat}.

Lemma append_cons c s t : String c s +:+ t = String c (s +:+ t).
Proof. reflexivity. Qed.

Lemma string_length_app s t :
  String.length (s +:+ t) = (String.length s + String.length t)%nat.
Proof.
  induction s as [| c s IH]; [reflexivity |].
  rewrite append_cons. cbn [String.length]. rewrite IH. reflexivity.
Qed.

Lemma substring_all t : substring 0 (String.length t) t = t.
Proof. induction t as [| c t IH]; simpl; [reflexivity | rewrite IH; reflexivity]. Qed.

Lemma substring_app_r s t :
  substring (String.length s) (String.length t) (s +:+ t) = t.
Proof.
  induction s as [| c s IH]; [apply substring_all |].
  rewrite append_cons. cbn [String.length substring]. exact IH.
Qed.

Lemma substring_app_l s t : substring 0 (String.length s) (s +:+ t) = s.
Proof.
  induction s as [| c s IH].
  - change ("" +:+ t) with t. destruct t; reflexivity.
  - rewrite append_cons. cbn [String.length substring]. rewrite IH. reflexivity.
Qed.

Lemma append_inj_r p a b : p +:+ a = p +:+ b -> a = b.
Proof.
  induction p as [| c p IH]; [auto |].
  rewrite !append_cons. intros [= Heq]. auto.
Qed.

Lemma append_inj_length a b c d :
  String.length a = String.length c -> a +:+ b = c +:+ d -> a = c /\ b = d.
Proof.
  revert c. induction a as [| x a IH]; intros [| y c] Hlen Heq;
    try discriminate Hlen.
  - auto.
  - rewrite !append_cons in Heq. injection Heq as -> Heq.
    injection Hlen as Hlen. destruct (IH c Hlen Heq) as [-> ->]. auto.
Qed.

(** A text without white space. *)
Definition no_space (s : string) : bool :=
  forall_chars (fun c => negb (isspace c)) s.

Lemma remove_chars_clears p s :
  forall_chars (fun c => negb (p c)) (remove_chars p s) = true.
Proof.
  induction s as [| c s IH]; simpl; [reflexivity |].
  destruct (p c) eqn:Hp; simpl; [exact IH |]. rewrite Hp, IH. reflexivity.
Qed.

Lemma remove_chars_same p s :
  forall_chars (fun c => negb (p c)) s = true -> remove_chars p s = s.
Proof.
  induction s as [| c s IH]; simpl; [reflexivity |].
  intros Hs. apply andb_true_iff in Hs as [Hc Hs].
  apply negb_true_iff in Hc. rewrite Hc, (IH Hs). reflexivity.
Qed.

Lemma no_space_app s t : no_space (s +:+ t) = no_space s && no_space t.
Proof.
  unfold no_space. induction s as [| c s IH]; [reflexivity |].
  rewrite append_cons. cbn [forall_chars]. rewrite IH, andb_assoc. reflexivity.
Qed.

Lemma lstrip_no_space s : no_space s = true -> lstrip s = s.
Proof.
  destruct s as [| c s]; [reflexivity |]. unfold no_space. simpl.
  intros Hs. apply andb_true_iff in Hs as [Hc _].
  apply negb_true_iff in Hc. rewrite Hc. reflexivity.
Qed.

Lemma rstrip_no_space s : no_space s = true -> rstrip s = s.
Proof.
  unfold no_space. induction s as [| c s IH]; [reflexivity |].
  cbn [forall_chars]. intros Hs. apply andb_true_iff in Hs as [Hc Hs].
  apply negb_true_iff in Hc. rewrite rstrip_cons, (IH Hs).
  destruct s; [rewrite Hc |]; reflexivity.
Qed.

Lemma strip_no_space s : no_space s = true -> strip s = s.
Proof.
  intros Hs. unfold strip. rewrite (lstrip_no_space _ Hs). apply rstrip_no_space, Hs.
Qed.

Lemma endswith_app s t : endswith t (s +:+ t) = true.
Proof.
  unfold endswith. rewrite string_length_app.
  replace (String.length s + String.length t - String.length t)%nat
    with (String.length s) by lia.
  rewrite substring_app_r, String.eqb_refl, andb_true_r.
  apply Nat.leb_le. lia.
Qed.

Lemma drop_last_app s t : drop_last (String.length t) (s +:+ t) = s.
Proof.
  unfold drop_last. rewrite string_length_app.
  replace (String.length s + String.length t - String.length t)%nat
    with (String.length s) by lia.
  apply substring_app_l.
Qed.

(** X14. The invoice number [_clean_invoice_no] returns never holds
    white space. A number without white space that a spreadsheet wrote as
    a float loses its [.0]: the text before the suffix comes back, the
    suffix being dropped once and not again; a text without white space
    and without the suffix is returned as it is. *)
Theorem clean_invoice_no_shape :
  (forall x, no_space (_clean_invoice_no x) = true)
  /\ (forall s, no_space s = true -> _clean_invoice_no (s +:+ ".0") = s)
  /\ (forall s, no_space s = true -> endswith ".0" s = false ->
                _clean_invoice_no s = s).
Proof.
  split; [| split].
  - intros x. unfold _clean_invoice_no, no_space. cbv zeta.
    apply remove_chars_clears.
  - intros s Hs. unfold _clean_invoice_no. cbv zeta.
    assert (no_space (s +:+ ".0") = true) as Hall
      by (rewrite no_space_app, Hs; reflexivity).
    rewrite (strip_no_space _ Hall), endswith_app.
    change 2%nat with (String.length ".0"). rewrite drop_last_app.
    apply remove_chars_same. exact Hs.
  - intros s Hs Hend. unfold _clean_invoice_no. cbv zeta.
    rewrite (strip_no_space _ Hs), Hend. apply remove_chars_same. exact Hs.
Qed.

Lemma VENDOR_MAP_allowed low mapped :
  dict_get low VENDOR_MAP = Some mapped -> elem mapped ALLOWED_VENDORS = true.
Proof.
  unfold VENDOR_MAP. cbn [dict_get].
  repeat (destruct (String.eqb _ low); [intros [= <-]; reflexivity |]).
  discriminate.
Qed.

(** The keys of the vendor table whose letters and digits begin with
    [takeout] all stand for the Takeout Store. *)
Lemma VENDOR_MAP_takeout low mapped :
  dict_get low VENDOR_MAP = Some mapped ->
  startswith "takeout" (remove_chars (fun c => negb (is_lower_alnum c)) low) = true ->
  mapped = "Takeout Store".
Proof.
  unfold VENDOR_MAP. cbn [dict_get].
  repeat match goal with
         | |- context [String.eqb ?k low] =>
             destruct (String.eqb_spec k low) as [<- | _];
             [intros [= <-] Hp;
              first [reflexivity | vm_compute in Hp; discriminate Hp] |]
         end.
  discriminate.
Qed.

(** X15. What [_clean_vendor] answers. A missing value (blank, [nan],
    [none], [null]) gives the empty text, which is no allowed vendor, so
    the group will be skipped. Otherwise every spelling whose lower-case
    letters and digits begin with [takeout] is the Takeout Store, and the
    answer is an allowed vendor or the title-cased text as typed. *)
Theorem clean_vendor_outcomes :
  forall x : string,
    (is_missing_word (strip x) = true ->
     _clean_vendor x = "" /\ elem (_clean_vendor x) ALLOWED_VENDORS = false)
    /\ (is_missing_word (strip x) = false ->
        (startswith "takeout"
           (remove_chars (fun c => negb (is_lower_alnum c)) (strip (lower (strip x))))
         = true ->
         _clean_vendor x = "Takeout Store")
        /\ (elem (_clean_vendor x) ALLOWED_VENDORS = true
            \/ _clean_vendor x = strip (title (strip x)))).
Proof.
  intros x. unfold _clean_vendor. cbv zeta. split; intros Hm; rewrite Hm.
  - split; reflexivity.
  - destruct (dict_get (strip (lower (strip x))) VENDOR_MAP) as [mapped |] eqn:Hget.
    + split.
      * intros Hp. apply (VENDOR_MAP_takeout _ _ Hget Hp).
      * left. apply (VENDOR_MAP_allowed _ _ Hget).
    + split.
      * intros Hp. rewrite Hp. reflexivity.
      * destruct (startswith "takeout" _); [left; reflexivity |].
        destruct (_ && _); [left; reflexivity |].
        destruct (_ && _); [left; reflexivity |].
        right. reflexivity.
Qed.

(** The number a text of decimal digits denotes, leading zeros allowed. *)
Definition digits_value (s : string) : option Z :=
  option_map Z.of_uint (NilEmpty.uint_of_string s).

Lemma digits_value_zeros k s : digits_value (zeros k +:+ s) = digits_value s.
Proof.
  induction k as [| k IH]; [reflexivity |].
  cbn [zeros]. rewrite append_cons. unfold digits_value in *.
  cbn [NilEmpty.uint_of_string].
  rewrite <- IH.
  destruct (NilEmpty.uint_of_string (zeros k +:+ s)) as [d |]; reflexivity.
Qed.

Lemma to_int_nonneg n :
  0 <= n -> exists d, Z.to_int n = Decimal.Pos d /\ d <> Decimal.Nil.
Proof.
  intros Hn. destruct n as [| p | p]; [| | lia].
  - eexists. split; [reflexivity | discriminate].
  - eexists. split; [reflexivity | apply DecimalPos.Unsigned.to_uint_nonnil].
Qed.

Lemma str_of_Z_digits n :
  0 <= n -> exists d, str_of_Z n = NilEmpty.string_of_uint d /\ Z.of_uint d = n
                      /\ d <> Decimal.Nil.
Proof.
  intros Hn. destruct (to_int_nonneg n Hn) as (d & Hd & Hne).
  exists d. unfold str_of_Z. rewrite Hd. cbn [NilZero.string_of_int].
  split; [destruct d; [congruence | reflexivity ..] |].
  split; [| exact Hne].
  change (Z.of_uint d) with (Z.of_int (Decimal.Pos d)). rewrite <- Hd.
  apply DecimalZ.of_to.
Qed.

Lemma digits_value_str n : 0 <= n -> digits_value (str_of_Z n) = Some n.
Proof.
  intros Hn. destruct (str_of_Z_digits n Hn) as (d & -> & Hv & _).
  unfold digits_value. rewrite NilEmpty.usu. cbn [option_map]. rewrite Hv. reflexivity.
Qed.

Lemma digits_value_zfill width n :
  0 <= n -> digits_value (zfill width (str_of_Z n)) = Some n.
Proof.
  intros Hn. pose proof (digits_value_str n Hn) as Hv.
  destruct (str_of_Z_digits n Hn) as (d & Hs & _ & Hne).
  unfold zfill. cbv zeta. destruct (width <=? _); [exact Hv |].
  rewrite Hs in *.
  destruct d; [congruence | ..]; cbn [NilEmpty.string_of_uint] in *;
    cbn [Ascii.eqb Bool.eqb orb];
    rewrite digits_value_zeros; exact Hv.
Qed.

Lemma strftime_month_length t : String.length (strftime_month t) = 6%nat.
Proof. reflexivity. Qed.

(** A document number tells its month and its sequence number. *)
Lemma doc_no_text_inj cfg ym1 ym2 k1 k2 :
  String.length ym1 = String.length ym2 -> 0 <= k1 -> 0 <= k2 ->
  doc_no_text cfg ym1 k1 = doc_no_text cfg ym2 k2 -> ym1 = ym2 /\ k1 = k2.
Proof.
  intros Hlen H1 H2 Heq. unfold doc_no_text in Heq.
  apply append_inj_r in Heq. rewrite !append_cons in Heq.
  injection Heq as Heq. change ("" +:+ ?s) with s in Heq.
  apply (append_inj_length _ _ _ _ Hlen) in Heq as [-> Heq].
  split; [reflexivity |].
  rewrite ?append_cons in Heq. injection Heq as Heq.
  change ("" +:+ ?s) with s in Heq.
  apply (f_equal digits_value) in Heq.
  rewrite !digits_value_zfill in Heq by assumption. congruence.
Qed.

Definition counters_nonneg (db : app_db) : Prop :=
  map_Forall (fun (_ : string) v => 0 <= v) (sequences db).

Lemma last_issued_nonneg cfg ym db : counters_nonneg db -> 0 <= last_issued cfg ym db.
Proof.
  intros Hdb. unfold last_issued.
  destruct (sequences db !! _) as [v |] eqn:Hv; [| lia].
  exact (Hdb _ _ Hv).
Qed.

Lemma next_doc_no_counters cfg t db when :
  counters_nonneg db -> counters_nonneg (snd (_next_doc_no cfg t db when)).
Proof.
  intros Hdb. unfold _next_doc_no, counters_nonneg. cbv zeta. cbn [snd sequences].
  apply map_Forall_insert_2; [| exact Hdb].
  destruct (sequences db !! _) as [v |] eqn:Hv; [| lia].
  pose proof (Hdb _ _ Hv). simpl in *. lia.
Qed.

Lemma next_doc_no_grows cfg t db when ym :
  last_issued cfg ym db <= last_issued cfg ym (snd (_next_doc_no cfg t db when)).
Proof.
  unfold _next_doc_no, last_issued. cbv zeta. cbn [snd sequences].
  match goal with
  | |- context [<[?name := _]> _ !! ?other] => destruct (decide (name = other)) as [He | Hne]
  end.
  - rewrite He, lookup_insert_eq. destruct (sequences db !! _); lia.
  - rewrite lookup_insert_ne by exact Hne. lia.
Qed.

(** Every number a run issues carries a month of its clock and a sequence
    number above the one the month had reached before the run. *)
Lemma issue_forms cfg clock : forall db x,
  In x (fst (issue cfg db clock)) ->
  exists t k, In t clock /\ x = doc_no_text cfg (strftime_month t) k
              /\ last_issued cfg (strftime_month t) db < k.
Proof.
  induction clock as [| t rest IH]; intros db x Hin; [destruct Hin |].
  cbn [issue] in Hin.
  pose proof (next_doc_no_spec cfg t db) as Hone. cbv zeta in Hone.
  pose proof (fun ym => next_doc_no_grows cfg t db None ym) as Hgrow.
  destruct (_next_doc_no cfg t db None) as [doc_no db1]. cbn [snd] in Hgrow.
  destruct Hone as [-> Hlast].
  specialize (IH db1 x).
  destruct (issue cfg db1 rest) as [doc_nos db2]. cbn [fst] in *.
  destruct Hin as [<- | Hin].
  - exists t, (last_issued cfg (strftime_month t) db + 1).
    split; [left; reflexivity |]. split; [reflexivity | lia].
  - destruct (IH Hin) as (t' & k & Ht' & -> & Hk).
    exists t', k. split; [right; exact Ht' |]. split; [reflexivity |].
    specialize (Hgrow (strftime_month t')). lia.
Qed.

Lemma issue_counters cfg clock : forall db,
  counters_nonneg db -> counters_nonneg (snd (issue cfg db clock)).
Proof.
  induction clock as [| t rest IH]; intros db Hdb; [exact Hdb |].
  cbn [issue].
  pose proof (next_doc_no_counters cfg t db None Hdb) as H1.
  destruct (_next_doc_no cfg t db None) as [doc_no db1]. cbn [snd] in H1.
  specialize (IH db1 H1). destruct (issue cfg db1 rest) as [doc_nos db2].
  exact IH.
Qed.

(** X16. No document number is issued twice in a run of the generator,
    whatever the dates of the calls, when the stored counters are not
    negative (the generator only ever stores positive ones); the counters
    are not negative after the run either, so that this holds run after
    run. *)
Theorem document_numbers_never_repeat :
  forall (cfg : settings) (clock : list datetime) (db : app_db),
    map_Forall (fun (_ : string) v => 0 <= v) (sequences db) ->
    NoDup (fst (issue cfg db clock))
    /\ map_Forall (fun (_ : string) v => 0 <= v) (sequences (snd (issue cfg db clock))).
Proof.
  intros cfg clock db Hdb. split; [| apply issue_counters; exact Hdb].
  revert db Hdb. induction clock as [| t rest IH]; intros db Hdb; [constructor |].
  cbn [issue].
  pose proof (next_doc_no_spec cfg t db) as Hone. cbv zeta in Hone.
  pose proof (next_doc_no_counters cfg t db None Hdb) as H1.
  destruct (_next_doc_no cfg t db None) as [doc_no db1]. cbn [snd] in H1.
  destruct Hone as [-> Hlast].
  specialize (IH db1 H1).
  pose proof (issue_forms cfg rest db1) as Hforms.
  destruct (issue cfg db1 rest) as [doc_nos db2]. cbn [fst] in *.
  constructor; [| exact IH].
  intros Hin. apply list_elem_of_In in Hin.
  destruct (Hforms _ Hin) as (t' & k & _ & Heq & Hk).
  pose proof (last_issued_nonneg cfg (strftime_month t) db Hdb) as H0.
  pose proof (last_issued_nonneg cfg (strftime_month t') db1 H1) as H0'.
  apply doc_no_text_inj in Heq as [Hym <-]; [| reflexivity | lia | lia].
  rewrite <- Hym, Hlast in Hk. lia.
Qed.

End TextMoreFacts.

Section TextMoreExamples.
Import pytext pydatetime sqlite ui_settings_import.
#[local] Existing Instance whole_floats.

Lemma document_numbers_never_repeat_witness :
  NoDup (fst (issue default_settings
                (mk_app_db sales_declared [] 0 [] 0 (<["INV-202501" := 41]> ∅))
                [mk_datetime 2025 1 30 9 0 0 0; mk_datetime 2025 2 1 9 0 0 0;
                 mk_datetime 2025 1 31 9 0 0 0])).
Proof.
  apply (@document_numbers_never_repeat whole_floats default_settings).
  apply map_Forall_insert_2; [lia | apply map_Forall_empty].
Defined.

End TextMoreExamples.

(** ** The header of a group, field by field *)

Section HeaderMoreFacts.
Import pytext pydatetime sqlite ui_settings_import.
Context `{PyFloat} `{SqliteText}.

(** Names the values bound by the [let]s at the head of the left side of
    an equation, one after the other. *)
Ltac name_bindings Heq :=
  repeat lazymatch type of Heq with
         | (let x := ?v in @?body x) = ?r =>
             let y := fresh x in
             pose (y := v); change (body y = r) in Heq; cbv beta in Heq
         end.

Lemma lookup_match_insert_ne (o : option hval) (f : hval -> hval) k k'
    (header : gmap string hval) :
  k <> k' ->
  match o with
  | Some v => <[k := f v]> header
  | None => header
  end !! k' = header !! k'.
Proof. intros Hne. destruct o; [apply lookup_insert_ne; exact Hne | reflexivity]. Qed.

(** One stage of the header, looked up under a key the stage leaves
    alone. *)
Ltac skip_stage h :=
  unfold h;
  first [ rewrite lookup_if_insert_ne by discriminate
        | rewrite lookup_insert_ne by discriminate
        | rewrite lookup_setdefault_ne by discriminate
        | rewrite lookup_match_insert_ne by discriminate ].

Lemma map_columns_lookup first dst :
  map_columns first !! dst = column_value first COLMAP dst None.
Proof. unfold map_columns. rewrite fold_columns_lookup, lookup_empty. reflexivity. Qed.

(** A money column of the first row, as the loop over the columns reads
    it. *)
Definition money_column (first : gmap string cell) (src : string) : option hval :=
  match first !! src with
  | Some c => Some (HNum (_f c))
  | None => None
  end.

(** The fields of the header that the gates and the totals rest on, from
    the first row and the items. *)
Lemma header_lookups first rest combine_items header items :
  _header_from_group (first :: rest) combine_items = Some (header, items) ->
  let sum := fold_left fadd (List.map total_amount items) fzero in
  let subtotal :=
    if hval_falsy (money_column first "Subtotal") then Some (HNum sum)
    else money_column first "Subtotal" in
  let discount :=
    if hval_falsy (money_column first "Discount Amount")
    then Some (HNum (_f (row_get first "Lineitem discount")))
    else money_column first "Discount Amount" in
  header !! "invoice_no"
  = Some (HStr (_clean_invoice_no
                  (_s (match first !! "Name" with
                       | Some c => c
                       | None => cell_or (row_get first "Id") (CStr "")
                       end))))
  /\ header !! "vendor"
     = Some (HStr (_clean_vendor (match first !! "Vendor" with
                                  | Some c => _s c
                                  | None => ""
                                  end)))
  /\ header !! "customer"
     = Some (HStr (_s (cell_or (row_get first "Shipping Name")
                         (cell_or (row_get first "Billing Name")
                            (cell_or (row_get first "Name") (CStr ""))))))
  /\ header !! "subtotal" = subtotal
  /\ header !! "discount_amount" = discount
  /\ header !! "total"
     = (if hval_falsy (money_column first "Total")
        then Some (HNum (fmax0 (fsub (hval_num subtotal fzero)
                                     (hval_num discount fzero))))
        else money_column first "Total")
  /\ header !! "receipt_number"
     = match first !! "Receipt Number" with
       | Some c => Some (HStr (_s c))
       | None => None
       end.
Proof.
  cbv beta iota delta [_header_from_group]. intros Heq. name_bindings Heq.
  injection Heq as <- <-. intros sum subtotal discount.
  assert (forall k, k <> "invoice_no" -> k <> "customer" -> k <> "invoice_date" ->
                    k <> "financial_status" -> k <> "vendor" ->
                    header6 !! k = header0 !! k) as Hbase.
  { intros k H1 H2 H3 H4 H5.
    unfold header6. rewrite lookup_insert_ne by congruence.
    unfold header5. rewrite lookup_insert_ne by congruence.
    unfold header4. rewrite lookup_match_insert_ne by congruence.
    unfold header3. rewrite lookup_setdefault_ne by congruence.
    unfold header2. rewrite lookup_insert_ne by congruence.
    unfold header1. apply lookup_setdefault_ne. congruence. }
  assert (header7 !! "subtotal" = subtotal) as Hsub.
  { unfold header7. rewrite (Hbase "subtotal") by discriminate.
    unfold header0. rewrite map_columns_lookup.
    change (column_value first COLMAP "subtotal" None)
      with (money_column first "Subtotal").
    unfold subtotal. destruct (hval_falsy (money_column first "Subtotal"));
      [apply lookup_insert_eq | rewrite (Hbase "subtotal") by discriminate].
    unfold header0. rewrite map_columns_lookup. reflexivity. }
  assert (header8 !! "discount_amount" = discount) as Hdisc.
  { unfold header8.
    assert (header7 !! "discount_amount" = money_column first "Discount Amount") as ->.
    { skip_stage header7. rewrite (Hbase "discount_amount") by discriminate.
      unfold header0. rewrite map_columns_lookup. reflexivity. }
    unfold discount. destruct (hval_falsy (money_column first "Discount Amount"));
      [apply lookup_insert_eq |].
    skip_stage header7. rewrite (Hbase "discount_amount") by discriminate.
    unfold header0. rewrite map_columns_lookup. reflexivity. }
  assert (header8 !! "subtotal" = subtotal) as Hsub8
    by (skip_stage header8; exact Hsub).
  repeat split.
  - skip_stage header9. skip_stage header8. skip_stage header7.
    skip_stage header6. skip_stage header5. skip_stage header4.
    skip_stage header3. unfold header2. rewrite lookup_insert_eq.
    do 3 f_equal. unfold header1, setdefault, header0.
    rewrite !map_columns_lookup.
    change (column_value first COLMAP "invoice_no" None)
      with (match first !! "Name" with
            | Some c => Some (HStr (_s c))
            | None => None
            end).
    unfold raw_name, row_get.
    destruct (first !! "Name") as [c |] eqn:Hname.
    + rewrite map_columns_lookup.
      change (column_value first COLMAP "invoice_no" None)
        with (match first !! "Name" with
              | Some c => Some (HStr (_s c))
              | None => None
              end).
      rewrite Hname. reflexivity.
    + rewrite lookup_insert_eq. reflexivity.
  - skip_stage header9. skip_stage header8. skip_stage header7.
    unfold header6. rewrite lookup_insert_eq. do 3 f_equal.
    skip_stage header5. skip_stage header4. skip_stage header3.
    skip_stage header2. skip_stage header1. unfold header0.
    rewrite map_columns_lookup.
    change (column_value first COLMAP "vendor" None)
      with (match first !! "Vendor" with
            | Some c => Some (HStr (_s c))
            | None => None
            end).
    destruct (first !! "Vendor"); reflexivity.
  - skip_stage header9. skip_stage header8. skip_stage header7.
    skip_stage header6. skip_stage header5. skip_stage header4.
    unfold header3, setdefault.
    assert (header2 !! "customer" = None) as ->.
    { skip_stage header2. skip_stage header1. unfold header0.
      rewrite map_columns_lookup. reflexivity. }
    apply lookup_insert_eq.
  - skip_stage header9. exact Hsub8.
  - skip_stage header9. exact Hdisc.
  - unfold header9. rewrite Hsub8, Hdisc.
    assert (header8 !! "total" = money_column first "Total") as ->.
    { skip_stage header8. skip_stage header7.
      rewrite (Hbase "total") by discriminate.
      unfold header0. rewrite map_columns_lookup. reflexivity. }
    destruct (hval_falsy (money_column first "Total")); [apply lookup_insert_eq |].
    skip_stage header8. skip_stage header7.
    rewrite (Hbase "total") by discriminate.
    unfold header0. rewrite map_columns_lookup. reflexivity.
  - skip_stage header9. skip_stage header8. skip_stage header7.
    rewrite (Hbase "receipt_number") by discriminate.
    unfold header0. rewrite map_columns_lookup. reflexivity.
Qed.

Lemma money_column_number first src :
  hval_falsy (money_column first src) = false ->
  exists x, money_column first src = Some (HNum x).
Proof.
  unfold money_column. destruct (first !! src); [eauto | discriminate].
Qed.

(** X17. A group with at least one row always gives a header, and the
    header always holds the fields the import reads without a default:
    an invoice number free of white space, a status, a vendor, a
    customer, and the three amounts as numbers. *)
Theorem header_always_complete :
  forall (first : gmap string cell) (rest : list (gmap string cell))
         (combine_items : bool),
    exists header items,
      _header_from_group (first :: rest) combine_items = Some (header, items)
      /\ (exists inv, header !! "invoice_no" = Some (HStr inv)
                      /\ forall_chars (fun c => negb (isspace c)) inv = true)
      /\ (exists status, header !! "financial_status" = Some (HStr status))
      /\ (exists vendor, header !! "vendor" = Some (HStr vendor))
      /\ (exists customer, header !! "customer" = Some (HStr customer))
      /\ (exists x, header !! "subtotal" = Some (HNum x))
      /\ (exists x, header !! "discount_amount" = Some (HNum x))
      /\ (exists x, header !! "total" = Some (HNum x)).
Proof.
  intros first rest combine_items.
  destruct (_header_from_group (first :: rest) combine_items)
    as [[header items] |] eqn:Heq; [| discriminate Heq].
  exists header, items. split; [reflexivity |].
  pose proof (header_status _ _ _ _ _ Heq) as Hstatus.
  pose proof (header_lookups _ _ _ _ _ Heq) as Hall. cbv zeta in Hall.
  destruct Hall as (Hinv & Hvendor & Hcustomer & Hsub & Hdisc & Htotal & _).
  split.
  { eexists. split; [exact Hinv |]. unfold _clean_invoice_no. cbv zeta.
    apply remove_chars_clears. }
  split; [eexists; exact Hstatus |].
  split; [eexists; exact Hvendor |].
  split; [eexists; exact Hcustomer |].
  assert (exists x, header !! "subtotal" = Some (HNum x)) as Hs.
  { rewrite Hsub. destruct (hval_falsy (money_column first "Subtotal")) eqn:Hf;
      [eauto | apply money_column_number, Hf]. }
  assert (exists x, header !! "discount_amount" = Some (HNum x)) as Hd.
  { rewrite Hdisc. destruct (hval_falsy (money_column first "Discount Amount")) eqn:Hf;
      [eauto | apply money_column_number, Hf]. }
  split; [exact Hs |]. split; [exact Hd |].
  rewrite Htotal. destruct (hval_falsy (money_column first "Total")) eqn:Hf;
    [eauto | apply money_column_number, Hf].
Qed.

(** X18. The amounts the sheet does not give are derived. Without a
    subtotal, or with a zero one, the subtotal is the sum of the line
    totals of the items, added from zero in their order; without a
    discount it is the line discount of the first row; without a total it
    is the subtotal less the discount, and zero when that is negative.
    A total of the sheet that is not zero is kept. *)
Theorem header_money_defaults :
  forall (first : gmap string cell) (rest : list (gmap string cell))
         (combine_items : bool) (header : gmap string hval) (items : list item),
    _header_from_group (first :: rest) combine_items = Some (header, items) ->
    (hval_falsy (money_column first "Subtotal") = true ->
     header !! "subtotal"
     = Some (HNum (fold_left fadd (List.map total_amount items) fzero)))
    /\ (hval_falsy (money_column first "Discount Amount") = true ->
        header !! "discount_amount"
        = Some (HNum (_f (row_get first "Lineitem discount"))))
    /\ (hval_falsy (money_column first "Total") = true ->
        exists subtotal discount,
          header !! "subtotal" = Some (HNum subtotal)
          /\ header !! "discount_amount" = Some (HNum discount)
          /\ header !! "total"
             = Some (HNum (if fgtb fzero (fsub subtotal discount) then fzero
                           else fsub subtotal discount)))
    /\ (forall c, first !! "Total" = Some c -> feqb (_f c) fzero = false ->
                  header !! "total" = Some (HNum (_f c))).
Proof.
  intros first rest combine_items header items Heq.
  pose proof (header_lookups _ _ _ _ _ Heq) as Hall. cbv zeta in Hall.
  destruct Hall as (_ & _ & _ & Hsub & Hdisc & Htotal & _).
  split; [intros Hf; rewrite Hsub, Hf; reflexivity |].
  split; [intros Hf; rewrite Hdisc, Hf; reflexivity |].
  split.
  - intros Hf. rewrite Hf in Htotal.
    assert (exists x, header !! "subtotal" = Some (HNum x)) as [s Hs].
    { rewrite Hsub. destruct (hval_falsy (money_column first "Subtotal")) eqn:Hg;
        [eauto | apply money_column_number, Hg]. }
    assert (exists x, header !! "discount_amount" = Some (HNum x)) as [d Hd].
    { rewrite Hdisc. destruct (hval_falsy (money_column first "Discount Amount")) eqn:Hg;
        [eauto | apply money_column_number, Hg]. }
    exists s, d. split; [exact Hs |]. split; [exact Hd |].
    rewrite Htotal. rewrite <- Hsub, <- Hdisc, Hs, Hd. reflexivity.
  - intros c Hc Hnz. rewrite Htotal. unfold money_column. rewrite Hc.
    cbn [hval_falsy]. rewrite Hnz. reflexivity.
Qed.

Lemma s_stripped c : strip (_s c) = _s c.
Proof. unfold _s. destruct (isna c); [reflexivity | apply strip_idempotent]. Qed.

(** X19. The two other gates of the loop. A group whose status passes
    but whose first row has no vendor (no column, an empty cell, a blank
    or [nan] text) is skipped as an invalid vendor; one whose vendor
    passes but whose [Name] cell is empty is skipped for its missing
    invoice number, whatever its [Id]. Either way the application
    database is left as it was, the group is counted as skipped and the
    reason goes to the issues and to the audit log. *)
Theorem missing_vendor_or_name_skipped :
  forall (cfg : settings) (public_ip : string) (user : option string)
         (combine_items : bool) (utcnow : datetime) (w : world) (n : summary)
         (gkey : cell) (first : gmap string cell) (rest : list (gmap string cell))
         (header : gmap string hval) (items : list item),
    _header_from_group (first :: rest) combine_items = Some (header, items) ->
    elem (hval_text (header !! "financial_status") "") ALLOWED_STATUS = true ->
    ((first !! "Vendor" = None
      \/ exists c, first !! "Vendor" = Some c /\ is_missing_word (_s c) = true) ->
     import_group cfg public_ip user combine_items utcnow w n gkey (first :: rest)
     = (mk_world (conn w)
          (_audit_log (audit_log w) "skip_invalid_vendor"
                      (hval_text (header !! "invoice_no") "") None user public_ip
                      (ReasonDetail "Invalid vendor '' after normalization")),
        mk_summary (imported n) (updated n) (skipped n + 1)
                   (issues n ++ [(cell_str gkey,
                                  "Invalid vendor '' after normalization")])))
    /\ (elem (hval_text (header !! "vendor") "") ALLOWED_VENDORS = true ->
        (exists c, first !! "Name" = Some c /\ isna c = true) ->
        import_group cfg public_ip user combine_items utcnow w n gkey (first :: rest)
        = (mk_world (conn w)
             (_audit_log (audit_log w) "skip_missing_invoice_no" "" None user
                         public_ip
                         (ReasonDetail "Missing invoice_no after normalization")),
           mk_summary (imported n) (updated n) (skipped n + 1)
                      (issues n ++ [(cell_str gkey,
                                     "Missing invoice_no after normalization")]))).
Proof.
  intros cfg public_ip user combine_items utcnow w n gkey first rest header items
         Heq Hstatus.
  pose proof (header_lookups _ _ _ _ _ Heq) as Hall. cbv zeta in Hall.
  destruct Hall as (Hinv & Hvendor & _).
  split.
  - intros Hmissing.
    assert (header !! "vendor" = Some (HStr "")) as Hv.
    { rewrite Hvendor. destruct Hmissing as [-> | (c & -> & Hm)]; [reflexivity |].
      unfold _clean_vendor. cbv zeta. rewrite s_stripped, Hm. reflexivity. }
    unfold import_group. rewrite Heq. cbv zeta. rewrite Hstatus, Hv. reflexivity.
  - intros Hok (c & Hc & Hna).
    assert (header !! "invoice_no" = Some (HStr "")) as Hi.
    { rewrite Hinv, Hc. unfold _s. rewrite Hna. reflexivity. }
    unfold import_group. rewrite Heq. cbv zeta. rewrite Hstatus, Hok, Hi. reflexivity.
Qed.

End HeaderMoreFacts.

(** ** The loop's counters and the tables [_save_order] writes *)

Section StoreFacts.
Import pytext pydatetime sqlite ui_settings_import.
Context `{PyFloat} `{SqliteText}.

(** What one turn of the loop adds to the counters and to the log. *)
Definition one_more (w : world) (n : summary) (r : world * summary) : Prop :=
  imported (snd r) + updated (snd r) + skipped (snd r)
    = imported n + updated n + skipped n + 1
  /\ imported n <= imported (snd r) /\ updated n <= updated (snd r)
  /\ skipped n <= skipped (snd r)
  /\ length (audit_log (fst r)) = S (length (audit_log w))
  /\ Z.of_nat (length (issues (snd r))) - skipped (snd r)
     = Z.of_nat (length (issues n)) - skipped n.

Lemma skip_one_more w n gkey action invoice_no msg details user public_ip :
  one_more w n (skip w n gkey action invoice_no msg details user public_ip).
Proof.
  unfold one_more, skip, _audit_log.
  cbn [fst snd imported updated skipped issues audit_log].
  rewrite !List.length_app. cbn [length]. repeat split; lia.
Qed.

(** The handler of the [try] counts the group once too, as skipped. *)
Lemma failed_one_more w db n gkey e user public_ip :
  one_more w n (failed w db n gkey e user public_ip).
Proof.
  unfold one_more, failed, skip, _audit_log.
  cbn [fst snd imported updated skipped issues audit_log].
  rewrite !List.length_app. cbn [length]. repeat split; lia.
Qed.

Lemma import_group_one_more cfg public_ip user combine_items utcnow w n gkey sub :
  one_more w n (import_group cfg public_ip user combine_items utcnow w n gkey sub).
Proof.
  unfold import_group.
  destruct (_header_from_group sub combine_items) as [[header items] |];
    [| apply skip_one_more].
  cbv zeta.
  destruct (negb _); [apply skip_one_more |].
  destruct (negb _); [apply skip_one_more |].
  destruct (header !! "invoice_no") as [inv |]; [| apply skip_one_more].
  destruct (hval_falsy (Some inv)); [apply skip_one_more |].
  set (drawn :=
         if hval_falsy (header !! "receipt_number")
         then (let '(doc_no, db) := _next_doc_no cfg utcnow (conn w) None in
               (<["receipt_number" := HStr doc_no]> header, db))
         else (header, conn w)).
  destruct drawn as [header1 db1].
  destruct (select_receipt db1 inv) as [e | found]; [apply failed_one_more |].
  match goal with
  | |- context [_save_order ?d ?h ?i] =>
      destruct (_save_order d h i) as [[e | sale] db2]
  end; [apply failed_one_more |].
  destruct found; unfold one_more, _audit_log;
    cbn [fst snd imported updated skipped issues audit_log];
    rewrite !List.length_app; cbn [length]; repeat split; lia.
Qed.

Lemma import_groups_counts cfg public_ip user combine_items utcnow groups :
  forall turn w n,
    let r := import_groups cfg public_ip user combine_items utcnow turn w n groups in
    imported (snd r) + updated (snd r) + skipped (snd r)
      = imported n + updated n + skipped n + Z.of_nat (length groups)
    /\ imported n <= imported (snd r) /\ updated n <= updated (snd r)
    /\ skipped n <= skipped (snd r)
    /\ length (audit_log (fst r)) = (length (audit_log w) + length groups)%nat
    /\ Z.of_nat (length (issues (snd r))) - skipped (snd r)
       = Z.of_nat (length (issues n)) - skipped n.
Proof.
  induction groups as [| [gkey sub] rest IH]; intros turn w n; cbv zeta.
  - cbn [import_groups fst snd length]. repeat split; lia.
  - cbn [import_groups].
    pose proof (import_group_one_more cfg public_ip user combine_items (utcnow turn)
                  w n gkey sub) as Hone.
    destruct (import_group cfg public_ip user combine_items (utcnow turn) w n gkey sub)
      as [w1 n1].
    unfold one_more in Hone. cbn [fst snd] in Hone.
    specialize (IH (S turn) w1 n1). cbv zeta in IH.
    destruct Hone as (H1 & H2 & H3 & H4 & H5 & H6).
    destruct IH as (I1 & I2 & I3 & I4 & I5 & I6).
    cbn [length]. repeat split; lia.
Qed.

(** X20. A run accounts for every group once, whether the group is
    stopped at a gate, saved, or refused by the database and caught by
    the handler of the loop: the three counters add up to the number of
    groups, each of them is a count, the audit log grows by one entry
    per group, and the issues listed are as many as the groups skipped. *)
Theorem render_counts_every_group :
  forall (cfg : settings) (key_order : list cell -> list cell)
         (utcnow : nat -> datetime) (public_ip : string) (user : option string)
         (combine_items : bool) (w : world) (df : dataframe)
         (w' : world) (n : summary),
    render cfg key_order utcnow public_ip user combine_items w df = Some (w', n) ->
    let groups :=
      groupby key_order (if elem "Id" (columns df) then "Id" else "Name")
              (drop_duplicates (dropna_all (rows df))) in
    imported n + updated n + skipped n = Z.of_nat (length groups)
    /\ 0 <= imported n /\ 0 <= updated n /\ 0 <= skipped n
    /\ length (audit_log w') = (length (audit_log w) + length groups)%nat
    /\ Z.of_nat (length (issues n)) = skipped n.
Proof.
  intros cfg key_order utcnow public_ip user combine_items w df w' n Hrun groups.
  unfold render in Hrun. cbv zeta in Hrun.
  destruct (negb _); [discriminate |].
  pose proof (import_groups_counts cfg public_ip user combine_items utcnow groups
                0%nat w no_summary) as Hcounts.
  cbv zeta in Hcounts. fold groups in Hrun. injection Hrun as Hrun.
  rewrite Hrun in Hcounts. cbn [fst snd no_summary imported updated skipped issues length]
    in Hcounts.
  destruct Hcounts as (H1 & H2 & H3 & H4 & H5 & H6).
  repeat split; lia.
Qed.

(** *** [_save_order] *)

Lemma clean_header_subset cols (header : gmap string hval) k v :
  clean_header cols header !! k = Some v -> header !! k = Some v.
Proof.
  unfold clean_header. intros Hk. apply map_lookup_filter_Some in Hk as [Hk _].
  exact Hk.
Qed.

Lemma item_rows_facts items : forall first_id sid line i,
  In i (item_rows first_id sid line items) ->
  si_sale_id i = sid /\ first_id <= si_id i.
Proof.
  induction items as [| it items IH]; intros first_id sid line i Hin; [destruct Hin |].
  cbn [item_rows] in Hin. destruct Hin as [<- | Hin]; [cbn; split; [reflexivity | lia] |].
  destruct (IH _ _ _ _ Hin) as [Hs Hid]. split; [exact Hs | lia].
Qed.

Lemma item_rows_NoDup items : forall first_id sid line,
  NoDup (List.map si_id (item_rows first_id sid line items)).
Proof.
  induction items as [| it items IH]; intros first_id sid line; [constructor |].
  cbn [item_rows List.map si_id]. constructor; [| apply IH].
  intros Hin. apply list_elem_of_In, in_map_iff in Hin as (i & Hid & Hin).
  destruct (item_rows_facts _ _ _ _ _ Hin) as [_ Hge]. lia.
Qed.

Lemma item_rows_line_nos items : forall first_id sid line,
  List.map si_line_no (item_rows first_id sid line items)
  = List.map (fun k => line + Z.of_nat k) (seq 0 (length items)).
Proof.
  induction items as [| it items IH]; intros first_id sid line; [reflexivity |].
  cbn [item_rows List.map length seq si_line_no]. f_equal; [cbn; lia |].
  rewrite IH, <- seq_shift, List.map_map. apply List.map_ext. intros k. lia.
Qed.

Lemma item_rows_items items : forall first_id sid line,
  List.map (fun i => mk_item (si_product_code i) (si_product_name i) (si_unit i)
                             (si_quantity i) (si_price i) (si_total_amount i))
           (item_rows first_id sid line items)
  = items.
Proof.
  induction items as [| it items IH]; intros first_id sid line; [reflexivity |].
  cbn [item_rows List.map]. rewrite IH. destruct it. reflexivity.
Qed.

Lemma filter_all {A} (p : A -> bool) (l : list A) :
  (forall x, In x l -> p x = true) -> List.filter p l = l.
Proof.
  induction l as [| x l IH]; intros Hall; [reflexivity |]. cbn [List.filter].
  rewrite (Hall x) by (left; reflexivity). f_equal. apply IH.
  intros y Hy. apply Hall. right. exact Hy.
Qed.

Lemma filter_none {A} (p : A -> bool) (l : list A) :
  (forall x, In x l -> p x = false) -> List.filter p l = [].
Proof.
  induction l as [| x l IH]; intros Hall; [reflexivity |]. cbn [List.filter].
  rewrite (Hall x) by (left; reflexivity). apply IH.
  intros y Hy. apply Hall. right. exact Hy.
Qed.

Lemma NoDup_map_filter {A} (f : A -> Z) (p : A -> bool) (l : list A) :
  NoDup (List.map f l) -> NoDup (List.map f (List.filter p l)).
Proof.
  induction l as [| x l IH]; intros Hnd; [constructor |].
  cbn [List.map] in Hnd. inversion Hnd as [| ? ? Hnotin Hrest]; subst.
  cbn [List.filter]. destruct (p x); [| apply IH, Hrest].
  cbn [List.map]. constructor; [| apply IH, Hrest].
  intros Hin. apply Hnotin. apply list_elem_of_In.
  apply list_elem_of_In, in_map_iff in Hin as (y & Hy & Hin).
  apply filter_In in Hin as [Hin _]. rewrite <- Hy. apply in_map. exact Hin.
Qed.

Lemma NoDup_app_fresh (old new : list Z) bound :
  NoDup old -> NoDup new ->
  (forall x, In x old -> x < bound) -> (forall x, In x new -> bound <= x) ->
  NoDup (old ++ new).
Proof.
  intros Hold Hnew Hlt Hge. apply NoDup_app. split; [exact Hold |].
  split; [| exact Hnew].
  intros x Hx Hx'. apply list_elem_of_In in Hx. apply list_elem_of_In in Hx'.
  specialize (Hlt x Hx). specialize (Hge x Hx'). lia.
Qed.

(** The keys and the constraints of the two tables: primary keys
    distinct, at most one row of [sales] per invoice number, every line
    item under a sale of the table. *)
Definition tables_sound (db : app_db) : Prop :=
  NoDup (List.map sale_id (sales db))
  /\ (forall a b inv,
        In a (sales db) -> In b (sales db) ->
        sale_fields a !! "invoice_no" = Some inv ->
        sale_fields b !! "invoice_no" = Some inv -> sale_id a = sale_id b)
  /\ NoDup (List.map si_id (sales_items db))
  /\ (forall i, In i (sales_items db) ->
                exists s, In s (sales db) /\ sale_id s = si_sale_id i).

Lemma updated_row_id fields sid s : sale_id (updated_row fields sid s) = sale_id s.
Proof. unfold updated_row. destruct (sale_id s =? sid); reflexivity. Qed.

Lemma updated_rows_ids fields sid rows :
  List.map sale_id (List.map (updated_row fields sid) rows) = List.map sale_id rows.
Proof.
  rewrite List.map_map. apply List.map_ext. intros s. apply updated_row_id.
Qed.

Lemma found_sale_row db header r :
  found_sale db header = Some r ->
  exists inv, clean_header (table_info (sales_schema db)) header !! "invoice_no"
              = Some inv
              /\ In r (sales db) /\ sale_fields r !! "invoice_no" = Some inv.
Proof.
  unfold found_sale, select_sale.
  destruct (clean_header _ header !! "invoice_no") as [inv |]; [| discriminate].
  intros Hfind. apply find_some in Hfind as [Hin Hp].
  apply bool_decide_eq_true in Hp. eauto.
Qed.

Lemma found_sale_none db header inv s :
  found_sale db header = None ->
  clean_header (table_info (sales_schema db)) header !! "invoice_no" = Some inv ->
  In s (sales db) -> sale_fields s !! "invoice_no" <> Some inv.
Proof.
  unfold found_sale, select_sale. intros Hnone Hinv Hin Hs. rewrite Hinv in Hnone.
  pose proof (find_none _ _ Hnone s Hin) as Hno. cbn beta in Hno.
  rewrite bool_decide_eq_true_2 in Hno by exact Hs. discriminate.
Qed.

Lemma save_order_sound db header items :
  tables_sound db -> tables_sound (snd (_save_order db header items)).
Proof.
  intros Hsound.
  destruct (refusal db header) as [e |] eqn:Hrefused;
    [rewrite (save_order_raises db header items e Hrefused); exact Hsound |].
  destruct Hsound as (Hids & Hinv & Hitems & Hfk). unfold tables_sound.
  destruct (found_sale db header) as [r |] eqn:Hfound.
  - rewrite (save_order_found db header items r Hrefused Hfound). cbv zeta.
    cbn [snd sales sales_items].
    destruct (found_sale_row _ _ _ Hfound) as (inv & Hhead & Hrin & Hrinv).
    split; [rewrite updated_rows_ids; exact Hids |].
    split.
    { intros a' b' inv' Ha Hb Hai Hbi.
      apply in_map_iff in Ha as (a & <- & Ha). apply in_map_iff in Hb as (b & <- & Hb).
      rewrite !updated_row_id. unfold updated_row in Hai, Hbi.
      destruct (Z.eqb_spec (sale_id a) (sale_id r)) as [Hea | Hna];
        destruct (Z.eqb_spec (sale_id b) (sale_id r)) as [Heb | Hnb].
      - congruence.
      - cbn [sale_fields] in Hai.
        rewrite (lookup_union_Some_l _ _ _ _ Hhead) in Hai. injection Hai as <-.
        rewrite Hea. symmetry. apply (Hinv b r inv Hb Hrin Hbi Hrinv).
      - cbn [sale_fields] in Hbi.
        rewrite (lookup_union_Some_l _ _ _ _ Hhead) in Hbi. injection Hbi as <-.
        rewrite Heb. apply (Hinv a r inv Ha Hrin Hai Hrinv).
      - apply (Hinv a b inv' Ha Hb Hai Hbi). }
    split.
    { rewrite List.map_app.
      apply (NoDup_app_fresh _ _
               (next_rowid (sales_items_seq db)
                  (List.map si_id
                     (List.filter (fun i => negb (si_sale_id i =? sale_id r))
                                  (sales_items db))))).
      - apply NoDup_map_filter. exact Hitems.
      - apply item_rows_NoDup.
      - intros x Hx. pose proof (fold_max_bound _ _ Hx). unfold next_rowid. lia.
      - intros x Hx. apply in_map_iff in Hx as (i & <- & Hi).
        apply (item_rows_facts _ _ _ _ _ Hi). }
    intros i Hi. apply in_app_or in Hi as [Hi | Hi].
    + apply filter_In in Hi as [Hi _]. destruct (Hfk i Hi) as (s & Hs & Hid).
      eexists. split; [apply in_map; exact Hs | rewrite updated_row_id; exact Hid].
    + destruct (item_rows_facts _ _ _ _ _ Hi) as [-> _].
      eexists. split; [apply in_map; exact Hrin | apply updated_row_id].
  - rewrite (save_order_new db header items Hrefused Hfound). cbv zeta.
    cbn [snd sales sales_items].
    set (sid := next_rowid (sales_seq db) (List.map sale_id (sales db))).
    assert (forall s, In s (sales db) -> sale_id s < sid) as Hfresh.
    { intros s Hs. pose proof (fold_max_bound _ _ (in_map sale_id _ _ Hs)).
      unfold sid, next_rowid. lia. }
    split.
    { rewrite List.map_app. cbn [List.map sale_id].
      apply (NoDup_app_fresh _ _ sid); [exact Hids | apply NoDup_singleton | |].
      - intros x Hx. apply in_map_iff in Hx as (s & <- & Hs). apply Hfresh, Hs.
      - intros x [<- | []]. lia. }
    split.
    { intros a b inv Ha Hb Hai Hbi.
      apply in_app_or in Ha as [Ha | [<- | []]];
        apply in_app_or in Hb as [Hb | [<- | []]].
      - apply (Hinv a b inv Ha Hb Hai Hbi).
      - cbn [sale_fields] in Hbi.
        destruct (found_sale_none _ _ _ a Hfound Hbi Ha Hai).
      - cbn [sale_fields] in Hai.
        destruct (found_sale_none _ _ _ b Hfound Hai Hb Hbi).
      - reflexivity. }
    split.
    { rewrite List.map_app.
      apply (NoDup_app_fresh _ _
               (next_rowid (sales_items_seq db) (List.map si_id (sales_items db)))).
      - exact Hitems.
      - apply item_rows_NoDup.
      - intros x Hx. pose proof (fold_max_bound _ _ Hx). unfold next_rowid. lia.
      - intros x Hx. apply in_map_iff in Hx as (i & <- & Hi).
        apply (item_rows_facts _ _ _ _ _ Hi). }
    intros i Hi. apply in_app_or in Hi as [Hi | Hi].
    + destruct (Hfk i Hi) as (s & Hs & Hid). exists s.
      split; [apply in_or_app; left; exact Hs | exact Hid].
    + destruct (item_rows_facts _ _ _ _ _ Hi) as [-> _].
      eexists. split; [apply in_or_app; right; left; reflexivity | reflexivity].
Qed.

(** X21. [_save_order] keeps the two tables sound, whether it returns or
    raises: after it the keys of [sales] and of [sales_items] are still
    distinct, no two rows of [sales] share an invoice number (so that
    the UNIQUE constraint the table declares is never the cause of a
    failure), and every line item still belongs to a sale of the table. *)
Theorem save_order_keeps_tables_sound :
  forall (db : app_db) (header : gmap string hval) (items : list item),
    tables_sound db -> tables_sound (snd (_save_order db header items)).
Proof. exact save_order_sound. Qed.

(** The row the invoice number selects after an upsert that was not
    refused, and the line items under it. *)
Lemma save_order_lookup db header items inv :
  NoDup (List.map sale_id (sales db)) ->
  (forall i, In i (sales_items db) ->
             exists s, In s (sales db) /\ sale_id s = si_sale_id i) ->
  header !! "invoice_no" = Some inv ->
  refusal db header = None ->
  let fields := clean_header (table_info (sales_schema db)) header in
  exists sid r first_id,
    _save_order db header items = (inr sid, snd (_save_order db header items))
    /\ select_sale inv (sales (snd (_save_order db header items))) = Some r
    /\ sale_id r = sid
    /\ sale_fields r
       = match found_sale db header with
         | Some r0 => fields ∪ sale_fields r0
         | None => fields
         end
    /\ List.filter (fun i => si_sale_id i =? sale_id r)
                   (sales_items (snd (_save_order db header items)))
       = item_rows first_id (sale_id r) 1 items.
Proof.
  intros Hids Hfk Hinv Hrefused fields.
  assert (elem "invoice_no" (table_info (sales_schema db)) = true) as Hcol.
  { unfold refusal in Hrefused.
    destruct (missing_column ["invoice_no"] (sales_schema db)) eqn:Hm; [discriminate |].
    unfold missing_column in Hm. cbn [List.find] in Hm.
    destruct (elem "invoice_no" (table_info (sales_schema db)));
      [reflexivity | discriminate]. }
  assert (fields !! "invoice_no" = Some inv) as Hhead
    by (unfold fields; rewrite clean_header_lookup by exact Hcol; exact Hinv).
  destruct (found_sale db header) as [r0 |] eqn:Hfound.
  - rewrite (save_order_found db header items r0 Hrefused Hfound). cbv zeta.
    cbn [fst snd sales sales_items].
    destruct (found_sale_row _ _ _ Hfound) as (inv' & Hhead' & Hrin & Hrinv).
    assert (inv' = inv) as -> by (unfold fields in Hhead; congruence).
    assert (updated_row fields (sale_id r0) r0
            = mk_sale (sale_id r0) (fields ∪ sale_fields r0)) as Hrow
      by (unfold updated_row; rewrite Z.eqb_refl; reflexivity).
    exists (sale_id r0), (updated_row fields (sale_id r0) r0). eexists.
    split; [reflexivity |]. split.
    { unfold select_sale. rewrite find_map_in.
      - unfold found_sale in Hfound. fold fields in Hfound. rewrite Hhead in Hfound.
        unfold select_sale in Hfound. rewrite Hfound. reflexivity.
      - intros s Hs. unfold updated_row.
        destruct (Z.eqb_spec (sale_id s) (sale_id r0)) as [Hid | _]; [| reflexivity].
        assert (s = r0) as -> by (apply (NoDup_same_id (sales db)); assumption).
        cbn [sale_fields].
        rewrite !bool_decide_eq_true_2;
          [reflexivity | exact Hrinv | apply lookup_union_Some_l; exact Hhead]. }
    split; [apply updated_row_id |].
    split; [rewrite Hrow; reflexivity |].
    rewrite updated_row_id, List.filter_app.
    rewrite (filter_none _ (List.filter _ (sales_items db))).
    + cbn [app]. apply filter_all. intros i Hi.
      destruct (item_rows_facts _ _ _ _ _ Hi) as [-> _]. apply Z.eqb_refl.
    + intros i Hi. apply filter_In in Hi as [_ Hi].
      apply negb_true_iff in Hi. exact Hi.
  - rewrite (save_order_new db header items Hrefused Hfound). cbv zeta.
    cbn [fst snd sales sales_items].
    set (sid := next_rowid (sales_seq db) (List.map sale_id (sales db))).
    exists sid, (mk_sale sid fields). eexists.
    split; [reflexivity |]. split.
    { unfold select_sale. apply find_app_last.
      - unfold found_sale in Hfound. fold fields in Hfound. rewrite Hhead in Hfound.
        exact Hfound.
      - cbn [sale_fields]. apply bool_decide_eq_true_2. exact Hhead. }
    split; [reflexivity |]. split; [reflexivity |].
    cbn [sale_id]. rewrite List.filter_app.
    rewrite (filter_none _ (sales_items db)).
    + cbn [app]. apply filter_all. intros i Hi.
      destruct (item_rows_facts _ _ _ _ _ Hi) as [-> _]. apply Z.eqb_refl.
    + intros i Hi. destruct (Hfk i Hi) as (s & Hs & <-).
      pose proof (fold_max_bound _ _ (in_map sale_id _ _ Hs)).
      apply Z.eqb_neq. unfold sid, next_rowid. lia.
Qed.

(** X22. Saving an order and reading it back. [_save_order] raises, and
    leaves the database as it was, exactly when table [sales] has no
    [invoice_no], or the header has nothing for its columns, leaves out
    a NOT NULL column of a new row, or breaks a CHECK. Otherwise the
    invoice number of the header selects one row of [sales], under the
    id the call returned; that row holds every field of the header that
    is a column of the table as it exists, and no field of the header
    that is not: under such a name it holds what the row held before,
    nothing if the row is new; and the line items under that id are
    exactly the items given, numbered from one in their order, whatever
    items the sale had before. *)
Theorem save_order_then_select :
  forall (db : app_db) (header : gmap string hval) (items : list item) (inv : hval),
    NoDup (List.map sale_id (sales db)) ->
    (forall i, In i (sales_items db) ->
               exists s, In s (sales db) /\ sale_id s = si_sale_id i) ->
    header !! "invoice_no" = Some inv ->
    (forall e, refusal db header = Some e ->
               _save_order db header items = (inl e, db))
    /\ (refusal db header = None ->
        exists sid r,
          fst (_save_order db header items) = inr sid
          /\ select_sale inv (sales (snd (_save_order db header items))) = Some r
          /\ sale_id r = sid
          /\ (forall k v, header !! k = Some v ->
                          elem k (table_info (sales_schema db)) = true ->
                          sale_fields r !! k = Some v)
          /\ (forall k, elem k (table_info (sales_schema db)) = false ->
                        sale_fields r !! k
                        = match found_sale db header with
                          | Some r0 => sale_fields r0 !! k
                          | None => None
                          end)
          /\ (let lines :=
                List.filter (fun i => si_sale_id i =? sale_id r)
                            (sales_items (snd (_save_order db header items))) in
              List.map (fun i => mk_item (si_product_code i) (si_product_name i)
                                         (si_unit i) (si_quantity i) (si_price i)
                                         (si_total_amount i))
                       lines = items
              /\ List.map si_line_no lines
                 = List.map (fun k => 1 + Z.of_nat k) (seq 0 (length items)))).
Proof.
  intros db header items inv Hids Hfk Hinv. split.
  - intros e He. apply save_order_raises. exact He.
  - intros Hrefused.
    destruct (save_order_lookup db header items inv Hids Hfk Hinv Hrefused)
      as (sid & r & first_id & Hcall & Hsel & Hid & Hfields & Hlines).
    exists sid, r. split; [rewrite Hcall; reflexivity |].
    split; [exact Hsel |]. split; [exact Hid |].
    split; [| split].
    + intros k v Hk Hcol. rewrite Hfields.
      assert (clean_header (table_info (sales_schema db)) header !! k = Some v) as Hclean
        by (rewrite clean_header_lookup by exact Hcol; exact Hk).
      destruct (found_sale db header);
        [apply lookup_union_Some_l |]; exact Hclean.
    + intros k Hcol. rewrite Hfields.
      pose proof (clean_header_dropped (table_info (sales_schema db)) header k Hcol)
        as Hclean.
      destruct (found_sale db header); [| exact Hclean].
      rewrite lookup_union_r by exact Hclean. reflexivity.
    + cbv zeta. rewrite Hlines.
      split; [apply item_rows_items | apply item_rows_line_nos].
Qed.

End StoreFacts.

(** ** Importing an invoice again, combining lines, repeated rows *)

Section RerunFacts.
Import pytext pydatetime sqlite ui_settings_import.
Context `{PyFloat} `{SqliteText}.

(** X23. Importing again an invoice that is stored with a receipt
    number, from a sheet that gives none: the stored receipt number
    stays on the row, the group counts as updated, and the month's
    counter of document numbers has advanced by one all the same, the
    number drawn for the group being dropped. The table [sales] is one
    that takes the import, as the table [_ensure_schema] creates does:
    no other declaration of the repository gives [sales] a column
    [receipt_number] for a stored row to hold. *)
Theorem reimport_keeps_receipt_number :
  forall (cfg : settings) (public_ip : string) (user : option string)
         (combine_items : bool) (utcnow : datetime) (w : world) (n : summary)
         (gkey : cell) (sub : list (gmap string cell))
         (header : gmap string hval) (items : list item) (inv : hval)
         (r : sales_row) (rn : hval),
    _header_from_group sub combine_items = Some (header, items) ->
    passes_gates header = true ->
    header !! "invoice_no" = Some inv ->
    hval_falsy (header !! "receipt_number") = true ->
    plain_table (sales_schema (conn w)) = true ->
    NoDup (List.map sale_id (sales (conn w))) ->
    select_sale inv (sales (conn w)) = Some r ->
    sale_fields r !! "receipt_number" = Some rn ->
    hval_falsy (Some rn) = false ->
    let seq_name := DOC_PREFIX cfg +:+ "-" +:+ strftime_month utcnow in
    let result :=
      import_group cfg public_ip user combine_items utcnow w n gkey sub in
    sequences (conn (fst result)) !! seq_name
    = Some (match sequences (conn w) !! seq_name with
            | Some v => v + 1
            | None => 1
            end)
    /\ (exists r', select_sale inv (sales (conn (fst result))) = Some r'
                   /\ sale_id r' = sale_id r
                   /\ sale_fields r' !! "receipt_number" = Some rn)
    /\ updated (snd result) = updated n + 1
    /\ imported (snd result) = imported n
    /\ skipped (snd result) = skipped n.
Proof.
  intros cfg public_ip user combine_items utcnow w n gkey sub header items inv r rn
         Heq Hgates Hinv Hnone Hplain Hids Hsel Hrn Hrn_ok seq_name result.
  unfold result.
  rewrite (import_group_passed cfg public_ip user combine_items utcnow w n gkey sub
             header items inv Heq Hgates Hinv). cbv zeta.
  unfold staged. rewrite Hnone. cbn [fst snd].
  set (doc_no := fst (_next_doc_no cfg utcnow (conn w) None)).
  set (db1 := snd (_next_doc_no cfg utcnow (conn w) None)).
  assert (sales db1 = sales (conn w) /\ sales_schema db1 = sales_schema (conn w)
          /\ sequences db1 !! seq_name
             = Some (match sequences (conn w) !! seq_name with
                     | Some v => v + 1
                     | None => 1
                     end)) as (Hsales1 & Hschema1 & Hseq1).
  { unfold db1, _next_doc_no. cbv zeta. cbn [snd sales sales_schema sequences].
    split; [reflexivity |]. split; [reflexivity |].
    fold seq_name. rewrite lookup_insert_eq.
    destruct (sequences (conn w) !! seq_name); reflexivity. }
  assert (plain_table (sales_schema db1) = true) as Hplain1
    by (rewrite Hschema1; exact Hplain).
  rewrite (select_receipt_plain db1 inv Hplain1), Hsales1, Hsel.
  unfold kept_receipt. rewrite Hrn, Hrn_ok.
  set (header2 := <["receipt_number" := rn]>
                    (<["receipt_number" := HStr doc_no]> header)).
  assert (header2 !! "invoice_no" = Some inv) as Hh2
    by (unfold header2; rewrite !lookup_insert_ne by discriminate; exact Hinv).
  destruct (refusal_plain db1 header2 inv Hplain1 Hh2) as [Hrefused Hfound].
  rewrite Hsales1, Hsel in Hfound.
  rewrite (save_order_found db1 header2 items r Hrefused Hfound). cbv zeta.
  cbn [fst snd conn updated imported skipped sequences sales].
  destruct (plain_table_facts _ Hplain1) as (Hcol_inv & Hcol_rn & _).
  split; [exact Hseq1 |].
  split; [| auto].
  eexists. split.
  - rewrite Hsales1. apply select_after_update; [exact Hids | exact Hsel |].
    rewrite clean_header_lookup by exact Hcol_inv. exact Hh2.
  - split; [reflexivity |]. cbn [sale_fields].
    apply lookup_union_Some_l. rewrite clean_header_lookup by exact Hcol_rn.
    unfold header2. apply lookup_insert_eq.
Qed.

(** *** Combining the lines of one product *)

(** A line stands for an item: the same code, name, unit and price. *)
Definition same_product (line it : item) : Prop :=
  product_code line = product_code it /\ product_name line = product_name it
  /\ unit line = unit it /\ price line = price it.

Lemma bucket_add_shape it buckets :
  (length buckets <= length (bucket_add it buckets) <= S (length buckets))%nat
  /\ bucket_add it buckets <> []
  /\ forall line, In line (List.map snd (bucket_add it buckets)) ->
                  same_product line it \/ In line (List.map snd buckets).
Proof.
  induction buckets as [| [opener line0] rest IH].
  - cbn [bucket_add length List.map snd]. split; [lia |]. split; [discriminate |].
    intros line [<- | []]. left. repeat split.
  - cbn [bucket_add]. destruct (same_key opener it).
    + cbn [length List.map snd]. split; [lia |]. split; [discriminate |].
      intros line [<- | Hin]; [left; repeat split | right; right; exact Hin].
    + destruct IH as (Hlen & _ & Hlines). cbn [length List.map snd].
      split; [lia |]. split; [discriminate |].
      intros line [<- | Hin]; [right; left; reflexivity |].
      destruct (Hlines line Hin) as [Hsame | Hold]; [left; exact Hsame |].
      right; right; exact Hold.
Qed.

Lemma fold_buckets_shape items : forall buckets,
  let filled := fold_left (fun bs it => bucket_add it bs) items buckets in
  (length buckets <= length filled <= length buckets + length items)%nat
  /\ (items <> [] -> filled <> [])
  /\ forall line, In line (List.map snd filled) ->
                  (exists it, In it items /\ same_product line it)
                  \/ In line (List.map snd buckets).
Proof.
  induction items as [| it items IH]; intros buckets; cbv zeta.
  - cbn [fold_left length]. split; [lia |]. split; [congruence |]. auto.
  - cbn [fold_left length].
    destruct (bucket_add_shape it buckets) as (Hlen & Hne & Hlines).
    specialize (IH (bucket_add it buckets)). cbv zeta in IH.
    destruct IH as (Hlen' & _ & Hlines').
    split; [lia |]. split.
    + intros _ Hnil. apply (f_equal (@length _)) in Hnil. cbn [length] in Hnil.
      assert (length (bucket_add it buckets) = 0%nat) as Hzero by lia.
      destruct (bucket_add it buckets); [congruence | discriminate].
    + intros line Hin. destruct (Hlines' line Hin) as [(it' & Hit & Hsame) | Hold].
      * left. exists it'. split; [right; exact Hit | exact Hsame].
      * destruct (Hlines line Hold) as [Hsame | Hold'];
          [left; exists it; split; [left; reflexivity | exact Hsame] | right; exact Hold'].
Qed.

(** X24. Combining never invents a product and never multiplies lines:
    [_aggregate_items] returns at most as many lines as it was given, at
    least one when it was given any, and each of its lines carries the
    code, the name, the unit and the price of one of the items. *)
Theorem aggregate_items_shape :
  forall items : list item,
    (length (_aggregate_items items) <= length items)%nat
    /\ (items <> [] -> _aggregate_items items <> [])
    /\ Forall (fun line => exists it, In it items /\ same_product line it)
              (_aggregate_items items).
Proof.
  intros items. unfold _aggregate_items.
  destruct (fold_buckets_shape items []) as (Hlen & Hne & Hlines). cbv zeta in *.
  cbn [length] in Hlen. split; [rewrite List.length_map; lia |].
  split.
  - intros Hitems Hnil. apply Hne; [exact Hitems |].
    destruct (fold_left _ items []); [reflexivity | discriminate].
  - apply List.Forall_forall. intros line Hin.
    destruct (Hlines line Hin) as [Hfound | []]. exact Hfound.
Qed.

(** *** Rows repeated in the sheet *)

Lemma drop_duplicates_seen seen rs :
  (forall r, In r rs -> r ∈ seen) -> drop_duplicates_from seen rs = [].
Proof.
  induction rs as [| r rs IH]; intros Hall; [reflexivity |].
  cbn [drop_duplicates_from].
  rewrite bool_decide_eq_true_2 by (apply Hall; left; reflexivity).
  apply IH. intros x Hx. apply Hall. right. exact Hx.
Qed.

Lemma drop_duplicates_app rs : forall seen extra,
  (forall r, In r extra -> r ∈ seen \/ In r rs) ->
  drop_duplicates_from seen (rs ++ extra) = drop_duplicates_from seen rs.
Proof.
  induction rs as [| x rs IH]; intros seen extra Hall.
  - cbn [app drop_duplicates_from]. apply drop_duplicates_seen.
    intros r Hr. destruct (Hall r Hr) as [Hs | []]. exact Hs.
  - cbn [app drop_duplicates_from].
    destruct (bool_decide (x ∈ seen)) eqn:Hx.
    + apply IH. intros r Hr. destruct (Hall r Hr) as [Hs | [<- | Hin]]; auto.
      left. apply bool_decide_eq_true in Hx. exact Hx.
    + f_equal. apply IH. intros r Hr.
      destruct (Hall r Hr) as [Hs | [<- | Hin]]; auto.
      * left. apply elem_of_cons. right. exact Hs.
      * left. apply elem_of_cons. left. reflexivity.
Qed.

(** X25. Rows that repeat rows of the sheet change nothing: a sheet
    followed by copies of some of its rows is imported as the sheet
    alone, with the same counts, the same tables and the same log. *)
Theorem repeated_rows_change_nothing :
  forall (cfg : settings) (key_order : list cell -> list cell)
         (utcnow : nat -> datetime) (public_ip : string) (user : option string)
         (combine_items : bool) (w : world) (cols : list string)
         (rs extra : list (gmap string cell)),
    (forall r, In r extra -> In r rs) ->
    render cfg key_order utcnow public_ip user combine_items w
           (mk_dataframe cols (rs ++ extra))
    = render cfg key_order utcnow public_ip user combine_items w
             (mk_dataframe cols rs).
Proof.
  intros cfg key_order utcnow public_ip user combine_items w cols rs extra Hcopies.
  unfold render. cbn [rows columns].
  assert (drop_duplicates (dropna_all (rs ++ extra)) = drop_duplicates (dropna_all rs))
    as ->; [| reflexivity].
  unfold drop_duplicates, dropna_all. rewrite List.filter_app.
  apply drop_duplicates_app. intros r Hr. right.
  apply filter_In in Hr as [Hr Hkeep]. apply filter_In. split; [| exact Hkeep].
  apply Hcopies, Hr.
Qed.

End RerunFacts.

Section StoreExamples.
Import pytext pydatetime sqlite ui_settings_import.
#[local] Existing Instance whole_floats.
#[local] Existing Instance usual_texts.

(** Closes an equation between closed terms by evaluating its right side. *)
Ltac by_computing :=
  lazymatch goal with
  | |- ?a = ?b => vm_cast_no_check (eq_refl b)
  end.

Lemma header_money_defaults_witness :
  adobo_header.1 !! "subtotal" = Some (HNum 300)
  /\ adobo_header.1 !! "total" = Some (HNum 300).
Proof.
  assert (_header_from_group adobo_group false
          = Some (adobo_header.1, adobo_header.2)) as Hheader
    by by_computing.
  destruct (header_money_defaults (order_row "#1001" "Unpaid" 2 "Adobo" "150")
              [noise_row "#1001"] false adobo_header.1 adobo_header.2 Hheader)
    as (Hsub & _ & Htotal & _).
  split.
  - rewrite (Hsub eq_refl). by_computing.
  - destruct (Htotal eq_refl) as (s & d & Hs & Hd & ->).
    assert (s = 300) as -> by (vm_compute in Hs; congruence).
    assert (d = 0) as -> by (vm_compute in Hd; congruence).
    reflexivity.
Defined.

(** An order whose vendor cell is empty. *)
Definition vendorless_group : list (gmap string cell) :=
  [<["Vendor" := CNaN]> (order_row "#1004" "Paid" 1 "Lumpia" "40")].

Definition vendorless_header : gmap string hval * list item :=
  Eval vm_compute in default (∅, []) (_header_from_group vendorless_group true).

Lemma missing_vendor_or_name_skipped_witness :
  import_group default_settings "unknown" None true (morning 0) empty_world
               no_summary (CStr "#1004") vendorless_group
  = (mk_world (conn empty_world)
       [mk_audit "settings_import" "skip_invalid_vendor" "#1004" None None "unknown"
          (ReasonDetail "Invalid vendor '' after normalization")],
     mk_summary 0 0 1 [("#1004", "Invalid vendor '' after normalization")]).
Proof.
  assert (_header_from_group vendorless_group true
          = Some (vendorless_header.1, vendorless_header.2)) as Hheader
    by by_computing.
  assert (elem (hval_text (vendorless_header.1 !! "financial_status") "") ALLOWED_STATUS
          = true) as Hok by by_computing.
  unfold vendorless_group at 1.
  rewrite (proj1 (missing_vendor_or_name_skipped default_settings "unknown" None true
                    (morning 0) empty_world no_summary (CStr "#1004")
                    (<["Vendor" := CNaN]> (order_row "#1004" "Paid" 1 "Lumpia" "40")) []
                    vendorless_header.1 vendorless_header.2 Hheader Hok)).
  - by_computing.
  - right. exists CNaN. split; by_computing.
Defined.

Lemma render_counts_every_group_witness :
  imported after_first.2 + updated after_first.2 + skipped after_first.2 = 2
  /\ length (audit_log after_first.1) = 2%nat
  /\ Z.of_nat (length (issues after_first.2)) = skipped after_first.2.
Proof.
  assert (run empty_world = Some (after_first.1, after_first.2)) as Hfirst
    by by_computing.
  pose proof (render_counts_every_group default_settings (fun keys => keys) morning
                "unknown" None true empty_world sheet after_first.1 after_first.2
                Hfirst) as Hcounts.
  cbv zeta in Hcounts. destruct Hcounts as (Hsum & _ & _ & _ & Hlog & Hissues).
  split; [rewrite Hsum; by_computing |].
  split; [rewrite Hlog; by_computing | exact Hissues].
Defined.

Lemma tables_sound_empty : tables_sound (conn empty_world).
Proof.
  repeat split; try apply NoDup_nil_2; intros; contradiction.
Qed.

Lemma save_order_keeps_tables_sound_witness :
  tables_sound (snd (_save_order (conn empty_world) adobo_header.1 adobo_header.2)).
Proof.
  apply save_order_keeps_tables_sound. exact tables_sound_empty.
Defined.

(** The header of invoice #1001 with a receipt number, saved into the
    table the invoicing screen created: the receipt number has no column
    there. *)
Definition stamped_header : gmap string hval :=
  Eval vm_compute in <["receipt_number" := HStr "INV-202501-0001"]> adobo_header.1.

Lemma save_order_then_select_witness :
  exists sid r,
    fst (_save_order (conn invoicing_world) stamped_header adobo_header.2) = inr sid
    /\ select_sale (HStr "#1001")
         (sales (snd (_save_order (conn invoicing_world) stamped_header
                                  adobo_header.2)))
       = Some r
    /\ sale_id r = sid
    /\ sale_fields r !! "financial_status" = Some (HStr "Pending")
    /\ sale_fields r !! "receipt_number" = None.
Proof.
  assert (stamped_header !! "invoice_no" = Some (HStr "#1001")) as Hinv
    by by_computing.
  assert (refusal (conn invoicing_world) stamped_header = None) as Hrefusal
    by by_computing.
  assert (found_sale (conn invoicing_world) stamped_header = None) as Hfound
    by by_computing.
  destruct (proj2 (save_order_then_select (conn invoicing_world) stamped_header
                     adobo_header.2 (HStr "#1001") (NoDup_nil_2 (A:=Z))
                     (fun i (Hi : In i []) => match Hi with end) Hinv) Hrefusal)
    as (sid & r & Hcall & Hsel & Hid & Hkept & Hdropped & _).
  exists sid, r. split; [exact Hcall |]. split; [exact Hsel |]. split; [exact Hid |].
  split.
  - apply Hkept; by_computing.
  - rewrite (Hdropped "receipt_number") by by_computing. rewrite Hfound. reflexivity.
Defined.

(** The store after the sheet has been imported once, and the group of
    invoice #1001 imported again. *)
Definition adobo_combined : gmap string hval * list item :=
  Eval vm_compute in default (∅, []) (_header_from_group adobo_group true).

Definition stored_adobo : sales_row :=
  Eval vm_compute in
    default (mk_sale 0 ∅) (select_sale (HStr "#1001") (sales (conn after_first.1))).

Lemma reimport_keeps_receipt_number_witness :
  sequences (conn after_first.1) !! "INV-202501" = Some 1
  /\ sequences
       (conn (fst (import_group default_settings "unknown" None true (morning 0)
                     after_first.1 no_summary (CStr "#1001") adobo_group)))
       !! "INV-202501" = Some 2
  /\ exists r',
       select_sale (HStr "#1001")
         (sales (conn (fst (import_group default_settings "unknown" None true
                              (morning 0) after_first.1 no_summary (CStr "#1001")
                              adobo_group))))
       = Some r'
       /\ sale_fields r' !! "receipt_number" = Some (HStr "INV-202501-0001").
Proof.
  split; [by_computing |].
  assert (_header_from_group adobo_group true
          = Some (adobo_combined.1, adobo_combined.2)) as Hheader by by_computing.
  assert (NoDup (List.map sale_id (sales (conn after_first.1)))) as Hids.
  { assert (List.map sale_id (sales (conn after_first.1)) = [1]) as -> by by_computing.
    apply NoDup_singleton. }
  assert (select_sale (HStr "#1001") (sales (conn after_first.1)) = Some stored_adobo)
    as Hsel by by_computing.
  assert (sale_fields stored_adobo !! "receipt_number" = Some (HStr "INV-202501-0001"))
    as Hrn by by_computing.
  destruct (reimport_keeps_receipt_number default_settings "unknown" None true
              (morning 0) after_first.1 no_summary (CStr "#1001") adobo_group
              adobo_combined.1 adobo_combined.2 (HStr "#1001") stored_adobo
              (HStr "INV-202501-0001") Hheader eq_refl eq_refl eq_refl eq_refl Hids
              Hsel Hrn eq_refl)
    as (Hseq & (r' & Hsel' & _ & Hkept) & _).
  split.
  - etransitivity; [exact Hseq |]. by_computing.
  - exists r'. split; assumption.
Defined.

Lemma repeated_rows_change_nothing_witness :
  render default_settings (fun keys => keys) morning "unknown" None true empty_world
         (mk_dataframe (columns sheet)
            (rows sheet ++ [order_row "#1002" "garbage-value" 1 "Sisig" "90"]))
  = run empty_world.
Proof.
  apply (repeated_rows_change_nothing default_settings (fun keys => keys) morning
           "unknown" None true empty_world (columns sheet) (rows sheet)
           [order_row "#1002" "garbage-value" 1 "Sisig" "90"]).
  intros r [<- | []]. right. left. reflexivity.
Defined.

End StoreExamples.
